(** * SeOnboardingChat: the per-room chat coordinator of [src/server/index.ts]

    A shallow embedding of the Durable Object class [SeOnboardingChat]
    (message log, connection registry, broadcast, session initialisation,
    the message handler and the documentation-search responder), followed by
    the properties of the room that the design document states.

    Layout: JavaScript helpers, the data of [src/shared.ts], the platform the
    class runs on, a small state-and-exception monad for its methods, the
    methods themselves, and then the lemmas and theorems. *)

From Stdlib Require Import String Ascii List Bool Arith PeanoNat Lia NArith.
From Stdlib Require Import Strings.Byte DecimalString HexadecimalString.
Import ListNotations.

Set Warnings "-abstract-large-number".

Open Scope string_scope.
Open Scope list_scope.

Notation "a +++ b" := (String.append a b) (at level 60, right associativity).

(** ** Values where a string is declared

    [src/shared.ts] declares [id], [content] and [user] as strings, and the
    server checks no payload against these types: what it finds there may
    be a string, [null], or nothing at all ([undefined], the property is
    missing).  A number, a boolean, an array or an object at [id] or [user]
    is left out of the model; at [content] it is the payload [Unreadable]
    below. *)
Inductive Value : Type :=
| undefined
| null
| str (s : string).

Coercion str : string >-> Value.

(** ** JavaScript helpers used by the server *)

Module JS.

(** [a === b]. *)
Definition strict_eq (a b : Value) : bool :=
  match a, b with
  | undefined, undefined => true
  | null, null => true
  | str s, str t => String.eqb s t
  | _, _ => false
  end.

(** The text a template literal puts for [v]. *)
Definition template (v : Value) : string :=
  match v with
  | str s => s
  | null => "null"
  | undefined => "undefined"
  end.

(** Truthiness of a string value: every string but the empty one. *)
Definition truthy (s : string) : bool :=
  match s with EmptyString => false | String _ _ => true end.

(** [o || d] for an optional string [o]: undefined and the empty string
    are both falsy. *)
Definition or_else (o : option string) (d : string) : string :=
  match o with
  | Some s => if truthy s then s else d
  | None => d
  end.

(** [!o] for a [string | null] value. *)
Definition falsy (o : option string) : bool :=
  match o with
  | Some s => negb (truthy s)
  | None => true
  end.

(** A flag that may be missing: [undefined] and [false] are both falsy. *)
Definition flag (o : option bool) : bool :=
  match o with Some b => b | None => false end.

(** [s.substring(a, b)]: the code units from [min a b] up to [max a b],
    both clamped to the length of [s]. *)
Definition substring (a b : nat) (s : string) : string :=
  String.substring (Nat.min a b) (Nat.max a b - Nat.min a b) s.

(** [l.join('')]. *)
Definition join (l : list string) : string := String.concat EmptyString l.

(** [n.toString(16)]. *)
Definition toString16 (n : N) : string :=
  HexadecimalString.NilZero.string_of_uint (N.to_hex_uint n).

(** [n.toString()] for a non-negative integer. *)
Definition toString10 (n : nat) : string :=
  DecimalString.NilZero.string_of_uint (Nat.to_uint n).

(** [s.padStart(targetLength, padString)]. *)
Definition padStart (targetLength : nat) (padString s : string) : string :=
  let fill := targetLength - String.length s in
  String.substring 0 fill (String.concat EmptyString (repeat padString fill)) +++ s.

(** [s.startsWith(t)]. *)
Fixpoint startsWith (s t : string) {struct t} : bool :=
  match t, s with
  | EmptyString, _ => true
  | String c t', String d s' => Ascii.eqb c d && startsWith s' t'
  | String _ _, EmptyString => false
  end.

(** [s.includes(t)]. *)
Fixpoint includes (s t : string) : bool :=
  startsWith s t ||
  match s with
  | EmptyString => false
  | String _ s' => includes s' t
  end.

(** A lower-case hexadecimal digit. *)
Definition isHexDigit (c : ascii) : bool :=
  let n := nat_of_ascii c in
  (Nat.leb 48 n && Nat.leb n 57) || (Nat.leb 97 n && Nat.leb n 102).

Definition isHex (s : string) : bool :=
  forallb isHexDigit (list_ascii_of_string s).

(** The double quote and the line feed, as one-character strings. *)
Definition dquote : string :=
  String (Ascii false true false false false true false false) EmptyString.

Definition lf : string :=
  String (Ascii false true false true false false false false) EmptyString.

End JS.

(** ** Wire and log data ([src/shared.ts]) *)

(** The [role] of a message: one of the two that are declared, or anything
    else a payload may hold there (another string, another value, or
    nothing). *)
Inductive Role : Type := User | Assistant | OtherRole.

(** A message as the room holds it: the fields of [ChatMessage] as they
    were found in the payload, or as the server wrote them. *)
Record ChatMessage : Type := {
  id : Value;
  content : Value;
  user : Value;
  role : Role
}.

(** The optional fields of an [add] or [update] event. *)
Record Extras : Type := {
  model : option string;
  platform : option string;
  useMCP : option bool
}.

Definition no_extras : Extras :=
  {| model := None; platform := None; useMCP := None |}.

Inductive Message : Type :=
| add (m : ChatMessage) (x : Extras)
| update (m : ChatMessage) (x : Extras)
| all (messages : list ChatMessage)
| session_loading
| session_ready (sessionId : string)
| session_failed (error : string).

(** What [JSON.parse(message) as Message] is when the call returns.  The
    cast checks nothing, so the value is read as the handler reads it:
    - [Event e]: a value whose [type] is one of the six tags, with the
      fields the handler reads as they were found; for an [add], any of
      [id], [content] and [user] may be missing or [null] and [role] may be
      anything;
    - [Unreadable]: a value whose [type] is "add" and whose [content] is a
      number, a boolean, an array or an object;
    - [Null]: the value [null];
    - [Other]: any other value; its [type], if it has one, is not "add". *)
Inductive Parsed : Type :=
| Event (event : Message)
| Unreadable
| Null
| Other.

(** A text frame: the event it serialises.  [JSON.stringify] is kept free,
    so two frames are equal exactly when the events are. *)
Inductive Frame : Type := JSON_stringify (message : Message).

(** ** Message log: [saveMessage] *)

Definition same_id (message m : ChatMessage) : bool :=
  JS.strict_eq (id m) (id message).

Definition saveMessage (message : ChatMessage) (messages : list ChatMessage)
  : list ChatMessage :=
  match find (same_id message) messages with
  | Some _ => map (fun m => if same_id message m then message else m) messages
  | None => messages ++ [message]
  end.

(** The log is read as it is: [snapshot] is the array held by the room. *)
Definition snapshot (messages : list ChatMessage) : list ChatMessage := messages.

(** The log after a sequence of upserts, first call first. *)
Definition upserts (calls : list ChatMessage) (messages : list ChatMessage)
  : list ChatMessage :=
  fold_left (fun log m => saveMessage m log) calls messages.

Definition occurs (i : Value) (messages : list ChatMessage) : Prop :=
  In i (map id messages).

(** ** The platform

    What the class gets from the Workers runtime and the network.  A
    [WebSocket] is an object identity.  A handler runs to its next [await]
    without the runtime changing a connection under it, so the [readyState]
    of a connection and whether [send] raises on it are read as functions
    of the connection.  Randomness is read from numbered draws.  The
    inference binding and the two documentation-search endpoints answer as
    functions of what they are asked. *)

Definition WebSocket : Type := nat.

Inductive ReadyState : Type :=
| READY_STATE_CONNECTING
| READY_STATE_OPEN
| READY_STATE_CLOSING
| READY_STATE_CLOSED.

(** A thrown [Error], read through [error.message]. *)
Record Error : Type := { message : string }.

Inductive Speaker : Type := System | Chat (r : Role).

(** One entry of the [messages] array given to [env.AI.run]. *)
Record Turn : Type := { speaker : Speaker; said : Value }.

Record AiResponse : Type := { response : option string }.

Module Mcp.

(** What is found at [text], as far as the responder tells values apart:
    a string; a value that is no string and is falsy ([null], [false] or
    [0]); or a value that is no string and is truthy ([true], another
    number, an array or an object), with what [length < 10] gives on it
    (the number of elements of an array is its [length]; [true] and a
    number have none, and the comparison is false).  An object whose
    [length] cannot be compared at all is left out. *)
Inductive Text : Type :=
| Str (s : string)
| Falsy
| Truthy (short : bool).

(** A value that is not [null], read at the expected shape of the JSON-RPC
    result of a [tools/call]: [result], [content], its first item and the
    [text] of that item.  Every level may be missing, and a level is
    missing as well when the value above it is [null] or has no such
    member. *)
Record Item : Type := { text : option Text }.
Record Result : Type := { content : option (list Item) }.
Record Reply : Type := { result : option Result }.

(** What [JSON.parse] gives for the data of an event: [null], or a value
    that is not [null]. *)
Inductive Data : Type :=
| Null
| NotNull (reply : Reply).

(** The request sent to [/sse/message]. *)
Record Request : Type := {
  jsonrpc : string;
  rpc_id : N;
  method : string;
  name : string;
  query : Value
}.

(** One framed event of the push channel. *)
Record Event : Type := { eventType : string; eventData : string }.

(** How the body of the push channel ends when no event resolved the
    exchange: the stream finishes (and nothing further arrives), or a read
    rejects. *)
Inductive Ending : Type := EndOfStream | ReadRejects (e : Error).

(** The push channel as the code sees it: the fetch rejects, or a response
    with a status arrives whose body is a sequence of framed events. *)
Inductive Channel : Type :=
| FetchRejects (e : Error)
| Response (status : nat) (events : list Event) (ending : Ending).

End Mcp.

Record Platform : Type := {
  readyState : WebSocket -> ReadyState;
  send_raises : WebSocket -> option Error;
  JSON_parse : string -> Error + Parsed;
  randomUUID : nat -> string;
  getRandomValues : nat -> nat -> byte;
  Date_now : N;
  AI_run : string -> list Turn -> Error + AiResponse;
  sse : string -> Mcp.Channel;
  sse_message : string -> Mcp.Request -> Error + nat;
  JSON_parse_rpc : string -> Error + Mcp.Data
}.

(** ** The room and what is observed of it *)

(** [Broadcast m]: [broadcastMessage] was entered with [m].
    [Sent ws data]: [ws.send(data)] returned. *)
Inductive Effect : Type :=
| Broadcast (m : Message)
| Sent (ws : WebSocket) (data : Frame).

(** The instance fields of the class ([messages], [mcpSessionId],
    [sessions], a [Map] kept in insertion order), the effects so far
    (oldest first) and the number of random draws made. *)
Record World : Type := {
  messages : list ChatMessage;
  mcpSessionId : option string;
  sessions : list (WebSocket * string);
  wire : list Effect;
  drawn : nat
}.

(** The room a constructor call leaves. *)
Definition new_room (n : nat) : World :=
  {| messages := []; mcpSessionId := None; sessions := []; wire := []; drawn := n |}.

Definition with_messages (l : list ChatMessage) (w : World) : World :=
  {| messages := l; mcpSessionId := mcpSessionId w; sessions := sessions w;
     wire := wire w; drawn := drawn w |}.

Definition with_mcpSessionId (o : option string) (w : World) : World :=
  {| messages := messages w; mcpSessionId := o; sessions := sessions w;
     wire := wire w; drawn := drawn w |}.

Definition with_sessions (s : list (WebSocket * string)) (w : World) : World :=
  {| messages := messages w; mcpSessionId := mcpSessionId w; sessions := s;
     wire := wire w; drawn := drawn w |}.

Definition with_wire (l : list Effect) (w : World) : World :=
  {| messages := messages w; mcpSessionId := mcpSessionId w; sessions := sessions w;
     wire := l; drawn := drawn w |}.

Definition with_drawn (n : nat) (w : World) : World :=
  {| messages := messages w; mcpSessionId := mcpSessionId w; sessions := sessions w;
     wire := wire w; drawn := n |}.

(** [Map.prototype.set] and [Map.prototype.delete] on the registry. *)
Fixpoint Map_set (k : WebSocket) (v : string) (m : list (WebSocket * string))
  : list (WebSocket * string) :=
  match m with
  | [] => [(k, v)]
  | (k', v') :: rest =>
      if Nat.eqb k' k then (k, v) :: rest else (k', v') :: Map_set k v rest
  end.

Definition Map_delete (k : WebSocket) (m : list (WebSocket * string))
  : list (WebSocket * string) :=
  filter (fun kv => negb (Nat.eqb (fst kv) k)) m.

(** ** Methods run as tasks: state, effects and exceptions

    A task maps the world before to the world after and either the thrown
    error or the returned value.  What a task did before it threw stays
    done. *)

Definition Task (A : Type) : Type := World -> World * (Error + A).

Definition ret {A : Type} (a : A) : Task A := fun w => (w, inr a).

Definition throw {A : Type} (e : Error) : Task A := fun w => (w, inl e).

Definition bind {A B : Type} (t : Task A) (k : A -> Task B) : Task B :=
  fun w =>
    match t w with
    | (w', inr a) => k a w'
    | (w', inl e) => (w', inl e)
    end.

Definition try_catch {A : Type} (t : Task A) (handler : Error -> Task A) : Task A :=
  fun w =>
    match t w with
    | (w', inl e) => handler e w'
    | r => r
    end.

Definition get : Task World := fun w => (w, inr w).

Definition modify (f : World -> World) : Task unit := fun w => (f w, inr tt).

(** A value that is either a thrown error or a result, awaited or called. *)
Definition lift {A : Type} (r : Error + A) : Task A := fun w => (w, r).

Declare Scope task_scope.
Delimit Scope task_scope with task.

Notation "x <- t ;; k" := (bind t (fun x => k))
  (at level 61, t at next level, right associativity) : task_scope.
Notation "t ;; k" := (bind t (fun _ => k))
  (at level 61, right associativity) : task_scope.

Open Scope task_scope.

(** ** The methods of [SeOnboardingChat] *)

Section Methods.

Variable p : Platform.

Definition is_open (s : ReadyState) : bool :=
  match s with READY_STATE_OPEN => true | _ => false end.

(** [ws.send(data)]: raises what the runtime raises, or puts the frame on
    the wire. *)
Definition send (ws : WebSocket) (data : Frame) : Task unit :=
  fun w =>
    match send_raises p ws with
    | Some e => (w, inl e)
    | None => (with_wire (wire w ++ [Sent ws data]) w, inr tt)
    end.

(** [crypto.randomUUID()]. *)
Definition crypto_randomUUID : Task string :=
  fun w => (with_drawn (S (drawn w)) w, inr (randomUUID p (drawn w))).

(** The [n] bytes of draw number [k]. *)
Definition filled (k n : nat) : list byte :=
  map (getRandomValues p k) (seq 0 n).

(** [new Uint8Array(n)] filled by [crypto.getRandomValues]. *)
Definition crypto_getRandomValues (n : nat) : Task (list byte) :=
  fun w => (with_drawn (S (drawn w)) w, inr (filled (drawn w) n)).

(** The callback of [this.sessions.forEach] in [broadcastMessage], run over
    the entries of the registry in order. *)
Fixpoint forEach_send (messageStr : Frame) (entries : list (WebSocket * string))
  : Task unit :=
  match entries with
  | [] => ret tt
  | (ws, _) :: rest =>
      (if is_open (readyState p ws) then send ws messageStr else ret tt) ;;
      forEach_send messageStr rest
  end.

Definition broadcastMessage (message : Message) (sender : option WebSocket)
  : Task unit :=
  modify (fun w => with_wire (wire w ++ [Broadcast message]) w) ;;
  let messageStr := JSON_stringify message in
  w <- get ;;
  forEach_send messageStr (sessions w).

(** The session identifier made from the random bytes. *)
Definition generateSessionId (randomBytes : list byte) : string :=
  JS.substring 0 16
    (JS.join (map (fun b => JS.padStart 2 "0" (JS.toString16 (Byte.to_N b)))
                  randomBytes)).

Definition initializeMCPSession : Task unit :=
  try_catch
    (broadcastMessage session_loading None ;;
     randomBytes <- crypto_getRandomValues 32 ;;
     let sessionId := generateSessionId randomBytes in
     modify (with_mcpSessionId (Some sessionId)) ;;
     broadcastMessage (session_ready sessionId) None)
    (fun error => broadcastMessage (session_failed (message error)) None).

(** [handleSession] up to the registration of the listeners. *)
Definition handleSession (webSocket : WebSocket) : Task unit :=
  token <- crypto_randomUUID ;;
  modify (fun w => with_sessions (Map_set webSocket token (sessions w)) w) ;;
  w <- get ;;
  send webSocket (JSON_stringify (all (messages w))) ;;
  (if JS.falsy (mcpSessionId w) then initializeMCPSession else ret tt) ;;
  w <- get ;;
  match mcpSessionId w with
  | Some sid =>
      if JS.truthy sid
      then send webSocket (JSON_stringify (session_ready sid))
      else send webSocket (JSON_stringify session_loading)
  | None => send webSocket (JSON_stringify session_loading)
  end.

(** The [close] and [error] listeners. *)
Definition onClose (webSocket : WebSocket) : Task unit :=
  modify (fun w => with_sessions (Map_delete webSocket (sessions w)) w).

(** *** The documentation-search responder *)

Definition status_ok (status : nat) : bool :=
  Nat.leb 200 status && Nat.leb status 299.

(** The loop over the framed events: the first event of type [message]
    with data that parses resolves the exchange. *)
Fixpoint read_events (events : list Mcp.Event) : option Mcp.Data :=
  match events with
  | [] => None
  | ev :: rest =>
      if String.eqb (Mcp.eventType ev) "message" && JS.truthy (Mcp.eventData ev)
      then match JSON_parse_rpc p (Mcp.eventData ev) with
           | inr parsed => Some parsed
           | inl _ => read_events rest
           end
      else read_events rest
  end.

(** How [responsePromise] settles.  With no resolving event and no
    rejection, its own timer rejects it, before the timer of the race. *)
Definition responsePromise (sid : string) : Error + Mcp.Data :=
  match sse p sid with
  | Mcp.FetchRejects e => inl e
  | Mcp.Response status events ending =>
      if status_ok status then
        match read_events events with
        | Some parsed => inr parsed
        | None =>
            match ending with
            | Mcp.ReadRejects e => inl e
            | Mcp.EndOfStream => inl {| message := "SSE response timeout" |}
            end
        end
      else inl {| message := "SSE connection failed: " +++ JS.toString10 status |}
  end.

(** [mcpData.result?.content?.[0]?.text] for a value that is not [null]. *)
Definition text_of (mcpData : Mcp.Reply) : option Mcp.Text :=
  match Mcp.result mcpData with
  | Some r =>
      match Mcp.content r with
      | Some c =>
          match nth_error c 0 with
          | Some item => Mcp.text item
          | None => None
          end
      | None => None
      end
  | None => None
  end.

Definition EmptyRetrieval : Error :=
  {| message := "MCP returned empty search results" |}.

(** What reading [mcpData.result] of [null] throws. *)
Definition TypeError_result : Error :=
  {| message := "Cannot read properties of null (reading 'result')" |}.

(** What calling [searchResults.substring] throws on a value that is no
    string. *)
Definition TypeError_substring : Error :=
  {| message := "searchResults.substring is not a function" |}.

(** [text || EmptyString] for what was found at [text]. *)
Definition or_empty (found : option Mcp.Text) : Mcp.Text :=
  match found with
  | Some (Mcp.Str s) => Mcp.Str s
  | Some (Mcp.Truthy short) => Mcp.Truthy short
  | Some Mcp.Falsy => Mcp.Str EmptyString
  | None => Mcp.Str EmptyString
  end.

(** [!searchResults || searchResults.length < 10]. *)
Definition too_little (searchResults : Mcp.Text) : bool :=
  match searchResults with
  | Mcp.Str s => negb (JS.truthy s) || Nat.ltb (String.length s) 10
  | Mcp.Falsy => true
  | Mcp.Truthy short => short
  end.

(** The extraction of the search results and the test on them. *)
Definition extract_results (mcpData : Mcp.Data) : Error + Mcp.Text :=
  match mcpData with
  | Mcp.Null => inl TypeError_result
  | Mcp.NotNull reply =>
      let searchResults := or_empty (text_of reply) in
      if too_little searchResults then inl EmptyRetrieval else inr searchResults
  end.

Definition synthesis_prompt (searchResults : string) (userQuery : Value) : list Turn :=
  [ {| speaker := System;
       said := "You are CF Helper, a Cloudflare expert assistant. Use the following Cloudflare documentation to answer the user's question comprehensively. Always cite specific sections when relevant."
               +++ JS.lf +++ JS.lf +++ "Cloudflare Documentation:" +++ JS.lf
               +++ JS.substring 0 8000 searchResults |};
    {| speaker := Chat User; said := userQuery |} ].

(** The synthesis: the prompt is built, which takes a string, and given to
    the inference binding. *)
Definition synthesize (selectedModel : string) (searchResults : Mcp.Text)
    (userQuery : Value) : Error + string :=
  match searchResults with
  | Mcp.Str s =>
      match AI_run p selectedModel (synthesis_prompt s userQuery) with
      | inl e => inl e
      | inr aiResponse =>
          inr (JS.or_else (response aiResponse)
                 "I found some relevant Cloudflare documentation but couldn't process it properly. Please try rephrasing your question.")
      end
  | _ => inl TypeError_substring
  end.

Definition requestBody (userQuery : Value) : Mcp.Request :=
  {| Mcp.jsonrpc := "2.0";
     Mcp.rpc_id := Date_now p;
     Mcp.method := "tools/call";
     Mcp.name := "search_cloudflare_documentation";
     Mcp.query := userQuery |}.

(** The [try] block of [handleMCPRequest]. *)
Definition handleMCPRequest_try (userQuery : Value) (selectedModel : string)
  : Task string :=
  w <- get ;;
  (if JS.falsy (mcpSessionId w) then initializeMCPSession else ret tt) ;;
  w <- get ;;
  if JS.falsy (mcpSessionId w)
  then throw {| message := "Could not establish MCP session" |}
  else
    let sid := JS.or_else (mcpSessionId w) EmptyString in
    let settled := responsePromise sid in
    status <- lift (sse_message p sid (requestBody userQuery)) ;;
    if Nat.eqb status 202 then
      mcpData <- lift settled ;;
      searchResults <- lift (extract_results mcpData) ;;
      lift (synthesize selectedModel searchResults userQuery)
    else throw {| message := "MCP request failed: " +++ JS.toString10 status |}.

(** The string the [catch] block of [handleMCPRequest] returns. *)
Definition explain (error : Error) : string :=
  "I encountered an issue accessing Cloudflare documentation: "
  +++ message error
  +++ ". Please try again or disable MCP search for a general response.".

Definition handleMCPRequest (userQuery : Value) (selectedModel : string)
  : Task string :=
  try_catch (handleMCPRequest_try userQuery selectedModel)
            (fun error => ret (explain error)).

(** *** The message handler *)

Definition default_model : string := "@cf/meta/llama-4-scout-17b-16e-instruct".

(** [msg.role === "user" || msg.role === "assistant"]. *)
Definition is_chat_role (r : Role) : bool :=
  match r with
  | User => true
  | Assistant => true
  | OtherRole => false
  end.

Definition conversationHistory (log : list ChatMessage) : list Turn :=
  map (fun msg => {| speaker := Chat (role msg); said := content msg |})
      (filter (fun msg => is_chat_role (role msg)) log).

(** The text of the assistant message made in the [catch] block. *)
Definition apology (asked : Value) : string :=
  "Thanks for your question: " +++ JS.dquote +++ JS.template asked +++ JS.dquote
  +++ ". This is the SE Onboarding Lab showcasing Cloudflare Workers, AI, and Durable Objects. (AI model temporarily unavailable)".

(** What the handler holds while it awaits the backend: the event it is
    answering and, once the backend has settled, the text it returned or
    the error it threw. *)
Record Awaited : Type := {
  parsed : ChatMessage;
  extras : Extras;
  settled : Error + string
}.

(** The awaited call of the [try] block. *)
Definition dispatch (m : ChatMessage) (x : Extras) : Task (Error + string) :=
  let selectedModel := JS.or_else (model x) default_model in
  if JS.flag (useMCP x) then
    aiResponseContent <- handleMCPRequest (content m) selectedModel ;;
    ret (inr aiResponseContent)
  else
    w <- get ;;
    match AI_run p selectedModel (conversationHistory (messages w)) with
    | inl e => ret (inl e)
    | inr r => ret (inr (JS.or_else (response r) "I'm here to help with your questions!"))
    end.

(** What reading [parsed.type] of [null] throws. *)
Definition TypeError_null : Error :=
  {| message := "Cannot read properties of null (reading 'type')" |}.

(** What the preview [parsed.content?.substring(0, 100)] throws when
    [content] is neither a string nor [null] nor missing. *)
Definition TypeError_content : Error :=
  {| message := "parsed.content?.substring is not a function" |}.

(** [handleMessage] up to the point where it awaits the backend. *)
Definition handleMessage_receive (webSocket : WebSocket) (raw : string)
  : Task (option Awaited) :=
  value <- lift (JSON_parse p raw) ;;
  match value with
  | Null => throw TypeError_null
  | Other => ret None
  | Unreadable => throw TypeError_content
  | Event (add m x) =>
      modify (fun w => with_messages (saveMessage m (messages w)) w) ;;
      broadcastMessage (add m x) None ;;
      match role m with
      | User =>
          a <- dispatch m x ;;
          ret (Some {| parsed := m; extras := x; settled := a |})
      | _ => ret None
      end
  | Event _ => ret None
  end.

(** [handleMessage] from the point where the backend has settled, in the
    room as it is then. *)
Definition handleMessage_resume (k : Awaited) : Task unit :=
  try_catch
    (aiResponseContent <- lift (settled k) ;;
     i <- crypto_randomUUID ;;
     let aiMessage :=
       {| id := i;
          user := if JS.flag (useMCP (extras k)) then "CF Helper"
                  else "SE Onboarding Assistant";
          role := Assistant;
          content := aiResponseContent |} in
     modify (fun w => with_messages (saveMessage aiMessage (messages w)) w) ;;
     broadcastMessage (add aiMessage no_extras) None)
    (fun error =>
       i <- crypto_randomUUID ;;
       let errorMessage :=
         {| id := i;
            user := "SE Onboarding Assistant";
            role := Assistant;
            content := apology (content (parsed k)) |} in
       modify (fun w => with_messages (saveMessage errorMessage (messages w)) w) ;;
       broadcastMessage (add errorMessage no_extras) None).

(** [handleMessage] with nothing else handled, and no connection changing,
    while it awaits. *)
Definition handleMessage (webSocket : WebSocket) (raw : string) : Task unit :=
  k <- handleMessage_receive webSocket raw ;;
  match k with
  | Some k => handleMessage_resume k
  | None => ret tt
  end.

(** *** Reading the wire *)

(** The frames delivered to one connection, oldest first. *)
Fixpoint received (ws : WebSocket) (l : list Effect) : list Frame :=
  match l with
  | [] => []
  | Sent ws' data :: rest =>
      if Nat.eqb ws' ws then data :: received ws rest else received ws rest
  | Broadcast _ :: rest => received ws rest
  end.

(** The events handed to [broadcastMessage], oldest first. *)
Fixpoint emitted (l : list Effect) : list Message :=
  match l with
  | [] => []
  | Broadcast m :: rest => m :: emitted rest
  | Sent _ _ :: rest => emitted rest
  end.

(** The registered connections whose transport state is open, in registry
    order. *)
Definition open_sockets (entries : list (WebSocket * string)) : list WebSocket :=
  filter (fun ws => is_open (readyState p ws)) (map fst entries).

Definition deliveries (data : Frame) (l : list WebSocket) : list Effect :=
  map (fun ws => Sent ws data) l.

(** The error of the first open registered connection on which [send]
    raises, if there is one. *)
Fixpoint first_raise (entries : list (WebSocket * string)) : option Error :=
  match entries with
  | [] => None
  | (ws, _) :: rest =>
      if is_open (readyState p ws) then
        match send_raises p ws with
        | Some e => Some e
        | None => first_raise rest
        end
      else first_raise rest
  end.

(** The open registered connections that come before it. *)
Fixpoint reached (entries : list (WebSocket * string)) : list WebSocket :=
  match entries with
  | [] => []
  | (ws, _) :: rest =>
      if is_open (readyState p ws) then
        match send_raises p ws with
        | Some _ => []
        | None => ws :: reached rest
        end
      else reached rest
  end.

(** No open registered connection raises on [send]. *)
Definition accepting (entries : list (WebSocket * string)) : bool :=
  forallb (fun ws => match send_raises p ws with Some _ => false | None => true end)
          (open_sockets entries).

End Methods.

(** ** A concrete room, used for the examples

    Connections 1 and 2 are open and connection 3 is closed.  The inference
    binding, the behaviour of [send] and the push channel are left to each
    example. *)

Definition hello : ChatMessage :=
  {| id := "m1"; content := "hello"; user := "Alice"; role := User |}.

Definition hello_again : ChatMessage :=
  {| id := "m1"; content := "hello again"; user := "Alice"; role := User |}.

Definition reply : ChatMessage :=
  {| id := "m2"; content := "hi"; user := "Bob"; role := User |}.

Definition with_search : Extras :=
  {| model := None; platform := None; useMCP := Some true |}.

Definition quoted (s : string) : string := JS.dquote +++ s +++ JS.dquote.

Definition field (k v : string) : string := quoted k +++ ":" +++ quoted v.

(** The frame a client sends for [hello]. *)
Definition raw_hello : string :=
  "{" +++ field "type" "add" +++ "," +++ field "id" "m1" +++ ","
  +++ field "content" "hello" +++ "," +++ field "user" "Alice" +++ ","
  +++ field "role" "user" +++ "}".

(** A second [add] with the same identifier and another text. *)
Definition raw_hello_again : string :=
  "{" +++ field "type" "add" +++ "," +++ field "id" "m1" +++ ","
  +++ field "content" "hello again" +++ "," +++ field "user" "Alice" +++ ","
  +++ field "role" "user" +++ "}".

(** The first with the documentation search switched on. *)
Definition raw_hello_search : string :=
  "{" +++ field "type" "add" +++ "," +++ field "id" "m1" +++ ","
  +++ field "content" "hello" +++ "," +++ field "user" "Alice" +++ ","
  +++ field "role" "user" +++ "," +++ quoted "useMCP" +++ ":true}".

(** A frame for an event that is not an [add]. *)
Definition raw_update : string :=
  "{" +++ field "type" "update" +++ "," +++ field "id" "m1" +++ ","
  +++ field "content" "hello again" +++ "," +++ field "user" "Alice" +++ ","
  +++ field "role" "user" +++ "}".

(** A frame that is not JSON, the frame [null], and a frame whose type is
    no event's. *)
Definition raw_broken : string := "{oops".

Definition raw_null : string := "null".

Definition raw_bogus : string := "{" +++ field "type" "bogus" +++ "}".

(** A frame tagged [add] that has none of the fields of a message, and the
    message the handler reads from it. *)
Definition raw_bare : string := "{" +++ field "type" "add" +++ "}".

Definition bare : ChatMessage :=
  {| id := undefined; content := undefined; user := undefined; role := OtherRole |}.

(** A frame tagged [add] whose role is neither of the two declared. *)
Definition raw_system : string :=
  "{" +++ field "type" "add" +++ "," +++ field "id" "m7" +++ ","
  +++ field "content" "Answer in one line." +++ "," +++ field "user" "Ops" +++ ","
  +++ field "role" "system" +++ "}".

Definition instruction : ChatMessage :=
  {| id := "m7"; content := "Answer in one line."; user := "Ops"; role := OtherRole |}.

(** A frame tagged [add] whose content is a number. *)
Definition raw_counted : string :=
  "{" +++ field "type" "add" +++ "," +++ field "id" "m8" +++ ","
  +++ quoted "content" +++ ":42," +++ field "user" "Alice" +++ ","
  +++ field "role" "user" +++ "}".

(** The data of the push-channel event that carries a search result. *)
Definition raw_result (found_text : string) : string :=
  "{" +++ field "jsonrpc" "2.0" +++ "," +++ quoted "id" +++ ":1700000000000,"
  +++ quoted "result" +++ ":{" +++ quoted "content" +++ ":[{"
  +++ field "type" "text" +++ "," +++ field "text" found_text +++ "}]}}".

(** The same with a number where the text is expected. *)
Definition raw_result_number : string :=
  "{" +++ field "jsonrpc" "2.0" +++ "," +++ quoted "id" +++ ":1700000000000,"
  +++ quoted "result" +++ ":{" +++ quoted "content" +++ ":[{"
  +++ field "type" "text" +++ "," +++ quoted "text" +++ ":20250101}]}}".

Definition carrying (found_text : Mcp.Text) : Mcp.Data :=
  Mcp.NotNull
    {| Mcp.result :=
         Some {| Mcp.content := Some [ {| Mcp.text := Some found_text |} ] |} |}.

Definition found : Mcp.Data := carrying (Mcp.Str "Durable Objects keep state.").

Definition scarce : Mcp.Data := carrying (Mcp.Str "too short").

Definition answering_with (data : string) : Mcp.Channel :=
  Mcp.Response 200
    [ {| Mcp.eventType := "endpoint"; Mcp.eventData := "/sse/message" |};
      {| Mcp.eventType := "message"; Mcp.eventData := data |} ]
    Mcp.EndOfStream.

Definition answering (found_text : string) : Mcp.Channel :=
  answering_with (raw_result found_text).

Definition silent : Mcp.Channel := Mcp.Response 200 [] Mcp.EndOfStream.

Definition down : Error := {| message := "Network connection lost." |}.

Definition never_raises : WebSocket -> option Error := fun _ => None.

Definition first_raises : WebSocket -> option Error :=
  fun ws => if Nat.eqb ws 1 then Some down else None.

Definition ai_throws : string -> list Turn -> Error + AiResponse :=
  fun _ _ => inl {| message := "3040: Capacity temporarily exceeded" |}.

Definition ai_answers : string -> list Turn -> Error + AiResponse :=
  fun _ _ => inr {| response := Some "Durable Objects are stateful." |}.

Definition lab (raises : WebSocket -> option Error)
    (ai : string -> list Turn -> Error + AiResponse)
    (channel : Mcp.Channel) : Platform :=
  {| readyState := fun ws => if Nat.leb ws 2 then READY_STATE_OPEN else READY_STATE_CLOSED;
     send_raises := raises;
     JSON_parse := fun raw =>
       if String.eqb raw raw_hello then inr (Event (add hello no_extras))
       else if String.eqb raw raw_hello_again then inr (Event (add hello_again no_extras))
       else if String.eqb raw raw_hello_search then inr (Event (add hello with_search))
       else if String.eqb raw raw_update then inr (Event (update hello_again no_extras))
       else if String.eqb raw raw_null then inr Null
       else if String.eqb raw raw_bogus then inr Other
       else if String.eqb raw raw_bare then inr (Event (add bare no_extras))
       else if String.eqb raw raw_system then inr (Event (add instruction no_extras))
       else if String.eqb raw raw_counted then inr Unreadable
       else inl {| message := "Unexpected token o in JSON at position 1" |};
     randomUUID := fun n => "uuid-" +++ JS.toString10 n;
     getRandomValues := fun _ i => match Byte.of_nat (7 * i + 3) with
                                   | Some b => b
                                   | None => x00
                                   end;
     Date_now := 1700000000000%N;
     AI_run := ai;
     sse := fun _ => channel;
     sse_message := fun _ _ => inr 202;
     JSON_parse_rpc := fun raw =>
       if String.eqb raw (raw_result "Durable Objects keep state.") then inr found
       else if String.eqb raw (raw_result "too short") then inr scarce
       else if String.eqb raw raw_null then inr Mcp.Null
       else if String.eqb raw raw_result_number then inr (carrying (Mcp.Truthy false))
       else inl {| message := "Unexpected end of JSON input" |} |}.

(** Nothing raises, the inference binding answers, the push channel
    stays silent. *)
Definition calm : Platform := lab never_raises ai_answers silent.

(** [send] raises on connection 1. *)
Definition flaky : Platform := lab first_raises ai_answers silent.

(** The inference binding throws; the documentation search answers. *)
Definition overloaded : Platform :=
  lab never_raises ai_throws (answering "Durable Objects keep state.").

(** The inference binding throws; the documentation search is not used. *)
Definition busy : Platform := lab never_raises ai_throws silent.

(** The documentation search answers, with enough text or with too little. *)
Definition searching : Platform :=
  lab never_raises ai_answers (answering "Durable Objects keep state.").

Definition searching_scarce : Platform :=
  lab never_raises ai_answers (answering "too short").

(** The documentation search answers with [null], or with a number where
    the text is expected. *)
Definition searching_null : Platform :=
  lab never_raises ai_answers (answering_with raw_null).

Definition searching_number : Platform :=
  lab never_raises ai_answers (answering_with raw_result_number).

(** Rooms with connections registered. *)
Definition three_connected : World :=
  with_sessions [(1, "t1"); (2, "t2"); (3, "t3")] (new_room 0).

Definition two_connected : World :=
  with_sessions [(1, "t1"); (2, "t2")] (new_room 0).

Definition closed_first : World :=
  with_sessions [(3, "t3"); (1, "t1"); (2, "t2")] (new_room 0).


(** ** How a handler may change the room

    The elementary changes a run of [handleMessage] is made of: an effect is
    added to the wire, a random draw is made, a message is upserted into the
    log, a token is set in a room that has none.  Registration belongs to
    [handleSession] and removal to the [close] and [error] listeners; they
    are not among them. *)
Inductive evolves : World -> World -> Prop :=
| evolves_refl (w : World) : evolves w w
| evolves_trans (w1 w2 w3 : World) : evolves w1 w2 -> evolves w2 w3 -> evolves w1 w3
| evolves_wire (e : Effect) (w : World) : evolves w (with_wire (wire w ++ [e]) w)
| evolves_drawn (w : World) : evolves w (with_drawn (S (drawn w)) w)
| evolves_save (m : ChatMessage) (w : World) :
    evolves w (with_messages (saveMessage m (messages w)) w)
| evolves_token (sid : string) (w : World) :
    JS.falsy (mcpSessionId w) = true ->
    JS.truthy sid = true ->
    evolves w (with_mcpSessionId (Some sid) w).

(** A task that changes the room by such changes only, however it ends. *)
Definition steady {A : Type} (t : Task A) : Prop :=
  forall w, evolves w (fst (t w)).

(** ** The token, digit by digit *)

(** The two hexadecimal digits [initializeMCPSession] writes for a byte. *)
Definition byte_hex (b : byte) : string :=
  JS.padStart 2 "0" (JS.toString16 (Byte.to_N b)).

(** Reading two hexadecimal digits back; used to show that the digits
    determine the byte. *)
Definition hex_digit_value (c : ascii) : N :=
  let n := N_of_ascii c in
  if (N.leb 48 n && N.leb n 57)%bool then (n - 48)%N else (n - 87)%N.

Definition byte_unhex (s : string) : option byte :=
  match s with
  | String a (String b EmptyString) =>
      Byte.of_N (16 * hex_digit_value a + hex_digit_value b)%N
  | _ => None
  end.

(** ** The push channel as text

    The loop of [handleMCPRequest] that reads the body of the push channel:
    decoded chunks are added to a buffer, the buffer is cut at blank lines,
    the last piece is kept for the next round and the others are read as
    events. *)

Module Sse.

Definition is_lf (c : ascii) : bool := Ascii.eqb c (Ascii.ascii_of_nat 10).

Definition add_first (c : ascii) (pieces : list string) : list string :=
  match pieces with
  | piece :: rest => String c piece :: rest
  | [] => [String c EmptyString]
  end.

(** [s.split('\n\n')]: the separators are found from left to right. *)
Fixpoint split_blank (s : string) : list string :=
  match s with
  | EmptyString => [EmptyString]
  | String a t =>
      match t with
      | String b s' =>
          if is_lf a && is_lf b then EmptyString :: split_blank s'
          else add_first a (split_blank t)
      | EmptyString => [String a EmptyString]
      end
  end.

(** [s.split('\n')]. *)
Fixpoint split_lines (s : string) : list string :=
  match s with
  | EmptyString => [EmptyString]
  | String a t =>
      if is_lf a then EmptyString :: split_lines t
      else add_first a (split_lines t)
  end.

(** White space for [trim], among the code units below 256: tab, line
    feed, vertical tab, form feed, carriage return, space and the
    no-break space. *)
Definition is_space (c : ascii) : bool :=
  let n := nat_of_ascii c in
  (Nat.leb 9 n && Nat.leb n 13) || Nat.eqb n 32 || Nat.eqb n 160.

Fixpoint trimStart (s : string) : string :=
  match s with
  | EmptyString => EmptyString
  | String c t => if is_space c then trimStart t else s
  end.

Fixpoint trimEnd (s : string) : string :=
  match s with
  | EmptyString => EmptyString
  | String c t =>
      match trimEnd t with
      | EmptyString => if is_space c then EmptyString else String c EmptyString
      | kept => String c kept
      end
  end.

(** [s.trim()]. *)
Definition trim (s : string) : string := trimEnd (trimStart s).

(** [s.substring(n)]. *)
Definition substring_from (n : nat) (s : string) : string :=
  String.substring n (String.length s - n) s.

(** The loop over the lines of one event: the last [event: ] line and the
    last [data: ] line are the ones that count. *)
Definition scan_line (ev : Mcp.Event) (line : string) : Mcp.Event :=
  if JS.startsWith line "event: "
  then {| Mcp.eventType := substring_from 7 line; Mcp.eventData := Mcp.eventData ev |}
  else if JS.startsWith line "data: "
  then {| Mcp.eventType := Mcp.eventType ev; Mcp.eventData := substring_from 6 line |}
  else ev.

Definition frame_of (event : string) : Mcp.Event :=
  fold_left scan_line (split_lines (trim event))
            {| Mcp.eventType := EmptyString; Mcp.eventData := EmptyString |}.

Definition blank (event : string) : bool := negb (JS.truthy (trim event)).

Section Reading.

Variable p : Platform.

(** The loop over the complete pieces of one round: the first event of
    type [message] whose data parses resolves the exchange. *)
Fixpoint process_events (events : list string) : option Mcp.Data :=
  match events with
  | [] => None
  | event :: rest =>
      if blank event then process_events rest
      else
        let ev := frame_of event in
        if String.eqb (Mcp.eventType ev) "message" && JS.truthy (Mcp.eventData ev)
        then match JSON_parse_rpc p (Mcp.eventData ev) with
             | inr parsed => Some parsed
             | inl _ => process_events rest
             end
        else process_events rest
  end.

(** The reading loop over the chunks that arrive; [None] when the stream
    ends with the exchange unresolved. *)
Fixpoint read_stream (buffer : string) (chunks : list string) : option Mcp.Data :=
  match chunks with
  | [] => None
  | chunk :: rest =>
      let events := split_blank (buffer +++ chunk) in
      match process_events (removelast events) with
      | Some parsed => Some parsed
      | None => read_stream (last events EmptyString) rest
      end
  end.

End Reading.

End Sse.

(** ** The worker in front of the rooms

    The [fetch] handler of the default export of [src/server/index.ts]: the
    model list read from the key-value store, the two set-up endpoints, the
    test page, the upgrade to a room, and the static assets. *)

Module Worker.

(** An entry of the model list kept under the key [Models], at its
    expected shape. *)
Record Model : Type := {
  id : string;
  name : string;
  description : option string;
  provider : option string;
  requiresKey : option string
}.

(** What is kept under the key [Models]: text that does not parse as a
    list of models, or the list it parses to.  [JSON.stringify] then
    [JSON.parse] gives the list back. *)
Inductive Stored : Type :=
| Unparsable
| Models (l : list Model).

(** What the client is given for a model. *)
Record Listed : Type := {
  listed_id : string;
  listed_name : string;
  listed_description : string
}.

(** The body of a set-up request once [request.json()] returned: each field
    is missing or a string, as the set-up form sends them. *)
Record Credentials : Type := {
  email : option string;
  apiKey : option string;
  accountId : option string;
  zoneId : option string
}.

Record Request : Type := {
  pathname : string;
  method : string;
  upgrade : option string;
  room : option string;
  json : Error + Credentials
}.

(** A header list with lower-case names, as [Headers] keeps them. *)
Definition Headers : Type := list (string * string).

Inductive Body : Type :=
| ModelList (models : list Listed) (setupRequired : bool)
| SetupDone (modelCount : nat) (models : list (string * string))
| WafDone (ruleId : option string)
| Failed (error : string) (details : option string)
| Page (text : string)
| Forwarded (roomId : string)
| Asset (body : string) (headers : Headers).

Record Response : Type := { status : nat; body : Body }.

(** What the handler reaches outside itself: the variables of the
    environment that are set, the answer of the account API to the
    credentials (the response was [ok] and its [success] field true, or the
    error thrown), whether a write to the store throws, the answer of the
    firewall API, and the asset served for a request. *)
Record Outside : Type := {
  env_set : string -> bool;
  validate : Credentials -> Error + unit;
  put_throws : option Error;
  create_rule : Credentials -> Error + option string;
  asset : Request -> nat * string * Headers
}.

Definition truthy_field (o : option string) : bool :=
  match o with Some s => JS.truthy s | None => false end.

(** The filter of the model list. *)
Definition available (o : Outside) (model : Model) : bool :=
  if match provider model with
     | Some pr => String.eqb pr "cloudflare"
     | None => false
     end
  then true
  else match requiresKey model with
       | Some key => if JS.truthy key then env_set o key else false
       | None => false
       end.

Definition listed (model : Model) : Listed :=
  {| listed_id := id model;
     listed_name := name model;
     listed_description := JS.or_else (description model) (id model) |}.

Definition fallback_list : Body :=
  ModelList
    [ {| listed_id := "@cf/meta/llama-4-scout-17b-16e-instruct";
         listed_name := "Default Model";
         listed_description := "Fallback model - Setup needed" |} ]
    true.

(** [GET /cfhelper/api/models]. *)
Definition list_models (o : Outside) (kv : option Stored) : Response :=
  match kv with
  | Some (Models allModels) =>
      {| status := 200;
         body := ModelList (map listed (filter (available o) allModels)) false |}
  | Some Unparsable => {| status := 200; body := fallback_list |}
  | None => {| status := 200; body := fallback_list |}
  end.

Definition workers_ai (i n d : string) : Model :=
  {| id := i; name := n; description := Some d;
     provider := Some "cloudflare"; requiresKey := None |}.

(** The models the set-up endpoint writes. *)
Definition setup_models : list Model :=
  [ workers_ai "@cf/meta/llama-4-scout-17b-16e-instruct" "Llama 4 Scout (17B)"
      "Meta's multimodal model with 16 experts - Default";
    workers_ai "@cf/meta/llama-3.1-8b-instruct" "Llama 3.1 (8B)"
      "Meta Llama 3.1 8B Instruct";
    workers_ai "@cf/meta/llama-2-7b-chat-int8" "Llama 2 (7B)"
      "Quantized Llama 2 7B Chat - Fallback";
    workers_ai "@cf/microsoft/phi-2" "Phi-2"
      "Microsoft's efficient small language model";
    workers_ai "@cf/qwen/qwen1.5-7b-chat-awq" "Qwen 1.5 (7B)"
      "Alibaba's Qwen 1.5 7B Chat - Multilingual";
    workers_ai "@cf/qwen/qwen1.5-14b-chat-awq" "Qwen 1.5 (14B)"
      "Alibaba's Qwen 1.5 14B Chat - Larger multilingual";
    workers_ai "@cf/mistral/mistral-7b-instruct-v0.1" "Mistral 7B"
      "Mistral AI's efficient 7B instruction model" ].

(** [POST /cfhelper/api/setup]: the store after, and the response. *)
Definition setup (o : Outside) (request : Request) (kv : option Stored)
  : option Stored * Response :=
  match json request with
  | inl _ =>
      (kv, {| status := 400; body := Failed "Invalid request format" None |})
  | inr fields =>
      if negb (truthy_field (email fields)) || negb (truthy_field (apiKey fields))
         || negb (truthy_field (accountId fields))
      then (kv, {| status := 400;
                   body := Failed "Missing required fields: email, apiKey, accountId"
                                  None |})
      else
        match validate o fields with
        | inl apiError =>
            (kv, {| status := 500;
                    body := Failed "Failed to validate credentials or populate KV"
                                   (Some (message apiError)) |})
        | inr _ =>
            match put_throws o with
            | Some apiError =>
                (kv, {| status := 500;
                        body := Failed "Failed to validate credentials or populate KV"
                                       (Some (message apiError)) |})
            | None =>
                (Some (Models setup_models),
                 {| status := 200;
                    body := SetupDone (length setup_models)
                              (map (fun m => (id m, name m)) setup_models) |})
            end
        end
  end.

(** [POST /cfhelper/api/setup-waf]. *)
Definition setup_waf (o : Outside) (request : Request) : Response :=
  match json request with
  | inl _ => {| status := 400; body := Failed "Invalid request format" None |}
  | inr fields =>
      if negb (truthy_field (email fields)) || negb (truthy_field (apiKey fields))
         || negb (truthy_field (accountId fields)) || negb (truthy_field (zoneId fields))
      then {| status := 400;
              body := Failed "Missing required fields: email, apiKey, accountId, zoneId"
                             None |}
      else
        match create_rule o fields with
        | inl wafError =>
            {| status := 500;
               body := Failed "Failed to create WAF rule" (Some (message wafError)) |}
        | inr ruleId => {| status := 200; body := WafDone ruleId |}
        end
  end.

Definition csp_name : string := "content-security-policy".

Definition csp_report_only_name : string := "content-security-policy-report-only".

Definition csp_value : string :=
  "default-src 'self'; script-src 'self' 'unsafe-inline' 'unsafe-eval'; style-src 'self' 'unsafe-inline'; connect-src 'self' wss://*.workers.dev; img-src 'self' data:; font-src 'self';".

(** [headers.delete(name)]. *)
Definition headers_delete (n : string) (h : Headers) : Headers :=
  filter (fun kv => negb (String.eqb (fst kv) n)) h.

(** [headers.set(name, value)] when no header of that name is left. *)
Definition headers_append (n v : string) (h : Headers) : Headers := h ++ [(n, v)].

(** The static asset with its security policy replaced. *)
Definition serve_asset (o : Outside) (request : Request) : Response :=
  let '(st, text, h) := asset o request in
  {| status := st;
     body := Asset text
               (headers_append csp_name csp_value
                  (headers_delete csp_report_only_name (headers_delete csp_name h))) |}.

(** [headers.get(name)], as the list of the values held for the name. *)
Definition headers_get (n : string) (h : Headers) : list string :=
  map snd (filter (fun kv => String.eqb (fst kv) n) h).

(** The test page, named by its title. *)
Definition waf_page : string := "SE Onboarding - WAF Testing".

(** [upgradeHeader === 'websocket'] for a header that may be missing. *)
Definition is_websocket (header : option string) : bool :=
  match header with
  | Some value => String.eqb value "websocket"
  | None => false
  end.

(** The handler: the store after, and the response. *)
Definition fetch (o : Outside) (request : Request) (kv : option Stored)
  : option Stored * Response :=
  if String.eqb (pathname request) "/cfhelper/api/models"
     && String.eqb (method request) "GET"
  then (kv, list_models o kv)
  else if String.eqb (pathname request) "/cfhelper/api/setup"
          && String.eqb (method request) "POST"
  then setup o request kv
  else if String.eqb (pathname request) "/cfhelper/api/setup-waf"
          && String.eqb (method request) "POST"
  then (kv, setup_waf o request)
  else if String.eqb (pathname request) "/api/waftesting"
          && String.eqb (method request) "GET"
  then (kv, {| status := 200; body := Page waf_page |})
  else if String.eqb (pathname request) "/cfhelper/api/ws"
  then
    if is_websocket (upgrade request)
    then (kv, {| status := 101; body := Forwarded (JS.or_else (room request) "default") |})
    else (kv, {| status := 426; body := Page "Expected Upgrade: websocket" |})
  else (kv, serve_asset o request).

End Worker.

(** ** The client's list

    The [message] listener of [ChatRoom] in the client: an [add] is put at
    the end of the list shown, an [all] replaces the list, and every other
    event leaves it. *)

Definition client_receive (shown : list ChatMessage) (message : Message)
  : list ChatMessage :=
  match message with
  | add m _ => shown ++ [m]
  | all l => l
  | _ => shown
  end.

(** The list shown after the frames received, oldest first. *)
Definition client_view (shown : list ChatMessage) (frames : list Frame)
  : list ChatMessage :=
  fold_left (fun s frame => match frame with JSON_stringify m => client_receive s m end)
            frames shown.

(** The messages of the [add] events among some events. *)
Definition adds_of (events : list Message) : list ChatMessage :=
  flat_map (fun event => match event with add m _ => [m] | _ => [] end) events.

(** What one complete broadcast of an event puts on the wire. *)
Definition segment (p : Platform) (entries : list (WebSocket * string))
    (event : Message) : list Effect :=
  Broadcast event :: deliveries (JSON_stringify event) (open_sockets p entries).

(** The room went from [w] to [w'] by complete broadcasts of some events,
    none of them an [all], the [add] events among them upserted in the
    same order, with the registry untouched. *)
Definition follows (p : Platform) (w w' : World) : Prop :=
  sessions w' = sessions w /\
  exists events,
    wire w' = wire w ++ flat_map (segment p (sessions w)) events /\
    messages w' = upserts (adds_of events) (messages w) /\
    (forall l, ~ In (all l) events).

(** ** More of the concrete room *)

(** The room of the three connections once it has its token. *)
Definition initialised : World :=
  with_mcpSessionId (Some "030a11181f262d34") three_connected.

(** An [add] written by an assistant. *)
Definition note : ChatMessage :=
  {| id := "m9"; content := "noted"; user := "Bot"; role := Assistant |}.

(** A platform that differs from another in how the submission endpoint
    answers. *)
Definition with_submission (answer : Error + nat) (q : Platform) : Platform :=
  {| readyState := readyState q;
     send_raises := send_raises q;
     JSON_parse := JSON_parse q;
     randomUUID := randomUUID q;
     getRandomValues := getRandomValues q;
     Date_now := Date_now q;
     AI_run := AI_run q;
     sse := sse q;
     sse_message := fun _ _ => answer;
     JSON_parse_rpc := JSON_parse_rpc q |}.

(** The submission is answered 200 although the search itself works. *)
Definition refusing : Platform := with_submission (inr 200) searching.

(** A search result as the push channel writes it, and the same without
    the blank line that ends an event. *)
Definition sse_message_open : string :=
  "event: message" +++ JS.lf
  +++ "data: " +++ raw_result "Durable Objects keep state.".

Definition sse_text_open : string :=
  "event: endpoint" +++ JS.lf +++ "data: /sse/message" +++ JS.lf +++ JS.lf
  +++ sse_message_open.

Definition sse_text : string := sse_text_open +++ JS.lf +++ JS.lf.

(** Set-up requests and what is outside the worker. *)
Definition full_credentials : Worker.Credentials :=
  {| Worker.email := Some "se@example.com"; Worker.apiKey := Some "0123456789abcdef";
     Worker.accountId := Some "acc-1"; Worker.zoneId := None |}.

Definition setup_request : Worker.Request :=
  {| Worker.pathname := "/cfhelper/api/setup"; Worker.method := "POST";
     Worker.upgrade := None; Worker.room := None;
     Worker.json := inr full_credentials |}.

Definition join_request : Worker.Request :=
  {| Worker.pathname := "/cfhelper/api/ws"; Worker.method := "GET";
     Worker.upgrade := Some "websocket"; Worker.room := None;
     Worker.json := inl {| message := "Unexpected end of JSON input" |} |}.

Definition page_request : Worker.Request :=
  {| Worker.pathname := "/index.html"; Worker.method := "GET";
     Worker.upgrade := None; Worker.room := None;
     Worker.json := inl {| message := "Unexpected end of JSON input" |} |}.

Definition partner_model : Worker.Model :=
  {| Worker.id := "gpt-4o"; Worker.name := "GPT-4o"; Worker.description := None;
     Worker.provider := Some "openai"; Worker.requiresKey := Some "OPENAI_API_KEY" |}.

Definition friendly : Worker.Outside :=
  {| Worker.env_set := fun _ => false;
     Worker.validate := fun _ => inr tt;
     Worker.put_throws := None;
     Worker.create_rule := fun _ => inr (Some "rule-1");
     Worker.asset := fun _ =>
       (200, "<html></html>",
        [("content-type", "text/html");
         ("content-security-policy", "default-src 'none'")]) |}.

(** The frame of an [add] written by an assistant, and a platform that
    parses it. *)
Definition raw_note : string :=
  "{" +++ field "type" "add" +++ "," +++ field "id" "m9" +++ ","
  +++ field "content" "noted" +++ "," +++ field "user" "Bot" +++ ","
  +++ field "role" "assistant" +++ "}".

Definition noting : Platform :=
  {| readyState := readyState calm;
     send_raises := send_raises calm;
     JSON_parse := fun raw =>
       if String.eqb raw raw_note then inr (Event (add note no_extras))
       else JSON_parse calm raw;
     randomUUID := randomUUID calm;
     getRandomValues := getRandomValues calm;
     Date_now := Date_now calm;
     AI_run := AI_run calm;
     sse := sse calm;
     sse_message := sse_message calm;
     JSON_parse_rpc := JSON_parse_rpc calm |}.


(** * Lemmas and theorems *)

(** Reads the fields of a world built by the setters. *)
Ltac fields :=
  cbn [messages mcpSessionId sessions wire drawn
       with_messages with_mcpSessionId with_sessions with_wire with_drawn].

(** ** Strings *)

Module JSFacts.

Lemma length_append (s t : string) :
  String.length (s +++ t) = String.length s + String.length t.
Proof.
  induction s as [|c s IH]; simpl; [reflexivity|now rewrite IH].
Qed.

Lemma append_empty (s : string) : s +++ EmptyString = s.
Proof.
  induction s as [|c s IH]; simpl; [reflexivity|now rewrite IH].
Qed.

Lemma append_assoc (s t u : string) : (s +++ t) +++ u = s +++ t +++ u.
Proof.
  induction s as [|c s IH]; simpl; [reflexivity|now rewrite IH].
Qed.

Lemma chars_append (s t : string) :
  list_ascii_of_string (s +++ t) = list_ascii_of_string s ++ list_ascii_of_string t.
Proof.
  induction s as [|c s IH]; simpl; [reflexivity|now rewrite IH].
Qed.

Lemma join_cons (x : string) (l : list string) :
  JS.join (x :: l) = x +++ JS.join l.
Proof.
  unfold JS.join. destruct l as [|y l]; simpl.
  - now rewrite append_empty.
  - reflexivity.
Qed.

(** The first [n] code units of a string that has at least [n]. *)
Lemma length_prefix (n : nat) :
  forall s, n <= String.length s -> String.length (String.substring 0 n s) = n.
Proof.
  induction n as [|n IH]; intros s H.
  - destruct s; reflexivity.
  - destruct s as [|c s]; simpl in *; [lia|].
    rewrite IH; [reflexivity|lia].
Qed.

Lemma isHex_prefix (n : nat) :
  forall s, JS.isHex s = true -> JS.isHex (String.substring 0 n s) = true.
Proof.
  unfold JS.isHex.
  induction n as [|n IH]; intros s H.
  - destruct s; reflexivity.
  - destruct s as [|c s]; simpl in *; [reflexivity|].
    apply andb_true_iff in H. destruct H as [Hc Hs].
    rewrite Hc. simpl. now apply IH.
Qed.

Lemma isHex_append (s t : string) :
  JS.isHex s = true -> JS.isHex t = true -> JS.isHex (s +++ t) = true.
Proof.
  unfold JS.isHex. intros Hs Ht.
  rewrite chars_append, forallb_app, Hs, Ht. reflexivity.
Qed.

Lemma truthy_length (s : string) : 0 < String.length s -> JS.truthy s = true.
Proof.
  destruct s; simpl; [lia|reflexivity].
Qed.

Lemma startsWith_append (t b : string) : JS.startsWith (t +++ b) t = true.
Proof.
  induction t as [|c t IH]; simpl.
  - reflexivity.
  - now rewrite Ascii.eqb_refl, IH.
Qed.

Lemma includes_startsWith (s t : string) :
  JS.startsWith s t = true -> JS.includes s t = true.
Proof.
  intros H. destruct s; simpl in *; now rewrite H.
Qed.

Lemma includes_skip (a s t : string) :
  JS.includes s t = true -> JS.includes (a +++ s) t = true.
Proof.
  intros H. induction a as [|c a IH]; simpl; [exact H|].
  rewrite IH. apply orb_true_r.
Qed.

(** A string includes whatever was spliced into it. *)
Lemma includes_middle (a t b : string) : JS.includes (a +++ t +++ b) t = true.
Proof.
  apply includes_skip, includes_startsWith, startsWith_append.
Qed.

(** [===] on these values is equality. *)
Lemma strict_eq_spec (a b : Value) : reflect (a = b) (JS.strict_eq a b).
Proof.
  destruct a as [| |s], b as [| |t]; simpl; try (constructor; congruence).
  destruct (String.eqb_spec s t); constructor; congruence.
Qed.

End JSFacts.

(** ** Message log *)

Section MessageLog.

Variable message : ChatMessage.

Lemma find_same_id_none (l : list ChatMessage) :
  find (same_id message) l = None <-> ~ occurs (id message) l.
Proof.
  unfold occurs. induction l as [|m l IH]; simpl.
  - split; [intros _ []|reflexivity].
  - unfold same_id at 1. destruct (JSFacts.strict_eq_spec (id m) (id message)) as [E|E].
    + split; [discriminate|]. intros H. exfalso. apply H. now left.
    + rewrite IH. split.
      * intros H [F|F]; [now apply E|now apply H].
      * intros H F. apply H. now right.
Qed.

Lemma saveMessage_fresh (l : list ChatMessage) :
  ~ occurs (id message) l -> saveMessage message l = l ++ [message].
Proof.
  intros H. unfold saveMessage.
  now rewrite (proj2 (find_same_id_none l) H).
Qed.

Lemma saveMessage_known (l : list ChatMessage) :
  occurs (id message) l ->
  saveMessage message l = map (fun m => if same_id message m then message else m) l.
Proof.
  intros H. unfold saveMessage.
  destruct (find (same_id message) l) eqn:E; [reflexivity|].
  apply find_same_id_none in E. contradiction.
Qed.

Lemma replace_keeps_ids (l : list ChatMessage) :
  map id (map (fun m => if same_id message m then message else m) l) = map id l.
Proof.
  induction l as [|m l IH]; simpl; [reflexivity|].
  rewrite IH. f_equal. unfold same_id.
  destruct (JSFacts.strict_eq_spec (id m) (id message)); congruence.
Qed.

Lemma replace_nth (l : list ChatMessage) (k : nat) (old : ChatMessage) :
  nth_error l k = Some old ->
  nth_error (map (fun m => if same_id message m then message else m) l) k =
  Some (if same_id message old then message else old).
Proof.
  intros H. rewrite nth_error_map, H. reflexivity.
Qed.

(** Identifiers stay pairwise distinct under an upsert. *)
Lemma saveMessage_NoDup (l : list ChatMessage) :
  NoDup (map id l) -> NoDup (map id (saveMessage message l)).
Proof.
  intros H. unfold saveMessage.
  destruct (find (same_id message) l) eqn:E.
  - now rewrite replace_keeps_ids.
  - apply find_same_id_none in E. rewrite map_app. simpl.
    apply NoDup_app; [exact H|repeat constructor; intros []|].
    intros i Hi [F|[]]. subst i. now apply E.
Qed.

End MessageLog.

Lemma upserts_fresh (calls : list ChatMessage) :
  forall log,
    NoDup (map id log ++ map id calls) ->
    upserts calls log = log ++ calls.
Proof.
  induction calls as [|m calls IH]; intros log H; simpl.
  - now rewrite app_nil_r.
  - unfold upserts in *. simpl.
    assert (F : ~ occurs (id m) log).
    { unfold occurs. intros I. simpl in H.
      apply NoDup_remove_2 in H. apply H. apply in_or_app. now left. }
    rewrite (saveMessage_fresh m log F).
    rewrite IH.
    + now rewrite <- app_assoc.
    + rewrite map_app. simpl. rewrite <- app_assoc. exact H.
Qed.

Lemma upserts_NoDup (calls : list ChatMessage) :
  forall log, NoDup (map id log) -> NoDup (map id (upserts calls log)).
Proof.
  unfold upserts.
  induction calls as [|m calls IH]; intros log H; simpl; [exact H|].
  apply IH. now apply saveMessage_NoDup.
Qed.

(** C3. An upsert whose identifier already occurs in the log keeps the
    length of the log and the identifier at every position, puts the new
    message at the position that held the identifier and leaves the other
    positions as they were; an upsert with a fresh identifier appends; after
    N upserts with pairwise distinct identifiers into the empty log,
    [snapshot] is the N messages in call order; and whatever the sequence of
    upserts, no identifier is held at two positions. *)
Theorem saveMessage_upsert (message : ChatMessage) (log calls : list ChatMessage) :
  (occurs (id message) log ->
   length (snapshot (saveMessage message log)) = length (snapshot log) /\
   map id (snapshot (saveMessage message log)) = map id (snapshot log) /\
   (forall k old,
       nth_error (snapshot log) k = Some old ->
       nth_error (snapshot (saveMessage message log)) k =
       Some (if JS.strict_eq (id old) (id message) then message else old))) /\
  (~ occurs (id message) log ->
   snapshot (saveMessage message log) = snapshot log ++ [message]) /\
  (NoDup (map id calls) ->
   snapshot (upserts calls []) = calls /\
   length (snapshot (upserts calls [])) = length calls) /\
  NoDup (map id (snapshot (upserts calls []))).
Proof.
  unfold snapshot. repeat split.
  - rewrite (saveMessage_known message log H). now rewrite length_map.
  - rewrite (saveMessage_known message log H). apply replace_keeps_ids.
  - intros k old E. rewrite (saveMessage_known message log H).
    apply (replace_nth message log k old E).
  - intros H. now apply saveMessage_fresh.
  - rewrite upserts_fresh; [reflexivity|exact H].
  - rewrite upserts_fresh; [reflexivity|exact H].
  - apply upserts_NoDup. constructor.
Qed.

Lemma saveMessage_upsert_witness :
  occurs "m1" [hello; reply] /\
  length (snapshot (saveMessage hello_again [hello; reply])) = 2 /\
  nth_error (snapshot (saveMessage hello_again [hello; reply])) 0 = Some hello_again /\
  nth_error (snapshot (saveMessage hello_again [hello; reply])) 1 = Some reply /\
  ~ occurs "m2" [hello] /\
  snapshot (saveMessage reply [hello]) = [hello; reply] /\
  NoDup (map id [hello; reply]) /\
  snapshot (upserts [hello; reply] []) = [hello; reply].
Proof.
  assert (O : occurs (id hello_again) [hello; reply]) by (unfold occurs; simpl; auto).
  assert (F : ~ occurs (id reply) [hello]).
  { unfold occurs. simpl. intros [E|[]]. discriminate E. }
  assert (N : NoDup (map id [hello; reply])).
  { simpl. repeat constructor; simpl; [intros [E|[]]; discriminate E|intros []]. }
  destruct (saveMessage_upsert hello_again [hello; reply] [hello; reply])
    as (K & _ & U & _).
  destruct (K O) as (L & _ & P).
  split; [exact O|].
  split; [exact L|].
  split; [exact (P 0 hello eq_refl)|].
  split; [exact (P 1 reply eq_refl)|].
  split; [exact F|].
  split; [exact (proj1 (proj2 (saveMessage_upsert reply [hello] [])) F)|].
  split; [exact N|].
  exact (proj1 (U N)).
Defined.

(** ** Broadcast *)

Section Broadcast.

Variable p : Platform.

Lemma with_wire_same (w : World) : with_wire (wire w) w = w.
Proof. destruct w; reflexivity. Qed.

(** The loop delivers to the open connections before the first one on
    which [send] raises, and ends with that error if there is one. *)
Lemma forEach_send_spec (data : Frame) (entries : list (WebSocket * string)) :
  forall w,
    forEach_send p data entries w =
    (with_wire (wire w ++ deliveries data (reached p entries)) w,
     match first_raise p entries with
     | Some e => inl e
     | None => inr tt
     end).
Proof.
  induction entries as [|[ws tok] rest IH]; intros w; simpl.
  - unfold ret. now rewrite app_nil_r, with_wire_same.
  - unfold bind. destruct (is_open (readyState p ws)).
    + unfold send. destruct (send_raises p ws) as [e|].
      * simpl. now rewrite app_nil_r, with_wire_same.
      * rewrite IH. simpl. now rewrite <- app_assoc.
    + unfold ret. apply IH.
Qed.

Lemma broadcastMessage_spec (m : Message) (sender : option WebSocket) (w : World) :
  broadcastMessage p m sender w =
  (with_wire (wire w ++ Broadcast m
                :: deliveries (JSON_stringify m) (reached p (sessions w))) w,
   match first_raise p (sessions w) with
   | Some e => inl e
   | None => inr tt
   end).
Proof.
  unfold broadcastMessage, bind, modify, get.
  rewrite forEach_send_spec. simpl.
  now rewrite <- app_assoc.
Qed.

Lemma accepting_first_raise (entries : list (WebSocket * string)) :
  accepting p entries = true <-> first_raise p entries = None.
Proof.
  unfold accepting, open_sockets.
  induction entries as [|[ws tok] rest IH]; simpl; [tauto|].
  destruct (is_open (readyState p ws)); simpl; [|exact IH].
  destruct (send_raises p ws); simpl; [|exact IH].
  split; discriminate.
Qed.

Lemma accepting_reached (entries : list (WebSocket * string)) :
  accepting p entries = true -> reached p entries = open_sockets p entries.
Proof.
  unfold accepting, open_sockets.
  induction entries as [|[ws tok] rest IH]; simpl; [reflexivity|].
  destruct (is_open (readyState p ws)); simpl; [|exact IH].
  destruct (send_raises p ws); simpl; [discriminate|].
  intros H. now rewrite IH.
Qed.

Lemma accepting_app (l l' : list (WebSocket * string)) :
  accepting p (l ++ l') = accepting p l && accepting p l'.
Proof.
  unfold accepting, open_sockets.
  now rewrite map_app, filter_app, forallb_app.
Qed.

Lemma first_raise_app (l l' : list (WebSocket * string)) :
  accepting p l = true -> first_raise p (l ++ l') = first_raise p l'.
Proof.
  unfold accepting, open_sockets.
  induction l as [|[ws tok] rest IH]; simpl; [reflexivity|].
  destruct (is_open (readyState p ws)); simpl; [|exact IH].
  destruct (send_raises p ws); simpl; [discriminate|exact IH].
Qed.

Lemma reached_app (l l' : list (WebSocket * string)) :
  accepting p l = true -> reached p (l ++ l') = open_sockets p l ++ reached p l'.
Proof.
  unfold accepting, open_sockets.
  induction l as [|[ws tok] rest IH]; simpl; [reflexivity|].
  destruct (is_open (readyState p ws)); simpl; [|exact IH].
  destruct (send_raises p ws); simpl; [discriminate|].
  intros H. now rewrite IH.
Qed.

(** When every open connection accepts, [broadcastMessage] returns and has
    put the frame on the wire once for each of them. *)
Lemma broadcastMessage_accepting (m : Message) (sender : option WebSocket) (w : World) :
  accepting p (sessions w) = true ->
  broadcastMessage p m sender w =
  (with_wire (wire w ++ Broadcast m
                :: deliveries (JSON_stringify m) (open_sockets p (sessions w))) w,
   inr tt).
Proof.
  intros H. rewrite broadcastMessage_spec.
  rewrite (accepting_reached _ H).
  now rewrite (proj1 (accepting_first_raise _) H).
Qed.

End Broadcast.

Section BroadcastClaims.

Variable p : Platform.

Lemma first_raise_closed (pre post : list (WebSocket * string)) (ws : WebSocket)
    (tok : string) :
  is_open (readyState p ws) = false ->
  first_raise p (pre ++ (ws, tok) :: post) = first_raise p (pre ++ post).
Proof.
  intros C. induction pre as [|[ws' tok'] pre IH]; simpl.
  - now rewrite C.
  - now rewrite IH.
Qed.

Lemma reached_closed (pre post : list (WebSocket * string)) (ws : WebSocket)
    (tok : string) :
  is_open (readyState p ws) = false ->
  reached p (pre ++ (ws, tok) :: post) = reached p (pre ++ post).
Proof.
  intros C. induction pre as [|[ws' tok'] pre IH]; simpl.
  - now rewrite C.
  - now rewrite IH.
Qed.

Lemma in_open_sockets (entries : list (WebSocket * string)) (ws : WebSocket) :
  In ws (open_sockets p entries) <->
  In ws (map fst entries) /\ readyState p ws = READY_STATE_OPEN.
Proof.
  unfold open_sockets. rewrite filter_In.
  destruct (readyState p ws); simpl; intuition discriminate.
Qed.

Lemma in_deliveries (data : Frame) (l : list WebSocket) (ws : WebSocket) (d : Frame) :
  In (Sent ws d) (deliveries data l) <-> In ws l /\ d = data.
Proof.
  unfold deliveries. rewrite in_map_iff. split.
  - intros (ws' & E & I). inversion E; subst. now split.
  - intros (I & E). subst. now exists ws.
Qed.

(** C1, as the code has it.  The [sender] argument of [broadcastMessage] is
    not read: with or without it, and as long as [send] raises on no open
    registered connection, the call returns, leaves the room as it was, and
    has put the serialised event on the wire for every registered
    connection whose state is open, the sender among them, and for no
    other connection. *)
Theorem broadcastMessage_reaches_every_open
    (message : Message) (sender : option WebSocket) (w : World) :
  accepting p (sessions w) = true ->
  let data := JSON_stringify message in
  let news := Broadcast message :: deliveries data (open_sockets p (sessions w)) in
  broadcastMessage p message sender w = broadcastMessage p message None w /\
  broadcastMessage p message sender w = (with_wire (wire w ++ news) w, inr tt) /\
  (forall ws,
      In ws (map fst (sessions w)) ->
      readyState p ws = READY_STATE_OPEN ->
      In (Sent ws data) news) /\
  (forall ws d,
      In (Sent ws d) news ->
      In ws (map fst (sessions w)) /\ readyState p ws = READY_STATE_OPEN /\ d = data).
Proof.
  intros H data news. split; [reflexivity|].
  split; [now apply broadcastMessage_accepting|].
  split.
  - intros ws R O. right. apply in_deliveries. split; [|reflexivity].
    apply in_open_sockets. now split.
  - intros ws d [E|I]; [discriminate E|].
    apply in_deliveries in I. destruct I as [I E].
    apply in_open_sockets in I. tauto.
Qed.

(** C5, as the code has it.  [broadcastMessage] returns normally exactly
    when [send] raises on no open registered connection; a registered
    connection that is not open is passed over and changes neither the
    deliveries nor the outcome; and when [send] raises on an open
    connection, the loop stops there: the connections before it have the
    frame, those after it get nothing, and the error reaches the caller. *)
Theorem broadcastMessage_stops_at_raise
    (message : Message) (sender : option WebSocket) (w : World) :
  let data := JSON_stringify message in
  (snd (broadcastMessage p message sender w) = inr tt <->
   accepting p (sessions w) = true) /\
  (forall pre ws tok post,
      sessions w = pre ++ (ws, tok) :: post ->
      is_open (readyState p ws) = false ->
      let w0 := with_sessions (pre ++ post) w in
      wire (fst (broadcastMessage p message sender w)) =
      wire (fst (broadcastMessage p message sender w0)) /\
      snd (broadcastMessage p message sender w) =
      snd (broadcastMessage p message sender w0)) /\
  (forall pre ws tok post e,
      sessions w = pre ++ (ws, tok) :: post ->
      accepting p pre = true ->
      readyState p ws = READY_STATE_OPEN ->
      send_raises p ws = Some e ->
      broadcastMessage p message sender w =
      (with_wire (wire w ++ Broadcast message :: deliveries data (open_sockets p pre)) w,
       inl e)).
Proof.
  intros data. split; [|split].
  - rewrite broadcastMessage_spec. simpl.
    rewrite accepting_first_raise.
    destruct (first_raise p (sessions w)); split; congruence.
  - intros pre ws tok post E C w0.
    rewrite !broadcastMessage_spec. simpl. rewrite E.
    now rewrite (reached_closed _ _ _ _ C), (first_raise_closed _ _ _ _ C).
  - intros pre ws tok post e E A O R.
    rewrite broadcastMessage_spec, E.
    rewrite (reached_app _ _ _ A), (first_raise_app _ _ _ A). simpl.
    rewrite O. simpl. rewrite R. now rewrite app_nil_r.
Qed.

End BroadcastClaims.

Lemma broadcastMessage_reaches_every_open_witness :
  accepting calm (sessions three_connected) = true /\
  broadcastMessage calm (add hello no_extras) (Some 1) three_connected =
  (with_wire [Broadcast (add hello no_extras);
              Sent 1 (JSON_stringify (add hello no_extras));
              Sent 2 (JSON_stringify (add hello no_extras))] three_connected,
   inr tt).
Proof.
  split; [reflexivity|].
  exact (proj1 (proj2 (broadcastMessage_reaches_every_open calm (add hello no_extras)
                         (Some 1) three_connected eq_refl))).
Defined.

(** C1 as stated fails: the connection given as the one to leave out is
    open and registered, and the frame is put on the wire for it. *)
Lemma broadcastMessage_sender_not_excluded :
  In 1 (map fst (sessions three_connected)) /\
  readyState calm 1 = READY_STATE_OPEN /\
  In (Sent 1 (JSON_stringify (add hello no_extras)))
     (wire (fst (broadcastMessage calm (add hello no_extras) (Some 1) three_connected))).
Proof.
  vm_compute. repeat split; auto.
Qed.

Lemma broadcastMessage_stops_at_raise_witness :
  sessions closed_first = [(3, "t3")] ++ (1, "t1") :: [(2, "t2")] /\
  accepting flaky [(3, "t3")] = true /\
  readyState flaky 1 = READY_STATE_OPEN /\
  send_raises flaky 1 = Some down /\
  broadcastMessage flaky session_loading None closed_first =
  (with_wire [Broadcast session_loading] closed_first, inl down).
Proof.
  split; [reflexivity|]. split; [reflexivity|].
  split; [reflexivity|]. split; [reflexivity|].
  exact (proj2 (proj2 (broadcastMessage_stops_at_raise flaky session_loading None
                         closed_first))
           [(3, "t3")] 1 "t1" [(2, "t2")] down eq_refl eq_refl eq_refl eq_refl).
Defined.

(** C5 as stated fails: [send] raises on the first of two open
    connections; the second gets nothing and the caller gets the error. *)
Lemma broadcastMessage_failure_not_swallowed :
  readyState flaky 2 = READY_STATE_OPEN /\
  send_raises flaky 2 = None /\
  received 2 (wire (fst (broadcastMessage flaky session_loading None two_connected))) = [] /\
  snd (broadcastMessage flaky session_loading None two_connected) = inl down.
Proof.
  vm_compute. repeat split.
Qed.

(** ** Session initialisation *)

Section Session.

Variable p : Platform.

Lemma pad_byte_hex (b : byte) :
  String.length (JS.padStart 2 "0" (JS.toString16 (Byte.to_N b))) = 2 /\
  JS.isHex (JS.padStart 2 "0" (JS.toString16 (Byte.to_N b))) = true.
Proof.
  destruct b; split; vm_compute; reflexivity.
Qed.

Lemma join_hex_pairs (l : list string) :
  (forall s, In s l -> String.length s = 2 /\ JS.isHex s = true) ->
  String.length (JS.join l) = 2 * length l /\ JS.isHex (JS.join l) = true.
Proof.
  induction l as [|s l IH]; intros H.
  - split; reflexivity.
  - rewrite JSFacts.join_cons.
    destruct (H s (or_introl eq_refl)) as [Ls Hs].
    destruct IH as [Ll Hl]; [intros t I; apply H; now right|].
    split.
    + rewrite JSFacts.length_append, Ls, Ll. simpl. lia.
    + now apply JSFacts.isHex_append.
Qed.

(** Eight random bytes or more give a token of sixteen hexadecimal digits. *)
Lemma generateSessionId_hex16 (randomBytes : list byte) :
  8 <= length randomBytes ->
  String.length (generateSessionId randomBytes) = 16 /\
  JS.isHex (generateSessionId randomBytes) = true.
Proof.
  intros H. unfold generateSessionId, JS.substring.
  change (Nat.min 0 16) with 0. change (Nat.max 0 16 - 0) with 16.
  destruct (join_hex_pairs
              (map (fun b => JS.padStart 2 "0" (JS.toString16 (Byte.to_N b))) randomBytes))
    as [L X].
  { intros s I. apply in_map_iff in I. destruct I as (b & E & _). subst s.
    apply pad_byte_hex. }
  rewrite length_map in L.
  split.
  - apply JSFacts.length_prefix. lia.
  - now apply JSFacts.isHex_prefix.
Qed.

Lemma drawn_token (n : nat) :
  String.length (generateSessionId (filled p n 32)) = 16 /\
  JS.isHex (generateSessionId (filled p n 32)) = true.
Proof.
  apply generateSessionId_hex16. unfold filled.
  rewrite length_map, length_seq. lia.
Qed.

Lemma emitted_app (l l' : list Effect) : emitted (l ++ l') = emitted l ++ emitted l'.
Proof.
  induction l as [|[m|ws d] l IH]; simpl; [reflexivity| |exact IH].
  now rewrite IH.
Qed.

Lemma emitted_deliveries (data : Frame) (l : list WebSocket) :
  emitted (deliveries data l) = [].
Proof.
  induction l as [|ws l IH]; simpl; [reflexivity|exact IH].
Qed.

(** What one run of [initializeMCPSession] does. *)
Lemma initializeMCPSession_spec (w : World) :
  let sid := generateSessionId (filled p (drawn w) 32) in
  let seen := reached p (sessions w) in
  initializeMCPSession p w =
  match first_raise p (sessions w) with
  | None =>
      (with_wire (wire w
                  ++ (Broadcast session_loading
                        :: deliveries (JSON_stringify session_loading) seen)
                  ++ (Broadcast (session_ready sid)
                        :: deliveries (JSON_stringify (session_ready sid)) seen))
         (with_mcpSessionId (Some sid) (with_drawn (S (drawn w)) w)),
       inr tt)
  | Some e =>
      (with_wire (wire w
                  ++ (Broadcast session_loading
                        :: deliveries (JSON_stringify session_loading) seen)
                  ++ (Broadcast (session_failed (message e))
                        :: deliveries (JSON_stringify (session_failed (message e))) seen))
         w,
       inl e)
  end.
Proof.
  intros sid seen. unfold initializeMCPSession, try_catch, bind.
  rewrite broadcastMessage_spec.
  destruct (first_raise p (sessions w)) as [e|] eqn:F.
  - rewrite broadcastMessage_spec. simpl. rewrite F.
    now rewrite <- app_assoc.
  - unfold crypto_getRandomValues, modify. simpl.
    rewrite broadcastMessage_spec. simpl. rewrite F.
    now rewrite <- app_assoc.
Qed.

End Session.

Section SessionClaims.

Variable p : Platform.

(** C9. One run of [initializeMCPSession] hands [session_loading] to the
    broadcast and then exactly one more event, which is [session_ready]
    (with the new sixteen-digit token, now the room's token) when the run
    returns, and [session_failed] (with the message of the error, the
    room's token left as it was) when a send raised. *)
Theorem initializeMCPSession_one_outcome (w : World) :
  exists news outcome,
    wire (fst (initializeMCPSession p w)) = wire w ++ news /\
    emitted news = [session_loading; outcome] /\
    ((exists sid,
         outcome = session_ready sid /\
         String.length sid = 16 /\ JS.isHex sid = true /\
         mcpSessionId (fst (initializeMCPSession p w)) = Some sid /\
         snd (initializeMCPSession p w) = inr tt /\
         accepting p (sessions w) = true) \/
     (exists e,
         outcome = session_failed (message e) /\
         mcpSessionId (fst (initializeMCPSession p w)) = mcpSessionId w /\
         first_raise p (sessions w) = Some e /\
         accepting p (sessions w) = false)).
Proof.
  rewrite initializeMCPSession_spec.
  destruct (first_raise p (sessions w)) as [e|] eqn:F.
  - eexists. exists (session_failed (message e)).
    split; [reflexivity|]. split.
    + rewrite emitted_app. simpl. now rewrite !emitted_deliveries.
    + right. exists e. repeat split.
      destruct (accepting p (sessions w)) eqn:A; [|reflexivity].
      apply accepting_first_raise in A. congruence.
  - eexists. exists (session_ready (generateSessionId (filled p (drawn w) 32))).
    split; [reflexivity|]. split.
    + rewrite emitted_app. simpl. now rewrite !emitted_deliveries.
    + left. eexists. split; [reflexivity|].
      destruct (drawn_token p (drawn w)) as [L X].
      repeat split; try assumption.
      now apply accepting_first_raise.
Qed.

Lemma received_app (ws : WebSocket) (l l' : list Effect) :
  received ws (l ++ l') = received ws l ++ received ws l'.
Proof.
  induction l as [|[m|ws' d] l IH]; simpl; [reflexivity|exact IH|].
  destruct (Nat.eqb ws' ws); simpl; now rewrite IH.
Qed.

(** C8. The first connection to a new room, open and accepting, gets the
    [all] event with the empty log, then [session_loading], then
    [session_ready] with a token of sixteen hexadecimal digits (and that
    same [session_ready] once more, sent to it directly after the
    broadcast); the token is then the room's. *)
Theorem handleSession_first_connection (webSocket : WebSocket) (n : nat) :
  readyState p webSocket = READY_STATE_OPEN ->
  send_raises p webSocket = None ->
  let sid := generateSessionId (filled p (S n) 32) in
  let w' := fst (handleSession p webSocket (new_room n)) in
  snd (handleSession p webSocket (new_room n)) = inr tt /\
  received webSocket (wire w') =
    [JSON_stringify (all []);
     JSON_stringify session_loading;
     JSON_stringify (session_ready sid);
     JSON_stringify (session_ready sid)] /\
  String.length sid = 16 /\
  JS.isHex sid = true /\
  mcpSessionId w' = Some sid /\
  sessions w' = [(webSocket, randomUUID p n)].
Proof.
  intros O A sid w'.
  destruct (drawn_token p (S n)) as [L X]. fold sid in L, X.
  assert (T : JS.truthy sid = true) by (apply JSFacts.truthy_length; lia).
  assert (E : handleSession p webSocket (new_room n) =
              (with_wire [Sent webSocket (JSON_stringify (all []));
                          Broadcast session_loading;
                          Sent webSocket (JSON_stringify session_loading);
                          Broadcast (session_ready sid);
                          Sent webSocket (JSON_stringify (session_ready sid));
                          Sent webSocket (JSON_stringify (session_ready sid))]
                 (with_mcpSessionId (Some sid)
                    (with_drawn (S (S n))
                       (with_sessions [(webSocket, randomUUID p n)] (new_room n)))),
               inr tt)).
  { unfold handleSession, bind, crypto_randomUUID, modify, get. simpl.
    unfold send at 1. rewrite A. simpl.
    rewrite initializeMCPSession_spec. simpl.
    rewrite O. simpl. rewrite A. simpl. fold sid. rewrite T.
    unfold send. rewrite A. reflexivity. }
  subst w'. rewrite E. simpl. rewrite Nat.eqb_refl.
  repeat split; assumption.
Qed.

End SessionClaims.

Lemma handleSession_first_connection_witness :
  readyState calm 1 = READY_STATE_OPEN /\
  send_raises calm 1 = None /\
  received 1 (wire (fst (handleSession calm 1 (new_room 0)))) =
    [JSON_stringify (all []);
     JSON_stringify session_loading;
     JSON_stringify (session_ready "030a11181f262d34");
     JSON_stringify (session_ready "030a11181f262d34")].
Proof.
  split; [reflexivity|]. split; [reflexivity|].
  exact (proj1 (proj2 (handleSession_first_connection calm 1 0 eq_refl eq_refl))).
Defined.

(** ** The documentation-search responder *)

Section Responder.

Variable p : Platform.

Lemma or_else_truthy (o : option string) (s : string) :
  o = Some s -> JS.truthy s = true -> JS.or_else o EmptyString = s.
Proof.
  intros E T. subst o. simpl. now rewrite T.
Qed.

(** The [try] block in a room that has its token: the submission, then the
    race, then the extraction, then the synthesis, the first failure being
    the failure of the block. *)
Lemma handleMCPRequest_try_with_session
    (userQuery : Value) (selectedModel : string) (w : World) (sid : string) :
  mcpSessionId w = Some sid ->
  JS.truthy sid = true ->
  handleMCPRequest_try p userQuery selectedModel w =
  (w,
   match sse_message p sid (requestBody p userQuery) with
   | inl e => inl e
   | inr status =>
       if Nat.eqb status 202 then
         match responsePromise p sid with
         | inl e => inl e
         | inr mcpData =>
             match extract_results mcpData with
             | inl e => inl e
             | inr searchResults => synthesize p selectedModel searchResults userQuery
             end
         end
       else inl {| message := "MCP request failed: " +++ JS.toString10 status |}
   end).
Proof.
  intros E T.
  unfold handleMCPRequest_try, bind, get, lift, throw, ret.
  assert (F : JS.falsy (mcpSessionId w) = false) by (rewrite E; simpl; now rewrite T).
  rewrite F. rewrite F.
  rewrite (or_else_truthy _ _ E T).
  destruct (sse_message p sid (requestBody p userQuery)) as [e|status]; [reflexivity|].
  destruct (Nat.eqb status 202); [|reflexivity].
  destruct (responsePromise p sid) as [e|mcpData]; [reflexivity|].
  destruct (extract_results mcpData); reflexivity.
Qed.

End Responder.

(** C6, as the code has it.  When the push channel resolved with [null],
    reading the result throws a [TypeError]: the step fails, but not with
    the empty-results error.  For any other value the extraction step fails
    with the empty-results error exactly when the text of the result is
    missing, is the empty string or has fewer than ten code units, or is no
    string and is falsy or has a [length] below ten; a text of ten code
    units or more passes and is given to the synthesis; a value that passes
    and is no string never reaches the inference binding, because building
    the prompt throws a [TypeError].  In a room that has its token, once
    the submission was accepted (202) and the push channel resolved, the
    [try] block of the responder ends accordingly, and the responder
    returns the text of the synthesis or the explanation of the error. *)
Theorem extract_results_EmptyRetrieval (mcpData : Mcp.Data) :
  (mcpData = Mcp.Null ->
   extract_results mcpData = inl TypeError_result /\
   extract_results mcpData <> inl EmptyRetrieval) /\
  (forall reply,
      mcpData = Mcp.NotNull reply ->
      (extract_results mcpData = inl EmptyRetrieval <->
       text_of reply = None \/
       text_of reply = Some (Mcp.Str EmptyString) \/
       (exists s, text_of reply = Some (Mcp.Str s) /\ String.length s < 10) \/
       text_of reply = Some Mcp.Falsy \/
       text_of reply = Some (Mcp.Truthy true)) /\
      (forall s,
          text_of reply = Some (Mcp.Str s) -> 10 <= String.length s ->
          extract_results mcpData = inr (Mcp.Str s)) /\
      (text_of reply = Some (Mcp.Truthy false) ->
       extract_results mcpData = inr (Mcp.Truthy false))) /\
  (forall p userQuery selectedModel w sid,
      mcpSessionId w = Some sid ->
      JS.truthy sid = true ->
      sse_message p sid (requestBody p userQuery) = inr 202 ->
      responsePromise p sid = inr mcpData ->
      let outcome :=
        match mcpData with
        | Mcp.Null => inl TypeError_result
        | Mcp.NotNull reply =>
            match text_of reply with
            | Some (Mcp.Str s) =>
                if Nat.ltb (String.length s) 10 then inl EmptyRetrieval
                else
                  match AI_run p selectedModel (synthesis_prompt s userQuery) with
                  | inl e => inl e
                  | inr aiResponse =>
                      inr (JS.or_else (response aiResponse)
                             "I found some relevant Cloudflare documentation but couldn't process it properly. Please try rephrasing your question.")
                  end
            | Some (Mcp.Truthy short) =>
                if short then inl EmptyRetrieval else inl TypeError_substring
            | Some Mcp.Falsy => inl EmptyRetrieval
            | None => inl EmptyRetrieval
            end
        end in
      handleMCPRequest_try p userQuery selectedModel w = (w, outcome) /\
      handleMCPRequest p userQuery selectedModel w =
      (w, match outcome with
          | inl e => inr (explain e)
          | inr text => inr text
          end)).
Proof.
  assert (X : forall reply,
             extract_results (Mcp.NotNull reply) =
             match text_of reply with
             | Some (Mcp.Str s) =>
                 if Nat.ltb (String.length s) 10 then inl EmptyRetrieval
                 else inr (Mcp.Str s)
             | Some (Mcp.Truthy short) =>
                 if short then inl EmptyRetrieval else inr (Mcp.Truthy short)
             | Some Mcp.Falsy => inl EmptyRetrieval
             | None => inl EmptyRetrieval
             end).
  { intros reply. unfold extract_results.
    destruct (text_of reply) as [[s| |short]|]; try reflexivity.
    destruct s as [|c s]; reflexivity. }
  split; [|split].
  - intros E. subst mcpData. split; [reflexivity|discriminate].
  - intros reply E. subst mcpData. rewrite X. split; [|split].
    + destruct (text_of reply) as [[s| |short]|].
      * destruct (Nat.ltb_spec (String.length s) 10) as [L|L].
        -- split; [|reflexivity]. intros _. right. right. left. now exists s.
        -- split; [discriminate|].
           intros [E|[E|[(t & E & F)|[E|E]]]]; try discriminate E.
           ++ inversion E; subst s. simpl in L. lia.
           ++ inversion E; subst t. lia.
      * split; [|reflexivity]. intros _. right. right. right. now left.
      * destruct short.
        -- split; [|reflexivity]. intros _. right. right. right. now right.
        -- split; [discriminate|].
           intros [E|[E|[(t & E & F)|[E|E]]]]; discriminate E.
      * split; [|reflexivity]. intros _. now left.
    + intros s E L. rewrite E.
      destruct (Nat.ltb_spec (String.length s) 10); [lia|reflexivity].
    + intros E. now rewrite E.
  - intros p userQuery selectedModel w sid E T A R outcome.
    assert (Y : handleMCPRequest_try p userQuery selectedModel w = (w, outcome)).
    { rewrite (handleMCPRequest_try_with_session p userQuery selectedModel w sid E T).
      rewrite A, R. simpl Nat.eqb. cbv iota. subst outcome.
      destruct mcpData as [|reply]; [reflexivity|].
      rewrite X.
      destruct (text_of reply) as [[s| |short]|]; try reflexivity.
      + destruct (Nat.ltb (String.length s) 10); reflexivity.
      + destruct short; reflexivity. }
    split; [exact Y|].
    unfold handleMCPRequest, try_catch. rewrite Y.
    destruct outcome; reflexivity.
Qed.

Lemma extract_results_EmptyRetrieval_witness :
  text_of {| Mcp.result :=
               Some {| Mcp.content :=
                         Some [ {| Mcp.text := Some (Mcp.Str "too short") |} ] |} |}
    = Some (Mcp.Str "too short") /\
  String.length "too short" < 10 /\
  extract_results scarce = inl EmptyRetrieval /\
  10 <= String.length "Durable Objects keep state." /\
  extract_results found = inr (Mcp.Str "Durable Objects keep state.") /\
  extract_results Mcp.Null = inl TypeError_result /\
  mcpSessionId (with_mcpSessionId (Some "030a11181f262d34") three_connected)
    = Some "030a11181f262d34" /\
  JS.truthy "030a11181f262d34" = true /\
  sse_message searching_scarce "030a11181f262d34" (requestBody searching_scarce "hello")
    = inr 202 /\
  responsePromise searching_scarce "030a11181f262d34" = inr scarce /\
  snd (handleMCPRequest_try searching_scarce "hello" default_model
         (with_mcpSessionId (Some "030a11181f262d34") three_connected))
    = inl EmptyRetrieval.
Proof.
  assert (L : 10 <= String.length "Durable Objects keep state.") by (simpl; lia).
  assert (S : String.length "too short" < 10) by (simpl; lia).
  destruct (extract_results_EmptyRetrieval scarce) as (_ & K & T).
  destruct (K _ eq_refl) as (E & _ & _).
  destruct (extract_results_EmptyRetrieval found) as (_ & F & _).
  destruct (F _ eq_refl) as (_ & G & _).
  destruct (extract_results_EmptyRetrieval Mcp.Null) as (N & _ & _).
  split; [reflexivity|]. split; [exact S|].
  split.
  { apply (proj2 E). right. right. left. exists "too short". split; [reflexivity|exact S]. }
  split; [exact L|].
  split; [exact (G _ eq_refl L)|].
  split; [exact (proj1 (N eq_refl))|].
  split; [reflexivity|]. split; [reflexivity|].
  split; [reflexivity|]. split; [reflexivity|].
  exact (f_equal snd
           (proj1 (T searching_scarce (str "hello") default_model
                     (with_mcpSessionId (Some "030a11181f262d34") three_connected)
                     "030a11181f262d34" eq_refl eq_refl eq_refl eq_refl))).
Defined.

(** C6 as stated fails: the push channel resolves with [null], so there is
    no text at all, and the responder does not fail with the empty-results
    error: reading the result throws, and it is that error the returned
    string explains.  With a number where the text is expected, the step
    neither fails with the empty-results error nor reaches the synthesis. *)
Lemma null_result_is_not_EmptyRetrieval :
  responsePromise searching_null "030a11181f262d34" = inr Mcp.Null /\
  snd (handleMCPRequest_try searching_null "hello" default_model
         (with_mcpSessionId (Some "030a11181f262d34") three_connected))
    = inl TypeError_result /\
  TypeError_result <> EmptyRetrieval /\
  snd (handleMCPRequest searching_null "hello" default_model
         (with_mcpSessionId (Some "030a11181f262d34") three_connected))
    = inr (explain TypeError_result) /\
  responsePromise searching_number "030a11181f262d34"
    = inr (carrying (Mcp.Truthy false)) /\
  snd (handleMCPRequest_try searching_number "hello" default_model
         (with_mcpSessionId (Some "030a11181f262d34") three_connected))
    = inl TypeError_substring.
Proof.
  repeat split; try reflexivity. discriminate.
Qed.

(** C7. [handleMCPRequest] always returns a string and never throws:
    whatever error ends its [try] block (no session, a rejected or refused
    submission, a failed or silent push channel, empty results, a throwing
    synthesis), the string returned is the explanation built from that
    error, which includes the error's message and the advice to disable
    the search; when the block returns, its string is returned. *)
Theorem handleMCPRequest_never_throws
    (p : Platform) (userQuery : Value) (selectedModel : string) (w : World) :
  exists answer,
    handleMCPRequest p userQuery selectedModel w =
    (fst (handleMCPRequest_try p userQuery selectedModel w), inr answer) /\
    (forall e,
        snd (handleMCPRequest_try p userQuery selectedModel w) = inl e ->
        answer = explain e /\
        JS.includes answer (message e) = true /\
        JS.includes answer "disable MCP search" = true) /\
    (forall s,
        snd (handleMCPRequest_try p userQuery selectedModel w) = inr s ->
        answer = s).
Proof.
  unfold handleMCPRequest, try_catch.
  destruct (handleMCPRequest_try p userQuery selectedModel w) as [w' [e|s]]; simpl.
  - exists (explain e). split; [reflexivity|]. split.
    + intros e' E. inversion E; subst e'. split; [reflexivity|]. split.
      * unfold explain. apply JSFacts.includes_middle.
      * unfold explain. do 2 apply JSFacts.includes_skip. reflexivity.
    + discriminate.
  - exists s. split; [reflexivity|]. split; [discriminate|].
    intros s' E. now inversion E.
Qed.

Lemma handleMCPRequest_never_throws_witness :
  snd (handleMCPRequest_try calm "hello" default_model three_connected)
    = inl {| message := "SSE response timeout" |} /\
  exists answer,
    snd (handleMCPRequest calm "hello" default_model three_connected) = inr answer /\
    answer = explain {| message := "SSE response timeout" |}.
Proof.
  split; [reflexivity|].
  destruct (handleMCPRequest_never_throws calm "hello" default_model three_connected)
    as (answer & E & F & _).
  exists answer. split.
  - exact (f_equal snd E).
  - exact (proj1 (F _ eq_refl)).
Defined.

(** ** The message handler *)

Section Handler.

Variable p : Platform.

(** The handler resumed after the inference call threw, in whatever room
    it finds: the [catch] block upserts the apology and broadcasts it. *)
Lemma handleMessage_resume_failure (k : Awaited) (e : Error) (w : World) :
  settled k = inl e ->
  accepting p (sessions w) = true ->
  let errorMessage :=
    {| id := randomUUID p (drawn w);
       user := "SE Onboarding Assistant";
       role := Assistant;
       content := apology (content (parsed k)) |} in
  handleMessage_resume p k w =
  (with_wire (wire w ++ Broadcast (add errorMessage no_extras)
                :: deliveries (JSON_stringify (add errorMessage no_extras))
                     (open_sockets p (sessions w)))
     (with_messages (saveMessage errorMessage (messages w))
        (with_drawn (S (drawn w)) w)),
   inr tt).
Proof.
  intros E A errorMessage.
  unfold handleMessage_resume, try_catch, bind, lift. rewrite E.
  unfold crypto_randomUUID, modify.
  rewrite broadcastMessage_accepting; [reflexivity|exact A].
Qed.


(** C10. A parsed event that is not an [add] ends the handler at once: the
    log, the registry, the token and the wire are as they were, and nothing
    is awaited. *)
Theorem handleMessage_ignores_other_events
    (webSocket : WebSocket) (raw : string) (w : World) (event : Message) :
  JSON_parse p raw = inr (Event event) ->
  (forall m x, event <> add m x) ->
  handleMessage_receive p webSocket raw w = (w, inr None) /\
  handleMessage p webSocket raw w = (w, inr tt).
Proof.
  intros E N.
  unfold handleMessage, handleMessage_receive, bind, lift. rewrite E.
  destruct event; try (split; reflexivity).
  exfalso. now apply (N m x).
Qed.

End Handler.

Lemma handleMessage_ignores_other_events_witness :
  JSON_parse calm raw_update = inr (Event (update hello_again no_extras)) /\
  (forall m x, update hello_again no_extras <> add m x) /\
  handleMessage calm 1 raw_update three_connected = (three_connected, inr tt).
Proof.
  assert (N : forall m x, update hello_again no_extras <> add m x)
    by (intros m x; discriminate).
  split; [reflexivity|]. split; [exact N|].
  exact (proj2 (handleMessage_ignores_other_events calm 1 raw_update three_connected
                  _ eq_refl N)).
Defined.

(** ** The handler on the concrete room *)

(** A user's [hello] is logged and broadcast, and so is the answer of the
    inference binding. *)
Example hello_is_answered :
  handleMessage calm 1 raw_hello three_connected =
  (with_wire
     [Broadcast (add hello no_extras);
      Sent 1 (JSON_stringify (add hello no_extras));
      Sent 2 (JSON_stringify (add hello no_extras));
      Broadcast (add {| id := "uuid-0"; user := "SE Onboarding Assistant";
                        role := Assistant;
                        content := "Durable Objects are stateful." |} no_extras);
      Sent 1 (JSON_stringify
                (add {| id := "uuid-0"; user := "SE Onboarding Assistant";
                        role := Assistant;
                        content := "Durable Objects are stateful." |} no_extras));
      Sent 2 (JSON_stringify
                (add {| id := "uuid-0"; user := "SE Onboarding Assistant";
                        role := Assistant;
                        content := "Durable Objects are stateful." |} no_extras))]
     (with_messages
        [hello;
         {| id := "uuid-0"; user := "SE Onboarding Assistant"; role := Assistant;
            content := "Durable Objects are stateful." |}]
        (with_drawn 1 three_connected)),
   inr tt).
Proof. reflexivity. Qed.

(** With the search switched on and answering, the responder returns the
    synthesis. *)
Example search_is_answered :
  snd (handleMCPRequest searching "hello" default_model three_connected)
  = inr "Durable Objects are stateful.".
Proof. reflexivity. Qed.

(** A second [add] with the identifier of the first replaces it in place;
    the answer is appended. *)
Example second_add_replaces :
  messages (fst (handleMessage calm 1 raw_hello_again
                   (with_messages [hello; reply] three_connected)))
  = [hello_again; reply;
     {| id := "uuid-0"; user := "SE Onboarding Assistant"; role := Assistant;
        content := "Durable Objects are stateful." |}].
Proof. reflexivity. Qed.

(** * Further properties of the room *)

(** ** What a handler may change *)

Section Steady.

Variable p : Platform.

Lemma steady_ret {A : Type} (a : A) : steady (ret a).
Proof. intros w. apply evolves_refl. Qed.

Lemma steady_throw {A : Type} (e : Error) : steady (throw (A := A) e).
Proof. intros w. apply evolves_refl. Qed.

Lemma steady_lift {A : Type} (r : Error + A) : steady (lift r).
Proof. intros w. apply evolves_refl. Qed.

Lemma steady_bind {A B : Type} (t : Task A) (k : A -> Task B) :
  steady t -> (forall a, steady (k a)) -> steady (bind t k).
Proof.
  intros T K w. unfold bind.
  specialize (T w). destruct (t w) as [w' [e|a]]; simpl in *; [exact T|].
  apply evolves_trans with w'; [exact T|apply K].
Qed.

(** A continuation that reads the room it starts in. *)
Lemma steady_get_bind {B : Type} (k : World -> Task B) :
  (forall w, evolves w (fst (k w w))) -> steady (bind get k).
Proof.
  intros K w. unfold bind, get. apply K.
Qed.

Lemma steady_try_catch {A : Type} (t : Task A) (handler : Error -> Task A) :
  steady t -> (forall e, steady (handler e)) -> steady (try_catch t handler).
Proof.
  intros T H w. unfold try_catch.
  specialize (T w). destruct (t w) as [w' [e|a]]; simpl in *; [|exact T].
  apply evolves_trans with w'; [exact T|apply H].
Qed.

Lemma evolves_wire_app (l : list Effect) :
  forall w, evolves w (with_wire (wire w ++ l) w).
Proof.
  induction l as [|e l IH] using rev_ind; intros w.
  - rewrite app_nil_r, with_wire_same. apply evolves_refl.
  - apply evolves_trans with (with_wire (wire w ++ l) w); [apply IH|].
    rewrite app_assoc.
    apply (evolves_wire e (with_wire (wire w ++ l) w)).
Qed.

Lemma steady_send (ws : WebSocket) (data : Frame) : steady (send p ws data).
Proof.
  intros w. unfold send. destruct (send_raises p ws); simpl.
  - apply evolves_refl.
  - apply evolves_wire.
Qed.

Lemma steady_broadcastMessage (m : Message) (sender : option WebSocket) :
  steady (broadcastMessage p m sender).
Proof.
  intros w. rewrite broadcastMessage_spec. simpl. apply evolves_wire_app.
Qed.

Lemma steady_crypto_randomUUID : steady (crypto_randomUUID p).
Proof. intros w. apply evolves_drawn. Qed.

Lemma steady_save (m : ChatMessage) :
  steady (modify (fun w => with_messages (saveMessage m (messages w)) w)).
Proof. intros w. apply evolves_save. Qed.

(** In a room without a token, [initializeMCPSession] is steady. *)
Lemma initializeMCPSession_evolves (w : World) :
  JS.falsy (mcpSessionId w) = true ->
  evolves w (fst (initializeMCPSession p w)).
Proof.
  intros F. rewrite initializeMCPSession_spec.
  destruct (first_raise p (sessions w)); simpl.
  - apply evolves_wire_app.
  - set (sid := generateSessionId (filled p (drawn w) 32)).
    apply evolves_trans with (with_drawn (S (drawn w)) w); [apply evolves_drawn|].
    apply evolves_trans with (with_mcpSessionId (Some sid) (with_drawn (S (drawn w)) w)).
    + apply evolves_token; [exact F|].
      apply JSFacts.truthy_length.
      destruct (drawn_token p (drawn w)) as [L _]. fold sid in L. lia.
    + apply (evolves_wire_app _ (with_mcpSessionId (Some sid) (with_drawn (S (drawn w)) w))).
Qed.

Lemma steady_ensure_session :
  steady (bind get (fun w =>
            if JS.falsy (mcpSessionId w) then initializeMCPSession p else ret tt)).
Proof.
  apply steady_get_bind. intros w.
  destruct (JS.falsy (mcpSessionId w)) eqn:F.
  - now apply initializeMCPSession_evolves.
  - apply evolves_refl.
Qed.

Lemma steady_handleMCPRequest_try (userQuery : Value) (selectedModel : string) :
  steady (handleMCPRequest_try p userQuery selectedModel).
Proof.
  intros w. unfold handleMCPRequest_try.
  unfold bind at 1. unfold get at 1.
  destruct (JS.falsy (mcpSessionId w)) eqn:F.
  - unfold bind at 1.
    pose proof (initializeMCPSession_evolves w F) as I.
    destruct (initializeMCPSession p w) as [w' [e|[]]]; simpl in *; [exact I|].
    apply evolves_trans with w'; [exact I|].
    unfold bind at 1, get.
    destruct (JS.falsy (mcpSessionId w')); [apply evolves_refl|].
    repeat (apply steady_bind; [apply steady_lift|intros ?]).
    destruct (Nat.eqb a 202); [|apply steady_throw].
    repeat (apply steady_bind; [apply steady_lift|intros ?]).
    apply steady_lift.
  - unfold bind at 1, ret at 1. unfold bind at 1, get.
    destruct (JS.falsy (mcpSessionId w)); [apply evolves_refl|].
    repeat (apply steady_bind; [apply steady_lift|intros ?]).
    destruct (Nat.eqb a 202); [|apply steady_throw].
    repeat (apply steady_bind; [apply steady_lift|intros ?]).
    apply steady_lift.
Qed.

Lemma steady_handleMCPRequest (userQuery : Value) (selectedModel : string) :
  steady (handleMCPRequest p userQuery selectedModel).
Proof.
  apply steady_try_catch; [apply steady_handleMCPRequest_try|].
  intros e. apply steady_ret.
Qed.

Lemma steady_dispatch (m : ChatMessage) (x : Extras) : steady (dispatch p m x).
Proof.
  unfold dispatch. destruct (JS.flag (useMCP x)).
  - apply steady_bind; [apply steady_handleMCPRequest|]. intros a. apply steady_ret.
  - apply steady_get_bind. intros w.
    destruct (AI_run p _ _); apply evolves_refl.
Qed.

Lemma steady_handleMessage_receive (webSocket : WebSocket) (raw : string) :
  steady (handleMessage_receive p webSocket raw).
Proof.
  unfold handleMessage_receive.
  apply steady_bind; [apply steady_lift|]. intros [event| | |].
  - destruct event; try apply steady_ret.
    apply steady_bind; [apply steady_save|]. intros _.
    apply steady_bind; [apply steady_broadcastMessage|]. intros _.
    destruct (role m); try apply steady_ret.
    apply steady_bind; [apply steady_dispatch|]. intros a. apply steady_ret.
  - apply steady_throw.
  - apply steady_throw.
  - apply steady_ret.
Qed.

Lemma steady_handleMessage_resume (k : Awaited) : steady (handleMessage_resume p k).
Proof.
  unfold handleMessage_resume. apply steady_try_catch.
  - apply steady_bind; [apply steady_lift|]. intros c.
    apply steady_bind; [apply steady_crypto_randomUUID|]. intros i.
    apply steady_bind; [apply steady_save|]. intros _.
    apply steady_broadcastMessage.
  - intros e.
    apply steady_bind; [apply steady_crypto_randomUUID|]. intros i.
    apply steady_bind; [apply steady_save|]. intros _.
    apply steady_broadcastMessage.
Qed.

Lemma steady_handleMessage (webSocket : WebSocket) (raw : string) :
  steady (handleMessage p webSocket raw).
Proof.
  unfold handleMessage.
  apply steady_bind; [apply steady_handleMessage_receive|].
  intros [k|]; [apply steady_handleMessage_resume|apply steady_ret].
Qed.

End Steady.

(** What no such change does. *)

Lemma evolves_sessions (w w' : World) : evolves w w' -> sessions w' = sessions w.
Proof.
  induction 1; simpl; congruence.
Qed.

Lemma evolves_token_kept (w w' : World) :
  evolves w w' ->
  forall sid, mcpSessionId w = Some sid -> JS.truthy sid = true ->
              mcpSessionId w' = Some sid.
Proof.
  induction 1; intros s E T; simpl; auto.
  rewrite E in H. simpl in H. rewrite T in H. discriminate H.
Qed.

Lemma evolves_token_stays_set (w w' : World) :
  evolves w w' -> JS.falsy (mcpSessionId w) = false -> JS.falsy (mcpSessionId w') = false.
Proof.
  induction 1; intros F; simpl; auto.
  now rewrite H0.
Qed.

Lemma saveMessage_ids_incl (m : ChatMessage) (l : list ChatMessage) :
  incl (map id l) (map id (saveMessage m l)).
Proof.
  unfold saveMessage. destruct (find (same_id m) l).
  - rewrite replace_keeps_ids. apply incl_refl.
  - rewrite map_app. apply incl_appl, incl_refl.
Qed.

Lemma saveMessage_length (m : ChatMessage) (l : list ChatMessage) :
  length l <= length (saveMessage m l).
Proof.
  unfold saveMessage. destruct (find (same_id m) l).
  - now rewrite length_map.
  - rewrite length_app. lia.
Qed.

Lemma evolves_log (w w' : World) :
  evolves w w' ->
  incl (map id (messages w)) (map id (messages w')) /\
  length (messages w) <= length (messages w') /\
  (NoDup (map id (messages w)) -> NoDup (map id (messages w'))).
Proof.
  induction 1; simpl.
  - repeat split; [apply incl_refl|lia|auto].
  - destruct IHevolves1 as (I1 & L1 & N1), IHevolves2 as (I2 & L2 & N2).
    repeat split; [eapply incl_tran; eassumption|lia|auto].
  - repeat split; [apply incl_refl|lia|auto].
  - repeat split; [apply incl_refl|lia|auto].
  - repeat split; [apply saveMessage_ids_incl|apply saveMessage_length|].
    apply saveMessage_NoDup.
  - repeat split; [apply incl_refl|lia|auto].
Qed.

Lemma evolves_wire_grows (w w' : World) :
  evolves w w' -> exists news, wire w' = wire w ++ news.
Proof.
  induction 1; simpl.
  - exists []. now rewrite app_nil_r.
  - destruct IHevolves1 as [l1 E1], IHevolves2 as [l2 E2].
    exists (l1 ++ l2). now rewrite E2, E1, app_assoc.
  - now exists [e].
  - exists []. now rewrite app_nil_r.
  - exists []. now rewrite app_nil_r.
  - exists []. now rewrite app_nil_r.
Qed.

(** ** The registry *)

Lemma Map_set_keys (k : WebSocket) (v : string) (m : list (WebSocket * string)) :
  In k (map fst (Map_set k v m)) /\
  (forall k', In k' (map fst m) -> In k' (map fst (Map_set k v m))) /\
  (forall k', In k' (map fst (Map_set k v m)) -> k' = k \/ In k' (map fst m)).
Proof.
  induction m as [|[k0 v0] m IH]; simpl.
  - repeat split; auto. intros k' [E|[]]; auto.
  - destruct (Nat.eqb_spec k0 k) as [E|E]; simpl.
    + subst k0. repeat split; auto.
    + destruct IH as (I & K & J). repeat split; auto.
      * intros k' [F|F]; auto.
      * intros k' [F|F]; auto. destruct (J k' F); auto.
Qed.

Lemma Map_set_NoDup (k : WebSocket) (v : string) (m : list (WebSocket * string)) :
  NoDup (map fst m) -> NoDup (map fst (Map_set k v m)).
Proof.
  induction m as [|[k0 v0] m IH]; simpl; intros N.
  - repeat constructor. intros [].
  - inversion N as [|? ? X Y]; subst.
    destruct (Nat.eqb_spec k0 k) as [E|E]; simpl.
    + subst k0. now constructor.
    + constructor; [|now apply IH].
      intros F. apply (proj2 (proj2 (Map_set_keys k v m))) in F.
      destruct F as [F|F]; [now apply E|now apply X].
Qed.

Lemma Map_delete_keys (k : WebSocket) (m : list (WebSocket * string)) (k' : WebSocket) :
  In k' (map fst (Map_delete k m)) <-> k' <> k /\ In k' (map fst m).
Proof.
  unfold Map_delete. induction m as [|[k0 v0] m IH]; simpl; [tauto|].
  destruct (Nat.eqb_spec k0 k) as [E|E]; simpl.
  - rewrite IH. subst k0. split; [tauto|]. intros [N [F|F]]; [congruence|tauto].
  - rewrite IH. split.
    + intros [F|F]; [subst k'; tauto|tauto].
    + tauto.
Qed.

Lemma Map_delete_absent (k : WebSocket) (m : list (WebSocket * string)) :
  ~ In k (map fst m) -> Map_delete k m = m.
Proof.
  unfold Map_delete. induction m as [|[k0 v0] m IH]; simpl; intros N; [reflexivity|].
  destruct (Nat.eqb_spec k0 k) as [E|E]; simpl.
  - exfalso. apply N. now left.
  - rewrite IH; [reflexivity|]. intros F. apply N. now right.
Qed.

Lemma Map_delete_set (k : WebSocket) (v : string) (m : list (WebSocket * string)) :
  ~ In k (map fst m) -> Map_delete k (Map_set k v m) = m.
Proof.
  induction m as [|[k0 v0] m IH]; simpl; intros N.
  - unfold Map_delete. simpl. now rewrite Nat.eqb_refl.
  - destruct (Nat.eqb_spec k0 k) as [E|E].
    + exfalso. apply N. now left.
    + unfold Map_delete in *. simpl.
      destruct (Nat.eqb_spec k0 k) as [E'|_]; [contradiction|]. simpl.
      rewrite IH; [reflexivity|]. intros F. apply N. now right.
Qed.

Section Connections.

Variable p : Platform.

(** [handleSession], case by case. *)
Lemma handleSession_spec (webSocket : WebSocket) (w : World) :
  let token := randomUUID p (drawn w) in
  let w1 := with_sessions (Map_set webSocket token (sessions w))
              (with_drawn (S (drawn w)) w) in
  let w2 := with_wire (wire w ++ [Sent webSocket (JSON_stringify (all (messages w)))]) w1 in
  handleSession p webSocket w =
  match send_raises p webSocket with
  | Some e => (w1, inl e)
  | None =>
      if JS.falsy (mcpSessionId w) then
        match first_raise p (sessions w1) with
        | Some e => (fst (initializeMCPSession p w2), inl e)
        | None =>
            let w3 := fst (initializeMCPSession p w2) in
            (with_wire
               (wire w3 ++ [Sent webSocket
                              (JSON_stringify
                                 (session_ready (generateSessionId (filled p (S (drawn w)) 32))))])
               w3,
             inr tt)
        end
      else
        (with_wire
           (wire w2 ++ [Sent webSocket
                          (JSON_stringify
                             (session_ready (JS.or_else (mcpSessionId w) EmptyString)))])
           w2,
         inr tt)
  end.
Proof.
  intros token w1 w2. subst w2 w1 token.
  unfold handleSession, bind, crypto_randomUUID, modify, get. fields.
  unfold send at 1. destruct (send_raises p webSocket) as [e|] eqn:R; [reflexivity|].
  fields.
  destruct (JS.falsy (mcpSessionId w)) eqn:F.
  - rewrite initializeMCPSession_spec. fields.
    destruct (first_raise p (Map_set webSocket (randomUUID p (drawn w)) (sessions w)))
      as [e|] eqn:FR.
    + reflexivity.
    + fields.
      destruct (drawn_token p (S (drawn w))) as [L _].
      rewrite (JSFacts.truthy_length (generateSessionId (filled p (S (drawn w)) 32)));
        [|lia].
      unfold send. rewrite R. reflexivity.
  - unfold ret. fields.
    destruct (mcpSessionId w) as [sid|]; [|discriminate F].
    simpl in F. apply negb_false_iff in F. simpl. rewrite F.
    unfold send. rewrite R. reflexivity.
Qed.

End Connections.

Lemma initializeMCPSession_keeps (p : Platform) (w : World) :
  messages (fst (initializeMCPSession p w)) = messages w /\
  sessions (fst (initializeMCPSession p w)) = sessions w.
Proof.
  rewrite initializeMCPSession_spec.
  destruct (first_raise p (sessions w)); split; reflexivity.
Qed.

Lemma handleSession_sessions (p : Platform) (webSocket : WebSocket) (w : World) :
  sessions (fst (handleSession p webSocket w)) =
  Map_set webSocket (randomUUID p (drawn w)) (sessions w).
Proof.
  rewrite handleSession_spec.
  destruct (send_raises p webSocket); [reflexivity|].
  destruct (JS.falsy (mcpSessionId w)); [|reflexivity].
  destruct (first_raise p _); cbn [fst]; fields;
    now rewrite (proj2 (initializeMCPSession_keeps p _)).
Qed.

(** X1. However [handleMessage] ends (it may return, or throw on a payload
    that does not parse or on a raising send), and whatever the backend
    answered, the registry of connections is the one it started with: the
    handler neither registers nor removes a connection.  The same holds of
    each half of the handler, before and after the awaited call. *)
Theorem handleMessage_never_touches_registry
    (p : Platform) (webSocket : WebSocket) (raw : string) (k : Awaited) (w : World) :
  sessions (fst (handleMessage p webSocket raw w)) = sessions w /\
  sessions (fst (handleMessage_receive p webSocket raw w)) = sessions w /\
  sessions (fst (handleMessage_resume p k w)) = sessions w.
Proof.
  split; [|split]; apply evolves_sessions.
  - apply steady_handleMessage.
  - apply steady_handleMessage_receive.
  - apply steady_handleMessage_resume.
Qed.

(** X2. A session token, once the room has one, is never replaced or
    cleared: after [handleMessage] (either half), [handleMCPRequest] and
    [handleSession], however they end, the room has the token it had. *)
Theorem established_token_is_kept
    (p : Platform) (webSocket : WebSocket) (raw : string) (k : Awaited)
    (userQuery : Value) (selectedModel : string) (w : World) (sid : string) :
  mcpSessionId w = Some sid ->
  JS.truthy sid = true ->
  mcpSessionId (fst (handleMessage p webSocket raw w)) = Some sid /\
  mcpSessionId (fst (handleMessage_resume p k w)) = Some sid /\
  mcpSessionId (fst (handleMCPRequest p userQuery selectedModel w)) = Some sid /\
  mcpSessionId (fst (handleSession p webSocket w)) = Some sid.
Proof.
  intros E T. repeat split.
  - apply (evolves_token_kept w _ (steady_handleMessage p webSocket raw w) sid E T).
  - apply (evolves_token_kept w _ (steady_handleMessage_resume p k w) sid E T).
  - apply (evolves_token_kept w _ (steady_handleMCPRequest p userQuery selectedModel w)
             sid E T).
  - rewrite handleSession_spec.
    assert (F : JS.falsy (mcpSessionId w) = false) by (rewrite E; simpl; now rewrite T).
    rewrite F. destruct (send_raises p webSocket); exact E.
Qed.

Lemma established_token_is_kept_witness :
  mcpSessionId initialised = Some "030a11181f262d34" /\
  JS.truthy "030a11181f262d34" = true /\
  mcpSessionId (fst (handleMessage overloaded 1 raw_hello_search initialised))
    = Some "030a11181f262d34" /\
  mcpSessionId (fst (handleSession flaky 1 initialised)) = Some "030a11181f262d34".
Proof.
  destruct (established_token_is_kept overloaded 1 raw_hello_search
              {| parsed := hello; extras := no_extras; settled := inr "ok" |}
              "hello" default_model initialised "030a11181f262d34" eq_refl eq_refl)
    as (H & _).
  destruct (established_token_is_kept flaky 1 raw_hello_search
              {| parsed := hello; extras := no_extras; settled := inr "ok" |}
              "hello" default_model initialised "030a11181f262d34" eq_refl eq_refl)
    as (_ & _ & _ & S).
  repeat split; assumption.
Defined.

(** X3. No run of [handleMessage] removes a message or makes two messages
    share an identifier: however it ends, every identifier that was in the
    log is still in it, the log is no shorter, and if the identifiers were
    pairwise distinct they still are; the same holds of the handler resumed
    after the awaited call, in whatever room it resumes.  [handleSession]
    leaves the log as it is. *)
Theorem log_only_grows
    (p : Platform) (webSocket : WebSocket) (raw : string) (k : Awaited) (w : World) :
  (forall i, occurs i (messages w) ->
             occurs i (messages (fst (handleMessage p webSocket raw w))) /\
             occurs i (messages (fst (handleMessage_resume p k w)))) /\
  length (messages w) <= length (messages (fst (handleMessage p webSocket raw w))) /\
  (NoDup (map id (messages w)) ->
   NoDup (map id (messages (fst (handleMessage p webSocket raw w)))) /\
   NoDup (map id (messages (fst (handleMessage_resume p k w))))) /\
  messages (fst (handleSession p webSocket w)) = messages w /\
  length (messages w) <= length (messages (fst (handleMessage_resume p k w))).
Proof.
  destruct (evolves_log w _ (steady_handleMessage p webSocket raw w)) as (I & L & N).
  destruct (evolves_log w _ (steady_handleMessage_resume p k w)) as (I' & L' & N').
  repeat split; auto.
  1: now apply I.
  1: now apply I'.
  rewrite handleSession_spec.
  destruct (send_raises p webSocket); [reflexivity|].
  destruct (JS.falsy (mcpSessionId w)); [|reflexivity].
  destruct (first_raise p _); cbn [fst]; fields;
    now rewrite (proj1 (initializeMCPSession_keeps p _)).
Qed.

Lemma log_only_grows_witness :
  occurs "m2" [hello; reply] /\
  occurs "m2" (messages (fst (handleMessage busy 1 raw_hello_again
                                (with_messages [hello; reply] three_connected)))) /\
  NoDup (map id [hello; reply]) /\
  NoDup (map id (messages (fst (handleMessage busy 1 raw_hello_again
                                  (with_messages [hello; reply] three_connected))))).
Proof.
  assert (O : occurs "m2" (messages (with_messages [hello; reply] three_connected)))
    by (unfold occurs; simpl; auto).
  assert (N : NoDup (map id (messages (with_messages [hello; reply] three_connected)))).
  { simpl. repeat constructor; simpl; [intros [E|[]]; discriminate E|intros []]. }
  destruct (log_only_grows busy 1 raw_hello_again
              {| parsed := hello; extras := no_extras; settled := inr "ok" |}
              (with_messages [hello; reply] three_connected)) as (I & _ & K & _).
  split; [exact O|]. split; [exact (proj1 (I _ O))|].
  split; [exact N|exact (proj1 (K N))].
Defined.

(** X4. [handleSession] registers the connection first: however the call
    ends (the sends to it or the session broadcast may raise), the
    connection is in the registry afterwards with the token drawn for it,
    every connection registered before still is, and a registry that held
    each connection once still does. *)
Theorem handleSession_registers (p : Platform) (webSocket : WebSocket) (w : World) :
  sessions (fst (handleSession p webSocket w)) =
    Map_set webSocket (randomUUID p (drawn w)) (sessions w) /\
  In webSocket (map fst (sessions (fst (handleSession p webSocket w)))) /\
  (forall ws, In ws (map fst (sessions w)) ->
              In ws (map fst (sessions (fst (handleSession p webSocket w))))) /\
  (NoDup (map fst (sessions w)) ->
   NoDup (map fst (sessions (fst (handleSession p webSocket w))))).
Proof.
  rewrite handleSession_sessions.
  destruct (Map_set_keys webSocket (randomUUID p (drawn w)) (sessions w)) as (I & K & _).
  repeat split; auto. apply Map_set_NoDup.
Qed.

Lemma handleSession_registers_witness :
  NoDup (map fst (sessions two_connected)) /\
  sessions (fst (handleSession flaky 4 two_connected)) =
    [(1, "t1"); (2, "t2"); (4, "uuid-0")] /\
  snd (handleSession flaky 4 two_connected) = inl down /\
  NoDup (map fst (sessions (fst (handleSession flaky 4 two_connected)))).
Proof.
  assert (N : NoDup (map fst (sessions two_connected))).
  { simpl. repeat constructor; simpl; [intros [E|[]]; discriminate E|intros []]. }
  destruct (handleSession_registers flaky 4 two_connected) as (S & _ & _ & K).
  split; [exact N|]. split; [exact S|]. split; [reflexivity|exact (K N)].
Defined.

(** X5. The [close] and [error] listeners remove the connection and nothing
    else: afterwards it is not registered, every other connection is
    registered exactly if it was, and log, token and wire are untouched.
    The listeners are registered at the end of [handleSession], so they
    exist only when it returned: a connection that was not registered, for
    which [handleSession] returned, and which then closes, leaves the
    registry as it found it. *)
Theorem onClose_unregisters (p : Platform) (webSocket : WebSocket) (w : World) :
  ~ In webSocket (map fst (sessions (fst (onClose webSocket w)))) /\
  (forall ws, ws <> webSocket ->
              (In ws (map fst (sessions (fst (onClose webSocket w)))) <->
               In ws (map fst (sessions w)))) /\
  messages (fst (onClose webSocket w)) = messages w /\
  mcpSessionId (fst (onClose webSocket w)) = mcpSessionId w /\
  wire (fst (onClose webSocket w)) = wire w /\
  snd (onClose webSocket w) = inr tt /\
  (~ In webSocket (map fst (sessions w)) ->
   snd (handleSession p webSocket w) = inr tt ->
   sessions (fst (onClose webSocket (fst (handleSession p webSocket w)))) = sessions w).
Proof.
  unfold onClose, modify. simpl.
  split; [|split].
  - intros F. apply Map_delete_keys in F. tauto.
  - intros ws N. rewrite Map_delete_keys. tauto.
  - repeat split.
    intros N _. rewrite handleSession_sessions.
    now apply Map_delete_set.
Qed.

Lemma onClose_unregisters_witness :
  ~ In 4 (map fst (sessions two_connected)) /\
  snd (handleSession calm 4 two_connected) = inr tt /\
  sessions (fst (onClose 4 (fst (handleSession calm 4 two_connected))))
    = sessions two_connected.
Proof.
  assert (N : ~ In 4 (map fst (sessions two_connected))).
  { simpl. intros [E|[E|[]]]; discriminate E. }
  split; [exact N|]. split; [reflexivity|].
  exact (proj2 (proj2 (proj2 (proj2 (proj2 (proj2
           (onClose_unregisters calm 4 two_connected)))))) N eq_refl).
Defined.

(** X6. A connection that joins a room which already has its token is sent
    the log as it stands and then [session_ready] with that token, and that
    is all: nothing is handed to the broadcast, no other connection receives
    anything, no random bytes are drawn for a token, and log and token are
    as they were.  The state of the connection is not consulted. *)
Theorem handleSession_joins_initialised_room
    (p : Platform) (webSocket : WebSocket) (w : World) (sid : string) :
  mcpSessionId w = Some sid ->
  JS.truthy sid = true ->
  send_raises p webSocket = None ->
  let w' := fst (handleSession p webSocket w) in
  snd (handleSession p webSocket w) = inr tt /\
  wire w' = wire w ++ [Sent webSocket (JSON_stringify (all (messages w)));
                       Sent webSocket (JSON_stringify (session_ready sid))] /\
  (forall ws, ws <> webSocket -> received ws (wire w') = received ws (wire w)) /\
  emitted (wire w') = emitted (wire w) /\
  messages w' = messages w /\
  mcpSessionId w' = Some sid /\
  drawn w' = S (drawn w).
Proof.
  intros E T R w'. subst w'. rewrite handleSession_spec, R.
  assert (F : JS.falsy (mcpSessionId w) = false) by (rewrite E; simpl; now rewrite T).
  rewrite F, E. simpl JS.or_else. rewrite T. cbn [fst snd]. fields.
  rewrite <- app_assoc. simpl app.
  repeat split; try assumption.
  - intros ws N. rewrite received_app. simpl.
    destruct (Nat.eqb_spec webSocket ws) as [X|_]; [congruence|].
    now rewrite app_nil_r.
  - rewrite emitted_app. simpl. now rewrite app_nil_r.
Qed.

Lemma handleSession_joins_initialised_room_witness :
  mcpSessionId initialised = Some "030a11181f262d34" /\
  JS.truthy "030a11181f262d34" = true /\
  send_raises calm 3 = None /\
  wire (fst (handleSession calm 3 initialised)) =
    [Sent 3 (JSON_stringify (all []));
     Sent 3 (JSON_stringify (session_ready "030a11181f262d34"))].
Proof.
  split; [reflexivity|]. split; [reflexivity|]. split; [reflexivity|].
  exact (proj1 (proj2 (handleSession_joins_initialised_room calm 3 initialised
                         "030a11181f262d34" eq_refl eq_refl eq_refl))).
Defined.

(** ** The handler: the paths that answer *)

Section Answers.

Variable p : Platform.

(** The handler resumed with the text the backend returned. *)
Lemma handleMessage_resume_success (k : Awaited) (text : string) (w : World) :
  settled k = inr text ->
  accepting p (sessions w) = true ->
  let aiMessage :=
    {| id := randomUUID p (drawn w);
       user := if JS.flag (useMCP (extras k)) then "CF Helper"
               else "SE Onboarding Assistant";
       role := Assistant;
       content := text |} in
  handleMessage_resume p k w =
  (with_wire (wire w ++ Broadcast (add aiMessage no_extras)
                :: deliveries (JSON_stringify (add aiMessage no_extras))
                     (open_sockets p (sessions w)))
     (with_messages (saveMessage aiMessage (messages w))
        (with_drawn (S (drawn w)) w)),
   inr tt).
Proof.
  intros E A aiMessage.
  unfold handleMessage_resume, try_catch, bind, lift. rewrite E.
  unfold crypto_randomUUID, modify.
  rewrite broadcastMessage_accepting; [reflexivity|exact A].
Qed.

(** Where the [try] block of the responder leaves the room. *)
Lemma handleMCPRequest_try_world (userQuery : Value) (selectedModel : string) (w : World) :
  fst (handleMCPRequest_try p userQuery selectedModel w) =
  if JS.falsy (mcpSessionId w) then fst (initializeMCPSession p w) else w.
Proof.
  unfold handleMCPRequest_try.
  unfold bind at 1. unfold get at 1.
  destruct (JS.falsy (mcpSessionId w)) eqn:F.
  - unfold bind at 1.
    destruct (initializeMCPSession p w) as [w' [e|[]]]; [reflexivity|].
    unfold bind at 1, get. cbn [fst].
    destruct (JS.falsy (mcpSessionId w')); [reflexivity|].
    unfold bind, lift, throw.
    destruct (sse_message p _ _) as [e|status]; [reflexivity|].
    destruct (Nat.eqb status 202); [|reflexivity].
    destruct (responsePromise p _) as [e|d]; [reflexivity|].
    destruct (extract_results d); [reflexivity|].
    destruct (synthesize p _ _ _); reflexivity.
  - unfold bind at 1, ret at 1. unfold bind at 1, get. rewrite F.
    unfold bind, lift, throw.
    destruct (sse_message p _ _) as [e|status]; [reflexivity|].
    destruct (Nat.eqb status 202); [|reflexivity].
    destruct (responsePromise p _) as [e|d]; [reflexivity|].
    destruct (extract_results d); [reflexivity|].
    destruct (synthesize p _ _ _); reflexivity.
Qed.

Lemma handleMCPRequest_world (userQuery : Value) (selectedModel : string) (w : World) :
  fst (handleMCPRequest p userQuery selectedModel w) =
  if JS.falsy (mcpSessionId w) then fst (initializeMCPSession p w) else w.
Proof.
  rewrite <- handleMCPRequest_try_world with (userQuery := userQuery)
                                             (selectedModel := selectedModel).
  unfold handleMCPRequest, try_catch.
  destruct (handleMCPRequest_try p userQuery selectedModel w) as [w' [e|s]]; reflexivity.
Qed.

Lemma handleMCPRequest_returns (userQuery : Value) (selectedModel : string) (w : World) :
  exists text, snd (handleMCPRequest p userQuery selectedModel w) = inr text.
Proof.
  unfold handleMCPRequest, try_catch.
  destruct (handleMCPRequest_try p userQuery selectedModel w) as [w' [e|s]];
    eexists; reflexivity.
Qed.

Lemma filter_length (A : Type) (f : A -> bool) (l : list A) :
  length (filter f l) <= length l.
Proof.
  induction l as [|a l IH]; simpl; [lia|].
  destruct (f a); simpl; lia.
Qed.

Lemma filter_all (A : Type) (f : A -> bool) (l : list A) :
  (forall a, In a l -> f a = true) <-> length (filter f l) = length l.
Proof.
  induction l as [|a l IH]; simpl.
  - split; [reflexivity|intros _ a []].
  - destruct (f a) eqn:F; simpl.
    + split.
      * intros H. f_equal. apply IH. intros b I. apply H. now right.
      * intros H b [E|I]; [now subst b|]. apply (proj2 IH); [lia|exact I].
    + split.
      * intros H. specialize (H a (or_introl eq_refl)). congruence.
      * intros H. pose proof (filter_length A f l). lia.
Qed.

Lemma filter_all_id (A : Type) (f : A -> bool) (l : list A) :
  (forall a, In a l -> f a = true) -> filter f l = l.
Proof.
  induction l as [|a l IH]; simpl; intros H; [reflexivity|].
  rewrite (H a (or_introl eq_refl)). f_equal. apply IH. intros b I. apply H. now right.
Qed.

Lemma conversationHistory_app (l l' : list ChatMessage) :
  conversationHistory (l ++ l') = conversationHistory l ++ conversationHistory l'.
Proof.
  unfold conversationHistory. now rewrite filter_app, map_app.
Qed.

Lemma is_chat_role_spec (r : Role) : is_chat_role r = true <-> r <> OtherRole.
Proof.
  destruct r; simpl; split; congruence.
Qed.

End Answers.

(** ** The handler: payloads it does not check, and backends that throw *)

Section Unchecked.

Variable p : Platform.

Lemma saveMessage_holds (m : ChatMessage) (l : list ChatMessage) :
  In m (saveMessage m l).
Proof.
  unfold saveMessage. destruct (find (same_id m) l) as [old|] eqn:F.
  - apply find_some in F. destruct F as [I S].
    apply in_map_iff. exists old. now rewrite S.
  - apply in_or_app. right. now left.
Qed.

Lemma dispatch_keeps_log (m : ChatMessage) (x : Extras) (w : World) :
  messages (fst (dispatch p m x w)) = messages w.
Proof.
  unfold dispatch. destruct (JS.flag (useMCP x)).
  - unfold bind.
    pose proof (handleMCPRequest_world p (content m) (JS.or_else (model x) default_model) w)
      as W.
    destruct (handleMCPRequest p _ _ w) as [w' [e|s]]; cbn [fst] in *; subst w';
      (destruct (JS.falsy (mcpSessionId w)); [|reflexivity]);
      apply (proj1 (initializeMCPSession_keeps p w)).
  - unfold bind, get. destruct (AI_run p _ _); reflexivity.
Qed.



(** C2, as the code has it.  The handler checks no payload.  When
    [JSON.parse] throws on it, or returns [null], the handler has changed
    nothing and sent nothing, but the error is not caught: it is what the
    handler ends with.  A value whose type is not "add" is dropped: the
    handler returns and the world (log, registry, token, wire) is as it
    was.  A value whose type is "add" is taken for an [add] whatever else
    it holds or lacks: when its content is neither a string nor [null] nor
    missing, the preview of the content throws before anything is changed;
    otherwise the message is upserted into the log as it was found (it is
    in the log when the handler awaits or returns) and handed to the
    broadcast.  In every case the registry is as it was. *)
Theorem handleMessage_parse_error
    (webSocket : WebSocket) (raw : string) (w : World) :
  (forall e,
      JSON_parse p raw = inl e ->
      handleMessage_receive p webSocket raw w = (w, inl e) /\
      handleMessage p webSocket raw w = (w, inl e)) /\
  (JSON_parse p raw = inr Null ->
   handleMessage_receive p webSocket raw w = (w, inl TypeError_null) /\
   handleMessage p webSocket raw w = (w, inl TypeError_null)) /\
  (JSON_parse p raw = inr Other ->
   handleMessage_receive p webSocket raw w = (w, inr None) /\
   handleMessage p webSocket raw w = (w, inr tt)) /\
  (JSON_parse p raw = inr Unreadable ->
   handleMessage_receive p webSocket raw w = (w, inl TypeError_content) /\
   handleMessage p webSocket raw w = (w, inl TypeError_content)) /\
  (forall m x,
      JSON_parse p raw = inr (Event (add m x)) ->
      let w1 := fst (handleMessage_receive p webSocket raw w) in
      messages w1 = saveMessage m (messages w) /\
      In m (messages w1) /\
      exists news,
        wire w1 =
        wire w
        ++ Broadcast (add m x)
             :: deliveries (JSON_stringify (add m x)) (reached p (sessions w))
        ++ news) /\
  sessions (fst (handleMessage p webSocket raw w)) = sessions w.
Proof.
  split; [|split; [|split; [|split; [|split]]]].
  - intros e E. unfold handleMessage, handleMessage_receive, bind, lift.
    rewrite E. split; reflexivity.
  - intros E. unfold handleMessage, handleMessage_receive, bind, lift.
    rewrite E. split; reflexivity.
  - intros E. unfold handleMessage, handleMessage_receive, bind, lift.
    rewrite E. split; reflexivity.
  - intros E. unfold handleMessage, handleMessage_receive, bind, lift.
    rewrite E. split; reflexivity.
  - intros m x E w1.
    assert (X : exists news,
               messages w1 = saveMessage m (messages w) /\
               wire w1 =
               wire w
               ++ Broadcast (add m x)
                    :: deliveries (JSON_stringify (add m x)) (reached p (sessions w))
               ++ news).
    { subst w1. unfold handleMessage_receive, bind, lift. rewrite E.
      unfold modify. rewrite broadcastMessage_spec. fields.
      set (w0 := with_wire _ _).
      destruct (first_raise p (sessions w)) as [e|].
      - exists []. cbn [fst]. subst w0. fields. now rewrite app_nil_r.
      - destruct (role m).
        + pose proof (dispatch_keeps_log m x w0) as K.
          destruct (evolves_wire_grows w0 _ (steady_dispatch p m x w0)) as [news G].
          destruct (dispatch p m x w0) as [w2 [e|a]]; unfold ret; cbn [fst] in *;
            exists news; rewrite K, G; subst w0; fields;
            now rewrite <- app_assoc.
        + exists []. unfold ret. cbn [fst]. subst w0. fields. now rewrite app_nil_r.
        + exists []. unfold ret. cbn [fst]. subst w0. fields. now rewrite app_nil_r. }
    destruct X as (news & M & W).
    split; [exact M|]. split; [rewrite M; apply saveMessage_holds|].
    now exists news.
  - apply evolves_sessions, steady_handleMessage.
Qed.


End Unchecked.

Lemma handleMessage_parse_error_witness :
  JSON_parse calm raw_broken
    = inl {| message := "Unexpected token o in JSON at position 1" |} /\
  handleMessage calm 1 raw_broken three_connected =
  (three_connected, inl {| message := "Unexpected token o in JSON at position 1" |}) /\
  JSON_parse calm raw_null = inr Null /\
  handleMessage calm 1 raw_null three_connected = (three_connected, inl TypeError_null) /\
  JSON_parse calm raw_bogus = inr Other /\
  handleMessage calm 1 raw_bogus three_connected = (three_connected, inr tt) /\
  JSON_parse calm raw_counted = inr Unreadable /\
  handleMessage calm 1 raw_counted three_connected =
  (three_connected, inl TypeError_content) /\
  JSON_parse calm raw_bare = inr (Event (add bare no_extras)) /\
  messages (fst (handleMessage_receive calm 1 raw_bare three_connected)) = [bare].
Proof.
  destruct (handleMessage_parse_error calm 1 raw_broken three_connected) as (B & _).
  destruct (handleMessage_parse_error calm 1 raw_null three_connected) as (_ & N & _).
  destruct (handleMessage_parse_error calm 1 raw_bogus three_connected) as (_ & _ & O & _).
  destruct (handleMessage_parse_error calm 1 raw_counted three_connected)
    as (_ & _ & _ & U & _).
  destruct (handleMessage_parse_error calm 1 raw_bare three_connected)
    as (_ & _ & _ & _ & K & _).
  split; [reflexivity|]. split; [exact (proj2 (B _ eq_refl))|].
  split; [reflexivity|]. split; [exact (proj2 (N eq_refl))|].
  split; [reflexivity|]. split; [exact (proj2 (O eq_refl))|].
  split; [reflexivity|]. split; [exact (proj2 (U eq_refl))|].
  split; [reflexivity|]. exact (proj1 (K bare no_extras eq_refl)).
Defined.

(** C2 as stated fails, in two ways.  On a payload that is not JSON the
    handler does not drop the event and return: it ends with the parse
    error.  And a payload that is tagged [add] but has none of the fields
    of a message, so is no event of [src/shared.ts], is not dropped either:
    it is put in the log and delivered to the open connections. *)
Lemma malformed_payload_not_dropped :
  JSON_parse calm raw_broken
    = inl {| message := "Unexpected token o in JSON at position 1" |} /\
  snd (handleMessage calm 1 raw_broken three_connected) <> inr tt /\
  JSON_parse calm raw_bare = inr (Event (add bare no_extras)) /\
  messages (fst (handleMessage calm 1 raw_bare three_connected)) = [bare] /\
  messages (fst (handleMessage calm 1 raw_bare three_connected))
    <> messages three_connected /\
  received 2 (wire (fst (handleMessage calm 1 raw_bare three_connected)))
    = [JSON_stringify (add bare no_extras)].
Proof.
  split; [reflexivity|]. split; [vm_compute; discriminate|].
  split; [reflexivity|]. split; [reflexivity|].
  split; [vm_compute; discriminate|reflexivity].
Qed.



(** X7. For a user-role [add] that does not ask for the documentation
    search, when the inference call returns and no send raises, the handler
    upserts the event and then an assistant message authored
    "SE Onboarding Assistant" whose text is the response, or the stock
    phrase when the response is missing or empty, and broadcasts both to
    every open connection; the text of the answer is never empty. *)
Theorem handleMessage_inference_answer
    (p : Platform) (webSocket : WebSocket) (raw : string) (w : World)
    (m : ChatMessage) (x : Extras) (r : AiResponse) :
  JSON_parse p raw = inr (Event (add m x)) ->
  role m = User ->
  JS.flag (useMCP x) = false ->
  AI_run p (JS.or_else (model x) default_model)
         (conversationHistory (saveMessage m (messages w))) = inr r ->
  accepting p (sessions w) = true ->
  let aiMessage :=
    {| id := randomUUID p (drawn w);
       user := "SE Onboarding Assistant";
       role := Assistant;
       content := JS.or_else (response r) "I'm here to help with your questions!" |} in
  let w' := fst (handleMessage p webSocket raw w) in
  snd (handleMessage p webSocket raw w) = inr tt /\
  messages w' = saveMessage aiMessage (saveMessage m (messages w)) /\
  wire w' =
    wire w
    ++ (Broadcast (add m x)
          :: deliveries (JSON_stringify (add m x)) (open_sockets p (sessions w)))
    ++ (Broadcast (add aiMessage no_extras)
          :: deliveries (JSON_stringify (add aiMessage no_extras))
               (open_sockets p (sessions w))) /\
  JS.truthy (JS.template (content aiMessage)) = true.
Proof.
  intros E R F T A aiMessage w'.
  assert (X : handleMessage p webSocket raw w =
              handleMessage_resume p
                {| parsed := m; extras := x;
                   settled := inr (JS.or_else (response r)
                                     "I'm here to help with your questions!") |}
                (with_wire (wire w ++ Broadcast (add m x)
                              :: deliveries (JSON_stringify (add m x))
                                   (open_sockets p (sessions w)))
                   (with_messages (saveMessage m (messages w)) w))).
  { unfold handleMessage, handleMessage_receive, bind, lift. rewrite E.
    unfold modify at 1.
    rewrite broadcastMessage_accepting; [|exact A].
    rewrite R. unfold dispatch. rewrite F.
    unfold bind, get. fields. rewrite T. reflexivity. }
  subst w'. rewrite X.
  erewrite handleMessage_resume_success; [|reflexivity|exact A].
  cbn [fst snd extras]. rewrite F. fields. rewrite <- app_assoc.
  repeat split.
  simpl content. destruct (response r) as [s|]; [|reflexivity].
  simpl. destruct (JS.truthy s) eqn:Ts; [exact Ts|reflexivity].
Qed.

Lemma handleMessage_inference_answer_witness :
  JSON_parse calm raw_hello = inr (Event (add hello no_extras)) /\
  role hello = User /\
  JS.flag (useMCP no_extras) = false /\
  AI_run calm (JS.or_else (model no_extras) default_model)
         (conversationHistory (saveMessage hello (messages three_connected)))
    = inr {| response := Some "Durable Objects are stateful." |} /\
  accepting calm (sessions three_connected) = true /\
  messages (fst (handleMessage calm 1 raw_hello three_connected)) =
    [hello;
     {| id := "uuid-0"; user := "SE Onboarding Assistant"; role := Assistant;
        content := "Durable Objects are stateful." |}].
Proof.
  split; [reflexivity|]. split; [reflexivity|]. split; [reflexivity|].
  split; [reflexivity|]. split; [reflexivity|].
  exact (proj1 (proj2 (handleMessage_inference_answer calm 1 raw_hello three_connected
                         hello no_extras _ eq_refl eq_refl eq_refl eq_refl eq_refl))).
Defined.

(** X8. An [add] whose role is not user (assistant, or anything else a
    payload may hold there) is upserted and broadcast and that is all: no
    backend is called, nothing is awaited, no identifier is drawn and no
    answer is made. *)
Theorem handleMessage_assistant_add
    (p : Platform) (webSocket : WebSocket) (raw : string) (w : World)
    (m : ChatMessage) (x : Extras) :
  JSON_parse p raw = inr (Event (add m x)) ->
  role m <> User ->
  accepting p (sessions w) = true ->
  let w' := with_wire (wire w ++ Broadcast (add m x)
                         :: deliveries (JSON_stringify (add m x))
                              (open_sockets p (sessions w)))
              (with_messages (saveMessage m (messages w)) w) in
  handleMessage_receive p webSocket raw w = (w', inr None) /\
  handleMessage p webSocket raw w = (w', inr tt) /\
  drawn w' = drawn w /\
  emitted (wire w') = emitted (wire w) ++ [add m x].
Proof.
  intros E R A w'.
  assert (X : handleMessage_receive p webSocket raw w = (w', inr None)).
  { unfold handleMessage_receive, bind, lift. rewrite E.
    unfold modify at 1.
    rewrite broadcastMessage_accepting; [|exact A].
    destruct (role m); [contradiction|reflexivity|reflexivity]. }
  split; [exact X|]. split.
  - unfold handleMessage, bind. rewrite X. reflexivity.
  - split; [reflexivity|]. subst w'. fields.
    rewrite emitted_app. simpl. now rewrite emitted_deliveries.
Qed.

Lemma handleMessage_assistant_add_witness :
  JSON_parse noting raw_note = inr (Event (add note no_extras)) /\
  role note <> User /\
  accepting noting (sessions two_connected) = true /\
  handleMessage noting 1 raw_note two_connected =
  (with_wire [Broadcast (add note no_extras);
              Sent 1 (JSON_stringify (add note no_extras));
              Sent 2 (JSON_stringify (add note no_extras))]
     (with_messages [note] two_connected),
   inr tt) /\
  JSON_parse noting raw_system = inr (Event (add instruction no_extras)) /\
  role instruction <> User /\
  messages (fst (handleMessage noting 1 raw_system two_connected)) = [instruction].
Proof.
  assert (N : role note <> User) by discriminate.
  assert (O : role instruction <> User) by discriminate.
  split; [reflexivity|]. split; [exact N|]. split; [reflexivity|].
  split.
  { exact (proj1 (proj2 (handleMessage_assistant_add noting 1 raw_note two_connected
                           note no_extras eq_refl N eq_refl))). }
  split; [reflexivity|]. split; [exact O|].
  exact (f_equal (fun r => messages (fst r))
           (proj1 (proj2 (handleMessage_assistant_add noting 1 raw_system two_connected
                            instruction no_extras eq_refl O eq_refl)))).
Defined.

(** X9. The history handed to the inference backend is made of the logged
    messages whose role is user or assistant, one turn each, in log order,
    with role and text as they are; a message of any other role stays in
    the log but is left out of the history.  So the history is never longer
    than the log, and it is the whole log, turn for message, exactly when
    the log holds no message of another role.  After an [add] with a fresh
    identifier the history is the history before followed by the turn of
    the new message, and just the history before when the new message has
    another role. *)
Theorem conversationHistory_leaves_out_other_roles
    (older newer : list ChatMessage) (m : ChatMessage) :
  let turn := fun msg => {| speaker := Chat (role msg); said := content msg |} in
  let turns_of := fun msg => match role msg with OtherRole => [] | _ => [turn msg] end in
  conversationHistory (older ++ m :: newer) =
    conversationHistory older ++ turns_of m ++ conversationHistory newer /\
  length (conversationHistory older) <= length older /\
  (length (conversationHistory older) = length older <->
   forall msg, In msg older -> role msg <> OtherRole) /\
  ((forall msg, In msg older -> role msg <> OtherRole) ->
   forall k msg,
     nth_error older k = Some msg ->
     nth_error (conversationHistory older) k = Some (turn msg)) /\
  (~ occurs (id m) older ->
   conversationHistory (saveMessage m older) = conversationHistory older ++ turns_of m).
Proof.
  intros turn turns_of.
  assert (One : conversationHistory [m] = turns_of m).
  { unfold conversationHistory, turns_of, turn. simpl.
    destruct (role m) eqn:R; simpl; rewrite ?R; reflexivity. }
  split; [|split; [|split; [|split]]].
  - change (m :: newer) with ([m] ++ newer).
    now rewrite !conversationHistory_app, One.
  - unfold conversationHistory. rewrite length_map. apply filter_length.
  - unfold conversationHistory. rewrite length_map.
    rewrite <- filter_all. split.
    + intros H msg I. apply is_chat_role_spec. now apply H.
    + intros H msg I. apply is_chat_role_spec. now apply H.
  - intros H k msg E. unfold conversationHistory.
    rewrite filter_all_id.
    + now rewrite nth_error_map, E.
    + intros a I. apply is_chat_role_spec. now apply H.
  - intros F. rewrite (saveMessage_fresh m older F).
    now rewrite conversationHistory_app, One.
Qed.

Lemma conversationHistory_leaves_out_other_roles_witness :
  ~ occurs (id instruction) [hello; note] /\
  conversationHistory (saveMessage instruction [hello; note]) =
    [ {| speaker := Chat User; said := "hello" |};
      {| speaker := Chat Assistant; said := "noted" |} ] /\
  saveMessage instruction [hello; note] = [hello; note; instruction] /\
  ~ occurs (id reply) [hello; instruction] /\
  conversationHistory (saveMessage reply [hello; instruction]) =
    [ {| speaker := Chat User; said := "hello" |};
      {| speaker := Chat User; said := "hi" |} ].
Proof.
  assert (F : ~ occurs (id instruction) [hello; note]).
  { unfold occurs. simpl. intros [E|[E|[]]]; discriminate E. }
  assert (G : ~ occurs (id reply) [hello; instruction]).
  { unfold occurs. simpl. intros [E|[E|[]]]; discriminate E. }
  destruct (conversationHistory_leaves_out_other_roles [hello; note] [] instruction)
    as (_ & _ & _ & _ & S).
  destruct (conversationHistory_leaves_out_other_roles [hello; instruction] [] reply)
    as (_ & _ & _ & _ & T).
  split; [exact F|]. split; [exact (S F)|]. split; [reflexivity|].
  split; [exact G|exact (T G)].
Defined.

(** X10. For a user-role [add] that asks for the documentation search, when
    no send raises, the answer broadcast is authored "CF Helper" and its
    text is whatever string the responder returned, be it the synthesis or
    the explanation of a failure; the handler returns normally, and the log
    holds the event and then that answer. *)
Theorem handleMessage_search_answer
    (p : Platform) (webSocket : WebSocket) (raw : string) (w : World)
    (m : ChatMessage) (x : Extras) :
  JSON_parse p raw = inr (Event (add m x)) ->
  role m = User ->
  JS.flag (useMCP x) = true ->
  accepting p (sessions w) = true ->
  let w0 := with_wire (wire w ++ Broadcast (add m x)
                         :: deliveries (JSON_stringify (add m x))
                              (open_sockets p (sessions w)))
              (with_messages (saveMessage m (messages w)) w) in
  let asked := handleMCPRequest p (content m) (JS.or_else (model x) default_model) w0 in
  exists text,
    snd asked = inr text /\
    let aiMessage :=
      {| id := randomUUID p (drawn (fst asked));
         user := "CF Helper";
         role := Assistant;
         content := text |} in
    snd (handleMessage p webSocket raw w) = inr tt /\
    messages (fst (handleMessage p webSocket raw w)) =
      saveMessage aiMessage (saveMessage m (messages w)) /\
    wire (fst (handleMessage p webSocket raw w)) =
      wire (fst asked)
      ++ Broadcast (add aiMessage no_extras)
           :: deliveries (JSON_stringify (add aiMessage no_extras))
                (open_sockets p (sessions w)).
Proof.
  intros E R F A w0 asked.
  destruct (handleMCPRequest_returns p (content m) (JS.or_else (model x) default_model) w0)
    as [text T].
  fold asked in T. exists text. split; [exact T|].
  assert (S1 : sessions (fst asked) = sessions w).
  { subst asked. rewrite (evolves_sessions w0 _ (steady_handleMCPRequest p _ _ w0)).
    reflexivity. }
  assert (M1 : messages (fst asked) = saveMessage m (messages w)).
  { subst asked. rewrite handleMCPRequest_world.
    destruct (JS.falsy (mcpSessionId w0)); [|reflexivity].
    now rewrite (proj1 (initializeMCPSession_keeps p w0)). }
  assert (X : handleMessage p webSocket raw w =
              match asked with
              | (w1, inr s) =>
                  handleMessage_resume p {| parsed := m; extras := x; settled := inr s |} w1
              | (w1, inl e) => (w1, inl e)
              end).
  { unfold handleMessage, handleMessage_receive, bind, lift. rewrite E.
    unfold modify at 1.
    rewrite broadcastMessage_accepting; [|exact A].
    rewrite R. unfold dispatch. rewrite F.
    unfold bind. subst asked w0. fields.
    destruct (handleMCPRequest p (content m) _ _) as [w1 [e|s]]; reflexivity. }
  rewrite X. clear X. clearbody asked.
  destruct asked as [w1 [e|s]]; simpl in T; [discriminate T|].
  inversion T; subst s. cbn [fst snd] in *.
  erewrite handleMessage_resume_success; [|reflexivity|now rewrite S1].
  cbn [fst snd extras]. rewrite F, S1, M1. fields.
  repeat split.
Qed.

Lemma handleMessage_search_answer_witness :
  JSON_parse searching raw_hello_search = inr (Event (add hello with_search)) /\
  role hello = User /\
  JS.flag (useMCP with_search) = true /\
  accepting searching (sessions three_connected) = true /\
  messages (fst (handleMessage searching 1 raw_hello_search three_connected)) =
    [hello;
     {| id := "uuid-1"; user := "CF Helper"; role := Assistant;
        content := "Durable Objects are stateful." |}].
Proof.
  split; [reflexivity|]. split; [reflexivity|]. split; [reflexivity|].
  split; [reflexivity|].
  destruct (handleMessage_search_answer searching 1 raw_hello_search three_connected
              hello with_search eq_refl eq_refl eq_refl eq_refl)
    as (text & T & _ & M & _).
  assert (text = "Durable Objects are stateful.") by (now inversion T).
  subst text. exact M.
Defined.

(** ** The responder: session set-up and refused submissions *)

Section ResponderPaths.

Variable p : Platform.

Lemma handleMCPRequest_try_after_init
    (userQuery : Value) (selectedModel : string) (w w1 : World) :
  JS.falsy (mcpSessionId w) = true ->
  initializeMCPSession p w = (w1, inr tt) ->
  JS.falsy (mcpSessionId w1) = false ->
  handleMCPRequest_try p userQuery selectedModel w =
  handleMCPRequest_try p userQuery selectedModel w1.
Proof.
  intros F I F1. unfold handleMCPRequest_try.
  unfold bind at 1. unfold get at 1. rewrite F.
  unfold bind at 1. rewrite I.
  symmetry. unfold bind at 1. unfold get at 1. rewrite F1.
  unfold bind at 1, ret at 1. reflexivity.
Qed.

Lemma handleMCPRequest_try_init_fails
    (userQuery : Value) (selectedModel : string) (w w1 : World) (e : Error) :
  JS.falsy (mcpSessionId w) = true ->
  initializeMCPSession p w = (w1, inl e) ->
  handleMCPRequest_try p userQuery selectedModel w = (w1, inl e).
Proof.
  intros F I. unfold handleMCPRequest_try.
  unfold bind at 1. unfold get at 1. rewrite F.
  unfold bind at 1. rewrite I. reflexivity.
Qed.

End ResponderPaths.

(** X11. Asked in a room that has no token, the responder sets the session
    up itself.  When no send raises, [session_loading] and [session_ready]
    are broadcast, the room gets its token, and the responder answers as it
    would have in the room with that token.  When the set-up ends with an
    error (a send raised), no token is set and the string returned is the
    explanation built from that error. *)
Theorem handleMCPRequest_establishes_session
    (p : Platform) (userQuery : Value) (selectedModel : string) (w : World) :
  JS.falsy (mcpSessionId w) = true ->
  let w1 := fst (initializeMCPSession p w) in
  (accepting p (sessions w) = true ->
   mcpSessionId w1 = Some (generateSessionId (filled p (drawn w) 32)) /\
   emitted (wire w1) =
     emitted (wire w)
     ++ [session_loading; session_ready (generateSessionId (filled p (drawn w) 32))] /\
   handleMCPRequest p userQuery selectedModel w =
   handleMCPRequest p userQuery selectedModel w1) /\
  (forall e,
      snd (initializeMCPSession p w) = inl e ->
      mcpSessionId w1 = mcpSessionId w /\
      handleMCPRequest p userQuery selectedModel w = (w1, inr (explain e))).
Proof.
  intros F w1. split.
  - intros A.
    pose proof (initializeMCPSession_spec p w) as S. cbv zeta in S.
    rewrite (proj1 (accepting_first_raise p _) A) in S.
    assert (I : initializeMCPSession p w = (w1, inr tt)).
    { subst w1. rewrite S. reflexivity. }
    assert (T : mcpSessionId w1 = Some (generateSessionId (filled p (drawn w) 32))).
    { subst w1. rewrite S. reflexivity. }
    split; [exact T|]. split.
    + subst w1. rewrite S. cbn [fst]. fields.
      rewrite !emitted_app. simpl. now rewrite !emitted_deliveries.
    + unfold handleMCPRequest, try_catch.
      rewrite (handleMCPRequest_try_after_init p userQuery selectedModel w w1 F I);
        [reflexivity|].
      rewrite T. simpl.
      destruct (drawn_token p (drawn w)) as [L _].
      rewrite JSFacts.truthy_length; [reflexivity|lia].
  - intros e E.
    assert (I : initializeMCPSession p w = (w1, inl e)).
    { subst w1. destruct (initializeMCPSession p w) as [w' r]. simpl in *. now subst r. }
    split.
    + pose proof (initializeMCPSession_spec p w) as S. cbv zeta in S.
      subst w1. rewrite S in *.
      destruct (first_raise p (sessions w)); [reflexivity|discriminate E].
    + unfold handleMCPRequest, try_catch.
      now rewrite (handleMCPRequest_try_init_fails p userQuery selectedModel w w1 e F I).
Qed.

Lemma handleMCPRequest_establishes_session_witness :
  JS.falsy (mcpSessionId three_connected) = true /\
  accepting searching (sessions three_connected) = true /\
  mcpSessionId (fst (initializeMCPSession searching three_connected))
    = Some "030a11181f262d34" /\
  handleMCPRequest searching "hello" default_model three_connected =
  handleMCPRequest searching "hello" default_model
    (fst (initializeMCPSession searching three_connected)) /\
  snd (initializeMCPSession flaky three_connected) = inl down /\
  snd (handleMCPRequest flaky "hello" default_model three_connected)
    = inr (explain down).
Proof.
  destruct (handleMCPRequest_establishes_session searching "hello" default_model
              three_connected eq_refl) as (Y & _).
  destruct (handleMCPRequest_establishes_session flaky "hello" default_model
              three_connected eq_refl) as (_ & N).
  destruct (Y eq_refl) as (T & _ & H).
  split; [reflexivity|]. split; [reflexivity|]. split; [exact T|]. split; [exact H|].
  split; [reflexivity|].
  exact (f_equal snd (proj2 (N down eq_refl))).
Defined.

(** X12. In a room that has its token, a submission that is rejected, or
    answered with any status other than 202 (a plain 200 included), ends
    the exchange: the room is left as it was and the string returned is the
    explanation built from the rejection, or from "MCP request failed: "
    followed by the status, whatever the push channel delivered and
    whatever the inference binding would have answered. *)
Theorem handleMCPRequest_refused_submission
    (p : Platform) (userQuery : Value) (selectedModel : string) (w : World) (sid : string) :
  mcpSessionId w = Some sid ->
  JS.truthy sid = true ->
  (forall e,
      sse_message p sid (requestBody p userQuery) = inl e ->
      handleMCPRequest p userQuery selectedModel w = (w, inr (explain e))) /\
  (forall status,
      sse_message p sid (requestBody p userQuery) = inr status ->
      status <> 202 ->
      handleMCPRequest p userQuery selectedModel w =
      (w, inr (explain {| message := "MCP request failed: " +++ JS.toString10 status |}))).
Proof.
  intros E T. split.
  - intros e R. unfold handleMCPRequest, try_catch.
    rewrite (handleMCPRequest_try_with_session p userQuery selectedModel w sid E T), R.
    reflexivity.
  - intros status R N. unfold handleMCPRequest, try_catch.
    rewrite (handleMCPRequest_try_with_session p userQuery selectedModel w sid E T), R.
    destruct (Nat.eqb_spec status 202) as [X|_]; [contradiction|reflexivity].
Qed.

Lemma handleMCPRequest_refused_submission_witness :
  mcpSessionId initialised = Some "030a11181f262d34" /\
  JS.truthy "030a11181f262d34" = true /\
  sse_message refusing "030a11181f262d34" (requestBody refusing "hello") = inr 200 /\
  200 <> 202 /\
  responsePromise refusing "030a11181f262d34" = inr found /\
  handleMCPRequest refusing "hello" default_model initialised =
  (initialised, inr (explain {| message := "MCP request failed: 200" |})).
Proof.
  assert (N : 200 <> 202) by discriminate.
  split; [reflexivity|]. split; [reflexivity|]. split; [reflexivity|].
  split; [exact N|]. split; [reflexivity|].
  exact (proj2 (handleMCPRequest_refused_submission refusing "hello" default_model
                  initialised "030a11181f262d34" eq_refl eq_refl) 200 eq_refl N).
Defined.

(** ** The synthesis prompt and the token *)

Lemma prefix_splits (n : nat) :
  forall s, exists rest,
    s = String.substring 0 n s +++ rest /\
    String.length (String.substring 0 n s) = Nat.min n (String.length s).
Proof.
  induction n as [|n IH]; intros s.
  - exists s. destruct s; split; reflexivity.
  - destruct s as [|c s].
    + exists EmptyString. split; reflexivity.
    + destruct (IH s) as (rest & E & L). exists rest. simpl. split.
      * now rewrite <- E.
      * now rewrite L.
Qed.

(** X13. The prompt given to the inference backend for a synthesis has two
    turns: a system turn made of the fixed preamble followed by a prefix of
    the search results of at most 8000 code units (all of them when they
    are no longer than that), and a user turn that is the query as it was
    asked. *)
Theorem synthesis_prompt_bounded (searchResults : string) (userQuery : Value) :
  exists cut rest,
    synthesis_prompt searchResults userQuery =
      [ {| speaker := System;
           said := ("You are CF Helper, a Cloudflare expert assistant. Use the following Cloudflare documentation to answer the user's question comprehensively. Always cite specific sections when relevant."
                    +++ JS.lf +++ JS.lf +++ "Cloudflare Documentation:" +++ JS.lf)
                   +++ cut |};
        {| speaker := Chat User; said := userQuery |} ] /\
    searchResults = cut +++ rest /\
    String.length cut = Nat.min 8000 (String.length searchResults) /\
    (String.length searchResults <= 8000 -> cut = searchResults).
Proof.
  destruct (prefix_splits 8000 searchResults) as (rest & E & L).
  exists (String.substring 0 8000 searchResults), rest.
  assert (J : JS.substring 0 8000 searchResults = String.substring 0 8000 searchResults).
  { unfold JS.substring. now rewrite Nat.min_0_l, Nat.max_0_l, Nat.sub_0_r. }
  split; [|split; [exact E|split; [exact L|]]].
  - unfold synthesis_prompt. rewrite J.
    rewrite !JSFacts.append_assoc. reflexivity.
  - intros B. rewrite Nat.min_r in L by exact B.
    assert (R : String.length rest = 0).
    { apply (f_equal String.length) in E. rewrite JSFacts.length_append in E. lia. }
    destruct rest; [|discriminate R].
    now rewrite JSFacts.append_empty in E.
Qed.

Lemma synthesis_prompt_bounded_witness :
  String.length "Durable Objects keep state." <= 8000 /\
  exists cut rest,
    "Durable Objects keep state." = cut +++ rest /\
    cut = "Durable Objects keep state." /\
    nth_error (synthesis_prompt "Durable Objects keep state." "hello") 1
      = Some {| speaker := Chat User; said := "hello" |}.
Proof.
  assert (B : String.length "Durable Objects keep state." <= 8000).
  { apply Nat.leb_le. reflexivity. }
  split; [exact B|].
  destruct (synthesis_prompt_bounded "Durable Objects keep state." "hello")
    as (cut & rest & P & E & _ & C).
  exists cut, rest. split; [exact E|]. split; [exact (C B)|].
  rewrite P. reflexivity.
Defined.

Lemma substring_append_exact (a b : string) (k : nat) :
  String.substring 0 (String.length a + k) (a +++ b) = a +++ String.substring 0 k b.
Proof.
  induction a as [|c a IH]; simpl; [reflexivity|now rewrite IH].
Qed.

Lemma substring_whole (s : string) : String.substring 0 (String.length s) s = s.
Proof.
  induction s as [|c s IH]; simpl; [reflexivity|now rewrite IH].
Qed.

Lemma byte_hex_length (b : byte) : String.length (byte_hex b) = 2.
Proof. exact (proj1 (pad_byte_hex b)). Qed.

Lemma byte_unhex_hex (b : byte) : byte_unhex (byte_hex b) = Some b.
Proof. destruct b; vm_compute; reflexivity. Qed.

Lemma join_hex_prefix (n : nat) :
  forall l,
    String.substring 0 (2 * n) (JS.join (map byte_hex l)) =
    String.substring 0 (2 * n) (JS.join (map byte_hex (firstn n l))).
Proof.
  induction n as [|n IH]; intros l.
  - simpl. destruct (JS.join (map byte_hex l)); reflexivity.
  - destruct l as [|b l]; [reflexivity|].
    simpl firstn. simpl map. rewrite !JSFacts.join_cons.
    replace (2 * S n) with (String.length (byte_hex b) + 2 * n)
      by (rewrite byte_hex_length; lia).
    rewrite !substring_append_exact. now rewrite IH.
Qed.

Lemma join_hex_length (l : list byte) :
  String.length (JS.join (map byte_hex l)) = 2 * length l.
Proof.
  induction l as [|b l IH]; [reflexivity|].
  simpl map. rewrite JSFacts.join_cons, JSFacts.length_append, byte_hex_length, IH.
  simpl. lia.
Qed.

Lemma append_inj_length (a a' x x' : string) :
  String.length a = String.length a' ->
  a +++ x = a' +++ x' ->
  a = a' /\ x = x'.
Proof.
  revert a'. induction a as [|c a IH]; intros [|c' a'] L E; simpl in *;
    try discriminate L.
  - now split.
  - inversion E; subst. destruct (IH a') as [A X]; [lia|assumption|].
    subst. now split.
Qed.

Lemma join_hex_inj (l : list byte) :
  forall l',
    length l = length l' ->
    JS.join (map byte_hex l) = JS.join (map byte_hex l') ->
    l = l'.
Proof.
  induction l as [|b l IH]; intros [|b' l'] L E; simpl in L; try discriminate L.
  - reflexivity.
  - simpl map in E. rewrite !JSFacts.join_cons in E.
    apply append_inj_length in E; [|now rewrite !byte_hex_length].
    destruct E as [B J].
    assert (Some b = Some b') as S by (rewrite <- !byte_unhex_hex; now rewrite B).
    inversion S; subst. f_equal. apply IH; [lia|exact J].
Qed.

(** X14. The session token is made of the first eight random bytes only:
    the other twenty-four that are drawn never show in it.  With eight
    bytes or more it is exactly their sixteen hexadecimal digits, two per
    byte, and it determines them: two draws give the same token only if
    their first eight bytes are the same. *)
Theorem generateSessionId_first_eight (randomBytes other : list byte) :
  generateSessionId randomBytes = generateSessionId (firstn 8 randomBytes) /\
  (8 <= length randomBytes ->
   generateSessionId randomBytes = JS.join (map byte_hex (firstn 8 randomBytes))) /\
  (8 <= length randomBytes ->
   8 <= length other ->
   generateSessionId randomBytes = generateSessionId other ->
   firstn 8 randomBytes = firstn 8 other).
Proof.
  assert (G : forall l, generateSessionId l =
                        String.substring 0 (2 * 8) (JS.join (map byte_hex l)))
    by reflexivity.
  assert (W : forall l, 8 <= length l ->
                        generateSessionId l = JS.join (map byte_hex (firstn 8 l))).
  { intros l L. rewrite G, join_hex_prefix.
    replace (2 * 8) with (String.length (JS.join (map byte_hex (firstn 8 l)))).
    - apply substring_whole.
    - rewrite join_hex_length, length_firstn. lia. }
  split; [|split].
  - rewrite !G. rewrite join_hex_prefix.
    rewrite (join_hex_prefix 8 (firstn 8 randomBytes)).
    now rewrite firstn_firstn.
  - apply W.
  - intros L L' E. rewrite (W _ L), (W _ L') in E.
    apply join_hex_inj; [|exact E].
    rewrite !length_firstn. lia.
Qed.

Lemma generateSessionId_first_eight_witness :
  8 <= length (filled calm 0 32) /\
  generateSessionId (filled calm 0 32) = "030a11181f262d34" /\
  generateSessionId (filled calm 0 32)
    = JS.join (map byte_hex [x03; x0a; x11; x18; x1f; x26; x2d; x34]).
Proof.
  assert (L : 8 <= length (filled calm 0 32)) by (apply Nat.leb_le; reflexivity).
  split; [exact L|]. split; [reflexivity|].
  exact (proj1 (proj2 (generateSessionId_first_eight (filled calm 0 32) [])) L).
Defined.

(** ** The push channel as text *)

Example sse_text_as_one_chunk :
  Sse.read_stream searching EmptyString [sse_text] = Some found.
Proof. reflexivity. Qed.

Example sse_text_cut_inside_the_separator :
  Sse.read_stream searching EmptyString
    [sse_text_open +++ JS.lf; JS.lf] = Some found.
Proof. reflexivity. Qed.

Example sse_frames :
  map Sse.frame_of (removelast (Sse.split_blank sse_text)) =
  [ {| Mcp.eventType := "endpoint"; Mcp.eventData := "/sse/message" |};
    {| Mcp.eventType := "message";
       Mcp.eventData := raw_result "Durable Objects keep state." |} ].
Proof. reflexivity. Qed.

Module SseFacts.

Import Sse.

Lemma split_blank_two (a b : ascii) (t : string) :
  split_blank (String a (String b t)) =
  if is_lf a && is_lf b then EmptyString :: split_blank t
  else add_first a (split_blank (String b t)).
Proof. reflexivity. Qed.

Lemma split_blank_nonempty (s : string) : split_blank s <> [].
Proof.
  destruct s as [|a [|b s']]; try discriminate.
  rewrite split_blank_two.
  destruct (is_lf a && is_lf b); [discriminate|].
  destruct (split_blank (String b s')); discriminate.
Qed.

(** A text in which no blank line is found is its own single piece. *)
Lemma split_blank_single (n : nat) :
  forall s x, String.length s <= n -> split_blank s = [x] -> x = s.
Proof.
  induction n as [|n IH]; intros s x L E.
  - destruct s; [|simpl in L; lia]. simpl in E. congruence.
  - destruct s as [|a [|b s']]; [simpl in E; congruence|simpl in E; congruence|].
    rewrite split_blank_two in E.
    destruct (is_lf a && is_lf b).
    + exfalso. injection E as _ Y. now apply (split_blank_nonempty s').
    + destruct (split_blank (String b s')) as [|y [|z l]] eqn:S; simpl in E.
      * exfalso. now apply (split_blank_nonempty (String b s')).
      * injection E as E. subst x. f_equal.
        apply IH; [simpl in *; lia|exact S].
      * discriminate E.
Qed.

(** Cutting a text that continues: the complete pieces of the first part
    stand, and its last piece is cut again together with what follows. *)
Lemma split_blank_app (n : nat) :
  forall a b,
    String.length a <= n ->
    split_blank (a +++ b) =
    removelast (split_blank a) ++ split_blank (last (split_blank a) EmptyString +++ b).
Proof.
  induction n as [|n IH]; intros a b L.
  - destruct a; [reflexivity|simpl in L; lia].
  - destruct a as [|c [|d s']]; [reflexivity|reflexivity|].
    change ((String c (String d s')) +++ b) with (String c (String d (s' +++ b))).
    rewrite !split_blank_two.
    destruct (is_lf c && is_lf d) eqn:B.
    + rewrite (IH s' b) by (simpl in L; lia).
      pose proof (split_blank_nonempty s') as N.
      destruct (split_blank s') as [|y l]; [contradiction|]. reflexivity.
    + change (String d (s' +++ b)) with ((String d s') +++ b).
      rewrite (IH (String d s') b) by (simpl in *; lia).
      destruct (split_blank (String d s')) as [|y [|z l]] eqn:S.
      * exfalso. now apply (split_blank_nonempty (String d s')).
      * assert (y = String d s').
        { apply (split_blank_single (String.length (String d s'))); [lia|exact S]. }
        subst y. cbn [add_first removelast last app].
        change ((String c (String d s')) +++ b) with (String c (String d (s' +++ b))).
        rewrite split_blank_two, B. reflexivity.
      * reflexivity.
Qed.

Section Reading.

Variable p : Platform.

Lemma process_events_app (l l' : list string) :
  process_events p (l ++ l') =
  match process_events p l with
  | Some parsed => Some parsed
  | None => process_events p l'
  end.
Proof.
  induction l as [|event l IH]; simpl; [reflexivity|].
  destruct (blank event); [exact IH|].
  destruct (_ && _); [|exact IH].
  destruct (JSON_parse_rpc p _); [exact IH|reflexivity].
Qed.

(** The loop over the pieces is the loop over their frames. *)
Lemma process_events_frames (l : list string) :
  process_events p l =
  read_events p (map frame_of (filter (fun event => negb (blank event)) l)).
Proof.
  induction l as [|event l IH]; simpl; [reflexivity|].
  destruct (blank event); simpl; [exact IH|].
  destruct (_ && _); [|exact IH].
  destruct (JSON_parse_rpc p _); [exact IH|reflexivity].
Qed.

Lemma removelast_app_nonempty {A : Type} (l l' : list A) :
  l' <> [] -> removelast (l ++ l') = l ++ removelast l'.
Proof.
  intros N. now apply removelast_app.
Qed.

(** With a chunk still to come, what the loop returns is read off the
    whole text that is still to be seen. *)
Lemma read_stream_whole (chunks : list string) :
  forall buffer,
    chunks <> [] ->
    read_stream p buffer chunks =
    process_events p (removelast (split_blank (buffer +++ JS.join chunks))).
Proof.
  induction chunks as [|chunk rest IH]; intros buffer N; [contradiction|].
  simpl read_stream. rewrite JSFacts.join_cons.
  destruct rest as [|next rest'].
  - change (JS.join []) with EmptyString. rewrite JSFacts.append_empty.
    destruct (process_events p _); reflexivity.
  - rewrite IH by discriminate.
    rewrite <- JSFacts.append_assoc.
    rewrite (split_blank_app (String.length (buffer +++ chunk)) (buffer +++ chunk)
               (JS.join (next :: rest')) (le_n _)).
    rewrite removelast_app_nonempty by apply split_blank_nonempty.
    now rewrite process_events_app.
Qed.

End Reading.

End SseFacts.

(** X15. What the reading loop of the push channel returns does not depend
    on how the text arrives cut into chunks, not even when a cut falls
    inside a blank line: it is what the framed-event loop returns on the
    events of the whole text, those made only of white space left out.
    The last piece of the text, the one no blank line ends, is never read:
    a text without a blank line resolves nothing, whatever it holds. *)
Theorem read_stream_chunking (p : Platform) (chunks : list string) :
  Sse.read_stream p EmptyString chunks =
    read_events p
      (map Sse.frame_of
         (filter (fun event => negb (Sse.blank event))
            (removelast (Sse.split_blank (JS.join chunks))))) /\
  Sse.read_stream p EmptyString chunks =
    Sse.read_stream p EmptyString [JS.join chunks] /\
  (Sse.split_blank (JS.join chunks) = [JS.join chunks] ->
   Sse.read_stream p EmptyString chunks = None).
Proof.
  assert (W : forall l, Sse.read_stream p EmptyString l =
                        Sse.process_events p
                          (removelast (Sse.split_blank (JS.join l)))).
  { intros [|c l]; [reflexivity|].
    now rewrite SseFacts.read_stream_whole by discriminate. }
  split; [|split].
  - rewrite W. apply SseFacts.process_events_frames.
  - rewrite (W chunks), (W [JS.join chunks]). reflexivity.
  - intros S. rewrite W, S. reflexivity.
Qed.

Lemma read_stream_chunking_witness :
  Sse.split_blank (JS.join [sse_message_open]) = [JS.join [sse_message_open]] /\
  Sse.read_stream searching EmptyString [sse_message_open] = None /\
  Sse.read_stream searching EmptyString [sse_message_open; JS.lf; JS.lf] = Some found.
Proof.
  split; [reflexivity|].
  destruct (read_stream_chunking searching [sse_message_open]) as (_ & _ & N).
  destruct (read_stream_chunking searching [sse_message_open; JS.lf; JS.lf])
    as (_ & E & _).
  split; [exact (N eq_refl)|].
  rewrite E. reflexivity.
Defined.

(** ** The worker in front of the rooms *)

Module WorkerFacts.

Import Worker.

Lemma setup_cases (o : Outside) (request : Request) (kv : option Stored) :
  (exists fields,
      json request = inr fields /\
      truthy_field (email fields) = true /\
      truthy_field (apiKey fields) = true /\
      truthy_field (accountId fields) = true /\
      (exists u, validate o fields = inr u) /\
      put_throws o = None /\
      fst (setup o request kv) = Some (Models setup_models) /\
      status (snd (setup o request kv)) = 200) \/
  (~ (exists fields,
         json request = inr fields /\
         truthy_field (email fields) = true /\
         truthy_field (apiKey fields) = true /\
         truthy_field (accountId fields) = true /\
         (exists u, validate o fields = inr u) /\
         put_throws o = None) /\
   fst (setup o request kv) = kv /\
   (status (snd (setup o request kv)) = 400 \/
    status (snd (setup o request kv)) = 500)).
Proof.
  unfold setup.
  destruct (json request) as [e|fields] eqn:J.
  - right. split; [|split; [reflexivity|now left]].
    intros (f & E & _). discriminate E.
  - destruct (truthy_field (email fields)) eqn:E1; simpl.
    2:{ right. split; [|split; [reflexivity|now left]].
        intros (f & E & T & _). inversion E; subst f. congruence. }
    destruct (truthy_field (apiKey fields)) eqn:E2; simpl.
    2:{ right. split; [|split; [reflexivity|now left]].
        intros (f & E & _ & T & _). inversion E; subst f. congruence. }
    destruct (truthy_field (accountId fields)) eqn:E3; simpl.
    2:{ right. split; [|split; [reflexivity|now left]].
        intros (f & E & _ & _ & T & _). inversion E; subst f. congruence. }
    destruct (validate o fields) as [e|u] eqn:V.
    { right. split; [|split; [reflexivity|now right]].
      intros (f & E & _ & _ & _ & (u & U) & _). inversion E; subst f. congruence. }
    destruct (put_throws o) as [e|] eqn:P.
    { right. split; [|split; [reflexivity|now right]].
      intros (f & E & _ & _ & _ & _ & X). discriminate X. }
    left. exists fields. repeat split; auto. now exists u.
Qed.

Lemma headers_get_delete_same (n : string) (h : Headers) :
  headers_get n (headers_delete n h) = [].
Proof.
  unfold headers_get, headers_delete.
  induction h as [|[k v] h IH]; simpl; [reflexivity|].
  destruct (String.eqb k n) eqn:E; simpl; [exact IH|].
  now rewrite E.
Qed.

Lemma headers_get_delete_other (n n' : string) (h : Headers) :
  n' <> n -> headers_get n' (headers_delete n h) = headers_get n' h.
Proof.
  intros N. unfold headers_get, headers_delete.
  induction h as [|[k v] h IH]; simpl; [reflexivity|].
  destruct (String.eqb_spec k n) as [E|E]; simpl.
  - subst k. destruct (String.eqb_spec n n') as [F|F]; [congruence|exact IH].
  - destruct (String.eqb k n'); simpl; now rewrite IH.
Qed.

Lemma headers_get_append (n n' v : string) (h : Headers) :
  headers_get n' (headers_append n v h) =
  headers_get n' h ++ (if String.eqb n n' then [v] else []).
Proof.
  unfold headers_get, headers_append.
  rewrite filter_app, map_app. simpl.
  destruct (String.eqb n n'); reflexivity.
Qed.

End WorkerFacts.

(** X16. The model list is always answered with status 200.  When nothing
    usable is kept under [Models], the list is the single default model and
    the client is told that set-up is needed.  Otherwise a model of the
    store is listed exactly if its provider is cloudflare or the variable
    named by its [requiresKey] is set, whatever else the environment holds;
    the listed models keep the order of the store, and a model without a
    description is described by its identifier. *)
Theorem list_models_answers (o : Worker.Outside) (kv : option Worker.Stored) :
  Worker.status (Worker.list_models o kv) = 200 /\
  (kv = None \/ kv = Some Worker.Unparsable ->
   Worker.body (Worker.list_models o kv) = Worker.fallback_list) /\
  (forall l,
      kv = Some (Worker.Models l) ->
      exists shown,
        Worker.body (Worker.list_models o kv) = Worker.ModelList (map Worker.listed shown) false /\
        shown = filter (Worker.available o) l /\
        (forall m, In m shown <->
                   In m l /\
                   (Worker.provider m = Some "cloudflare" \/
                    exists key, Worker.requiresKey m = Some key /\
                                JS.truthy key = true /\
                                Worker.env_set o key = true)) /\
        (forall m, In m shown -> Worker.description m = None ->
                   Worker.listed_description (Worker.listed m) = Worker.id m)).
Proof.
  split; [destruct kv as [[|l]|]; reflexivity|]. split.
  - intros [E|E]; subst kv; reflexivity.
  - intros l E. subst kv. exists (filter (Worker.available o) l).
    split; [reflexivity|]. split; [reflexivity|]. split.
    + intros m. rewrite filter_In. unfold Worker.available.
      split.
      * intros [I A]. split; [exact I|].
        destruct (Worker.provider m) as [pr|].
        -- destruct (String.eqb_spec pr "cloudflare") as [C|C]; [left; now subst|].
           right. destruct (Worker.requiresKey m) as [key|]; [|discriminate A].
           exists key. destruct (JS.truthy key); [auto|discriminate A].
        -- right. destruct (Worker.requiresKey m) as [key|]; [|discriminate A].
           exists key. destruct (JS.truthy key); [auto|discriminate A].
      * intros [I [C|(key & K & T & S)]]; (split; [exact I|]).
        -- now rewrite C.
        -- rewrite K, T, S.
           destruct (Worker.provider m) as [pr|]; [|reflexivity].
           destruct (String.eqb pr "cloudflare"); reflexivity.
    + intros m _ D. unfold Worker.listed. simpl. now rewrite D.
Qed.

Lemma list_models_answers_witness :
  Worker.body (Worker.list_models friendly None) = Worker.fallback_list /\
  Worker.body (Worker.list_models friendly
                 (Some (Worker.Models (partner_model :: Worker.setup_models)))) =
    Worker.ModelList (map Worker.listed Worker.setup_models) false.
Proof.
  destruct (list_models_answers friendly None) as (_ & F & _).
  destruct (list_models_answers friendly
              (Some (Worker.Models (partner_model :: Worker.setup_models))))
    as (_ & _ & L).
  destruct (L _ eq_refl) as (shown & B & S & _).
  split; [exact (F (or_introl eq_refl))|].
  rewrite B, S. reflexivity.
Defined.

(** X17. The set-up endpoint writes the store only on its one successful
    path: the body parsed, [email], [apiKey] and [accountId] are present
    and non-empty, the account API accepted the credentials and the write
    did not throw.  Then the store holds the seven Workers AI models and
    the status is 200.  On every other path the store is what it was and
    the status is 400 (body not JSON, or a field missing) or 500. *)
Theorem setup_writes_only_when_validated
    (o : Worker.Outside) (request : Worker.Request) (kv : option Worker.Stored) :
  let succeeds :=
    exists fields,
      Worker.json request = inr fields /\
      Worker.truthy_field (Worker.email fields) = true /\
      Worker.truthy_field (Worker.apiKey fields) = true /\
      Worker.truthy_field (Worker.accountId fields) = true /\
      (exists u, Worker.validate o fields = inr u) /\
      Worker.put_throws o = None in
  (succeeds ->
   fst (Worker.setup o request kv) = Some (Worker.Models Worker.setup_models) /\
   Worker.status (snd (Worker.setup o request kv)) = 200 /\
   length Worker.setup_models = 7) /\
  (~ succeeds ->
   fst (Worker.setup o request kv) = kv /\
   (Worker.status (snd (Worker.setup o request kv)) = 400 \/
    Worker.status (snd (Worker.setup o request kv)) = 500)) /\
  (Worker.status (snd (Worker.setup o request kv)) = 200 -> succeeds).
Proof.
  intros succeeds.
  destruct (WorkerFacts.setup_cases o request kv)
    as [(f & J & E1 & E2 & E3 & V & P & K & S)|(N & K & S)].
  - split; [|split].
    + intros _. repeat split; assumption.
    + intros X. exfalso. apply X. exists f. repeat split; assumption.
    + intros _. exists f. repeat split; assumption.
  - split; [|split].
    + intros X. contradiction.
    + intros _. split; assumption.
    + intros X. destruct S as [S|S]; rewrite S in X; discriminate X.
Qed.

Lemma setup_writes_only_when_validated_witness :
  (exists fields,
      Worker.json setup_request = inr fields /\
      Worker.truthy_field (Worker.email fields) = true /\
      Worker.truthy_field (Worker.apiKey fields) = true /\
      Worker.truthy_field (Worker.accountId fields) = true /\
      (exists u, Worker.validate friendly fields = inr u) /\
      Worker.put_throws friendly = None) /\
  fst (Worker.setup friendly setup_request None)
    = Some (Worker.Models Worker.setup_models).
Proof.
  assert (S : exists fields,
             Worker.json setup_request = inr fields /\
             Worker.truthy_field (Worker.email fields) = true /\
             Worker.truthy_field (Worker.apiKey fields) = true /\
             Worker.truthy_field (Worker.accountId fields) = true /\
             (exists u, Worker.validate friendly fields = inr u) /\
             Worker.put_throws friendly = None).
  { exists full_credentials. repeat split. now exists tt. }
  split; [exact S|].
  exact (proj1 (proj1 (setup_writes_only_when_validated friendly setup_request None) S)).
Defined.

(** X18. After a successful set-up the model list is the seven Workers AI
    models, in the order they were written and whatever variables the
    environment has set; the first of them is the model the chat handler
    uses when an event names none. *)
Theorem setup_then_list_models
    (o o' : Worker.Outside) (request : Worker.Request) (kv : option Worker.Stored) :
  Worker.status (snd (Worker.setup o request kv)) = 200 ->
  Worker.list_models o' (fst (Worker.setup o request kv)) =
    {| Worker.status := 200;
       Worker.body := Worker.ModelList (map Worker.listed Worker.setup_models) false |} /\
  map Worker.listed_id (map Worker.listed Worker.setup_models) =
    map Worker.id Worker.setup_models /\
  hd_error (map Worker.id Worker.setup_models) = Some default_model.
Proof.
  intros S.
  destruct (WorkerFacts.setup_cases o request kv)
    as [(f & _ & _ & _ & _ & _ & _ & K & _)|(_ & _ & [X|X])];
    try (rewrite X in S; discriminate S).
  rewrite K. repeat split.
Qed.

Lemma setup_then_list_models_witness :
  Worker.status (snd (Worker.setup friendly setup_request None)) = 200 /\
  Worker.list_models friendly (fst (Worker.setup friendly setup_request None)) =
    {| Worker.status := 200;
       Worker.body := Worker.ModelList (map Worker.listed Worker.setup_models) false |}.
Proof.
  split; [reflexivity|].
  exact (proj1 (setup_then_list_models friendly friendly setup_request None eq_refl)).
Defined.

(** X19. The worker's handler writes the store on one route only: whenever
    the store after a request differs from the store before, the request
    was a POST to the set-up path and was answered 200.  A request to the
    room path, whatever its method, is forwarded (status 101) to the room
    named by its [room] parameter, or to the room "default" when the
    parameter is missing or empty, provided its [Upgrade] header is exactly
    "websocket"; otherwise it is answered 426 and no room is reached. *)
Theorem fetch_routes
    (o : Worker.Outside) (request : Worker.Request) (kv : option Worker.Stored) :
  (fst (Worker.fetch o request kv) <> kv ->
   Worker.pathname request = "/cfhelper/api/setup" /\
   Worker.method request = "POST" /\
   Worker.status (snd (Worker.fetch o request kv)) = 200) /\
  (Worker.pathname request = "/cfhelper/api/ws" ->
   fst (Worker.fetch o request kv) = kv /\
   (Worker.upgrade request = Some "websocket" ->
    snd (Worker.fetch o request kv) =
      {| Worker.status := 101;
         Worker.body := Worker.Forwarded (JS.or_else (Worker.room request) "default") |}) /\
   (Worker.upgrade request <> Some "websocket" ->
    snd (Worker.fetch o request kv) =
      {| Worker.status := 426; Worker.body := Worker.Page "Expected Upgrade: websocket" |})).
Proof.
  unfold Worker.fetch. split.
  - destruct (String.eqb (Worker.pathname request) "/cfhelper/api/models"
              && String.eqb (Worker.method request) "GET");
      [intros X; now contradiction X|].
    destruct (String.eqb_spec (Worker.pathname request) "/cfhelper/api/setup") as [P|P];
      destruct (String.eqb_spec (Worker.method request) "POST") as [M|M]; simpl.
    1: { intros X.
         destruct (WorkerFacts.setup_cases o request kv)
           as [(_ & _ & _ & _ & _ & _ & _ & _ & S)|(_ & K & _)];
           [now repeat split|now contradiction X]. }
    all: destruct (String.eqb (Worker.pathname request) "/cfhelper/api/setup-waf");
      simpl; try (intros X; now contradiction X).
    all: destruct (String.eqb (Worker.pathname request) "/api/waftesting"
                   && String.eqb (Worker.method request) "GET");
      try (intros X; now contradiction X).
    all: destruct (String.eqb (Worker.pathname request) "/cfhelper/api/ws");
      try (intros X; now contradiction X).
    all: destruct (Worker.is_websocket (Worker.upgrade request));
      intros X; now contradiction X.
  - intros W. rewrite W. simpl.
    split; [|split].
    + destruct (Worker.is_websocket (Worker.upgrade request)); reflexivity.
    + intros U. rewrite U. reflexivity.
    + intros U. destruct (Worker.upgrade request) as [u|]; [|reflexivity].
      simpl. destruct (String.eqb_spec u "websocket") as [E|E]; [subst u; congruence|].
      reflexivity.
Qed.

Lemma fetch_routes_witness :
  fst (Worker.fetch friendly setup_request None) <> None /\
  Worker.status (snd (Worker.fetch friendly setup_request None)) = 200 /\
  Worker.pathname join_request = "/cfhelper/api/ws" /\
  Worker.upgrade join_request = Some "websocket" /\
  snd (Worker.fetch friendly join_request None) =
    {| Worker.status := 101; Worker.body := Worker.Forwarded "default" |}.
Proof.
  assert (N : fst (Worker.fetch friendly setup_request None) <> None) by discriminate.
  destruct (fetch_routes friendly setup_request None) as (S & _).
  destruct (fetch_routes friendly join_request None) as (_ & J).
  split; [exact N|]. split; [exact (proj2 (proj2 (S N)))|].
  split; [reflexivity|]. split; [reflexivity|].
  exact (proj1 (proj2 (J eq_refl)) eq_refl).
Defined.

(** X20. A static asset is served with its status and its text as they
    are and with its security policy replaced: the response carries
    exactly one [content-security-policy] header, the worker's own, and no
    [content-security-policy-report-only] header, whatever the asset
    carried; every other header is passed on unchanged. *)
Theorem serve_asset_policy (o : Worker.Outside) (request : Worker.Request) :
  exists text headers,
    Worker.serve_asset o request =
      {| Worker.status := fst (fst (Worker.asset o request));
         Worker.body := Worker.Asset text headers |} /\
    text = snd (fst (Worker.asset o request)) /\
    Worker.headers_get Worker.csp_name headers = [Worker.csp_value] /\
    Worker.headers_get Worker.csp_report_only_name headers = [] /\
    (forall n, n <> Worker.csp_name -> n <> Worker.csp_report_only_name ->
               Worker.headers_get n headers =
               Worker.headers_get n (snd (Worker.asset o request))).
Proof.
  unfold Worker.serve_asset.
  destruct (Worker.asset o request) as [[st text] h].
  eexists. eexists. split; [reflexivity|]. split; [reflexivity|].
  cbn [fst snd]. split; [|split].
  - rewrite WorkerFacts.headers_get_append, String.eqb_refl.
    rewrite WorkerFacts.headers_get_delete_other by discriminate.
    now rewrite WorkerFacts.headers_get_delete_same.
  - rewrite WorkerFacts.headers_get_append.
    rewrite WorkerFacts.headers_get_delete_same. reflexivity.
  - intros n N1 N2.
    rewrite WorkerFacts.headers_get_append.
    destruct (String.eqb_spec Worker.csp_name n) as [E|_]; [congruence|].
    rewrite app_nil_r.
    rewrite !WorkerFacts.headers_get_delete_other by assumption.
    reflexivity.
Qed.

Lemma serve_asset_policy_witness :
  "content-type" <> Worker.csp_name /\
  "content-type" <> Worker.csp_report_only_name /\
  exists headers,
    Worker.body (snd (Worker.fetch friendly page_request None))
      = Worker.Asset "<html></html>" headers /\
    Worker.headers_get Worker.csp_name headers = [Worker.csp_value] /\
    Worker.headers_get "content-type" headers = ["text/html"].
Proof.
  assert (N1 : "content-type" <> Worker.csp_name) by discriminate.
  assert (N2 : "content-type" <> Worker.csp_report_only_name) by discriminate.
  split; [exact N1|]. split; [exact N2|].
  destruct (serve_asset_policy friendly page_request) as (text & headers & E & T & C & _ & O).
  exists headers. split; [|split; [exact C|exact (O _ N1 N2)]].
  change (snd (Worker.fetch friendly page_request None))
    with (Worker.serve_asset friendly page_request).
  rewrite E, T. reflexivity.
Defined.

(** ** The log, the broadcasts and the client's list *)

Section Lockstep.

Variable p : Platform.

Lemma follows_refl (w : World) : follows p w w.
Proof.
  split; [reflexivity|]. exists []. simpl. rewrite app_nil_r.
  repeat split. intros l [].
Qed.

Lemma upserts_app (l l' log : list ChatMessage) :
  upserts (l ++ l') log = upserts l' (upserts l log).
Proof.
  unfold upserts. apply fold_left_app.
Qed.

Lemma adds_of_app (l l' : list Message) : adds_of (l ++ l') = adds_of l ++ adds_of l'.
Proof.
  unfold adds_of. apply flat_map_app.
Qed.

Lemma follows_trans (w1 w2 w3 : World) :
  follows p w1 w2 -> follows p w2 w3 -> follows p w1 w3.
Proof.
  intros (S1 & e1 & W1 & M1 & N1) (S2 & e2 & W2 & M2 & N2).
  split; [congruence|]. exists (e1 ++ e2). split; [|split].
  - rewrite W2, W1, S1, flat_map_app. now rewrite app_assoc.
  - rewrite M2, M1, adds_of_app. now rewrite upserts_app.
  - intros l I. apply in_app_or in I. destruct I as [I|I];
      [now apply (N1 l)|now apply (N2 l)].
Qed.

(** An upsert followed by the broadcast of the event. *)
Lemma follows_save_broadcast (m : ChatMessage) (x : Extras) (w : World) :
  follows p w
    (with_wire (wire w ++ Broadcast (add m x)
                  :: deliveries (JSON_stringify (add m x)) (open_sockets p (sessions w)))
       (with_messages (saveMessage m (messages w)) w)).
Proof.
  split; [reflexivity|]. exists [add m x]. split; [|split].
  - fields. simpl. now rewrite app_nil_r.
  - reflexivity.
  - intros l [E|[]]. discriminate E.
Qed.

Lemma initializeMCPSession_follows (w : World) :
  accepting p (sessions w) = true ->
  follows p w (fst (initializeMCPSession p w)).
Proof.
  intros A. rewrite initializeMCPSession_spec.
  rewrite (proj1 (accepting_first_raise p _) A), (accepting_reached p _ A).
  split; [reflexivity|].
  exists [session_loading; session_ready (generateSessionId (filled p (drawn w) 32))].
  split; [|split].
  - cbn [fst]. fields. simpl. now rewrite app_nil_r.
  - reflexivity.
  - intros l [E|[E|[]]]; discriminate E.
Qed.

Lemma handleMCPRequest_follows (userQuery : Value) (selectedModel : string) (w : World) :
  accepting p (sessions w) = true ->
  follows p w (fst (handleMCPRequest p userQuery selectedModel w)).
Proof.
  intros A. rewrite handleMCPRequest_world.
  destruct (JS.falsy (mcpSessionId w)).
  - now apply initializeMCPSession_follows.
  - apply follows_refl.
Qed.

Lemma dispatch_follows (m : ChatMessage) (x : Extras) (w : World) :
  accepting p (sessions w) = true ->
  follows p w (fst (dispatch p m x w)).
Proof.
  intros A. unfold dispatch. destruct (JS.flag (useMCP x)).
  - unfold bind.
    pose proof (handleMCPRequest_follows (content m) (JS.or_else (model x) default_model)
                  w A) as F.
    destruct (handleMCPRequest p _ _ w) as [w' [e|s]]; exact F.
  - unfold bind, get.
    destruct (AI_run p _ _); apply follows_refl.
Qed.

Lemma handleMessage_receive_follows (webSocket : WebSocket) (raw : string) (w : World) :
  accepting p (sessions w) = true ->
  follows p w (fst (handleMessage_receive p webSocket raw w)).
Proof.
  intros A. unfold handleMessage_receive, bind, lift.
  destruct (JSON_parse p raw) as [e|[event| | |]]; try apply follows_refl.
  destruct event; try apply follows_refl.
  unfold modify at 1.
  rewrite broadcastMessage_accepting by exact A. fields.
  destruct (role m).
  - pose proof (follows_save_broadcast m x w) as F0.
    set (w0 := with_wire _ _) in *.
    pose proof (dispatch_follows m x w0 A) as F1.
    destruct (dispatch p m x w0) as [w1 [e|a]]; simpl in *;
      exact (follows_trans _ _ _ F0 F1).
  - apply follows_save_broadcast.
  - apply follows_save_broadcast.
Qed.

Lemma handleMessage_resume_follows (k : Awaited) (w : World) :
  accepting p (sessions w) = true ->
  follows p w (fst (handleMessage_resume p k w)).
Proof.
  intros A. destruct (settled k) as [e|text] eqn:E.
  - rewrite (handleMessage_resume_failure p k e w E A). cbn [fst].
    split; [reflexivity|]. eexists [add _ no_extras]. split; [|split].
    + fields. simpl. now rewrite app_nil_r.
    + reflexivity.
    + intros l [X|[]]. discriminate X.
  - rewrite (handleMessage_resume_success p k text w E A). cbn [fst].
    split; [reflexivity|]. eexists [add _ no_extras]. split; [|split].
    + fields. simpl. now rewrite app_nil_r.
    + reflexivity.
    + intros l [X|[]]. discriminate X.
Qed.

Lemma handleMessage_follows (webSocket : WebSocket) (raw : string) (w : World) :
  accepting p (sessions w) = true ->
  follows p w (fst (handleMessage p webSocket raw w)).
Proof.
  intros A. unfold handleMessage, bind.
  pose proof (handleMessage_receive_follows webSocket raw w A) as F.
  destruct (handleMessage_receive p webSocket raw w) as [w1 [e|[k|]]]; simpl in *;
    try exact F.
  apply (follows_trans _ _ _ F).
  apply handleMessage_resume_follows.
  destruct F as [S _]. now rewrite S.
Qed.

(** What a connection registered once and open gets of a broadcast. *)
Lemma received_deliveries_other (ws : WebSocket) (data : Frame) (l : list WebSocket) :
  ~ In ws l -> received ws (deliveries data l) = [].
Proof.
  induction l as [|ws' l IH]; simpl; intros N; [reflexivity|].
  destruct (Nat.eqb_spec ws' ws) as [E|E]; [exfalso; apply N; now left|].
  apply IH. intros I. apply N. now right.
Qed.

Lemma received_deliveries_once (ws : WebSocket) (data : Frame) (l : list WebSocket) :
  NoDup l -> In ws l -> received ws (deliveries data l) = [data].
Proof.
  induction l as [|ws' l IH]; simpl; intros N I; [contradiction|].
  inversion N as [|? ? X Y]; subst.
  destruct (Nat.eqb_spec ws' ws) as [E|E].
  - subst ws'. now rewrite received_deliveries_other.
  - destruct I as [I|I]; [contradiction|]. now apply IH.
Qed.

Lemma NoDup_filter {A : Type} (f : A -> bool) (l : list A) :
  NoDup l -> NoDup (filter f l).
Proof.
  induction 1 as [|a l N D IH]; simpl; [constructor|].
  destruct (f a); [|exact IH].
  constructor; [|exact IH]. intros I. apply filter_In in I. tauto.
Qed.

Lemma received_segments (ws : WebSocket) (entries : list (WebSocket * string))
    (events : list Message) :
  NoDup (map fst entries) ->
  In ws (map fst entries) ->
  readyState p ws = READY_STATE_OPEN ->
  received ws (flat_map (segment p entries) events) = map JSON_stringify events.
Proof.
  intros N I O. induction events as [|event events IH]; [reflexivity|].
  cbn [flat_map]. unfold segment at 1. cbn [app received].
  rewrite received_app, IH.
  rewrite received_deliveries_once; [reflexivity| |].
  - unfold open_sockets. now apply NoDup_filter.
  - apply in_open_sockets. now split.
Qed.

Lemma client_view_adds (events : list Message) :
  (forall l, ~ In (all l) events) ->
  forall shown,
    client_view shown (map JSON_stringify events) = shown ++ adds_of events.
Proof.
  unfold client_view.
  induction events as [|event events IH]; intros N shown; simpl.
  - now rewrite app_nil_r.
  - rewrite IH by (intros l I; apply (N l); now right).
    destruct event; simpl; try reflexivity.
    + now rewrite <- app_assoc.
    + exfalso. apply (N messages0). now left.
Qed.

End Lockstep.

(** X21. While no send raises, a run of [handleMessage] keeps the log, the
    broadcasts and the clients in step: the events it broadcasts reach, once
    each and in order, every connection that is open and registered once;
    the [add] events among them are exactly the upserts made, in the same
    order; and a client that puts each [add] it receives at the end of its
    list shows the log of the room afterwards if it showed it before and
    the identifiers added are new and pairwise distinct. *)
Theorem client_follows_log
    (p : Platform) (webSocket : WebSocket) (raw : string) (w : World)
    (viewer : WebSocket) (shown : list ChatMessage) :
  accepting p (sessions w) = true ->
  NoDup (map fst (sessions w)) ->
  In viewer (map fst (sessions w)) ->
  readyState p viewer = READY_STATE_OPEN ->
  let w' := fst (handleMessage p webSocket raw w) in
  exists events,
    received viewer (wire w') = received viewer (wire w) ++ map JSON_stringify events /\
    emitted (wire w') = emitted (wire w) ++ events /\
    messages w' = upserts (adds_of events) (messages w) /\
    client_view shown (map JSON_stringify events) = shown ++ adds_of events /\
    (shown = messages w ->
     NoDup (map id (messages w) ++ map id (adds_of events)) ->
     client_view shown (map JSON_stringify events) = messages w').
Proof.
  intros A N I O w'.
  destruct (handleMessage_follows p webSocket raw w A) as (S & events & W & M & L).
  fold w' in S, W, M. exists events.
  assert (V : client_view shown (map JSON_stringify events) = shown ++ adds_of events)
    by (now apply client_view_adds).
  split; [|split; [|split; [exact M|split; [exact V|]]]].
  - rewrite W, received_app. f_equal. now apply received_segments.
  - rewrite W, emitted_app. f_equal.
    clear. induction events as [|event events IH]; [reflexivity|].
    cbn [flat_map]. unfold segment at 1. cbn [app emitted].
    rewrite emitted_app, emitted_deliveries, IH. reflexivity.
  - intros E D. rewrite V, M, E. symmetry. now apply upserts_fresh.
Qed.

Lemma client_follows_log_witness :
  accepting calm (sessions two_connected) = true /\
  NoDup (map fst (sessions two_connected)) /\
  In 2 (map fst (sessions two_connected)) /\
  readyState calm 2 = READY_STATE_OPEN /\
  exists events,
    received 2 (wire (fst (handleMessage calm 1 raw_hello two_connected))) =
      map JSON_stringify events /\
    client_view [] (map JSON_stringify events) =
      messages (fst (handleMessage calm 1 raw_hello two_connected)).
Proof.
  assert (N : NoDup (map fst (sessions two_connected))).
  { simpl. repeat constructor; simpl; [intros [E|[]]; discriminate E|intros []]. }
  assert (I : In 2 (map fst (sessions two_connected))) by (simpl; auto).
  split; [reflexivity|]. split; [exact N|]. split; [exact I|]. split; [reflexivity|].
  destruct (client_follows_log calm 1 raw_hello two_connected 2 [] eq_refl N I eq_refl)
    as (events & R & Em & M & _ & C).
  exists events. split; [exact R|].
  apply C; [reflexivity|].
  assert (X : events = [add hello no_extras;
                        add {| id := "uuid-0"; user := "SE Onboarding Assistant";
                               role := Assistant;
                               content := "Durable Objects are stateful." |} no_extras]).
  { simpl in Em. symmetry. exact Em. }
  rewrite X. simpl. repeat constructor; simpl; [intros [E|[]]; discriminate E|intros []].
Defined.

(** The client and the room part ways when an identifier comes again: the
    room replaces the message in place, the client shows both. *)
Example client_shows_a_replaced_message_twice :
  messages (fst (handleMessage busy 1 raw_hello_again
                   (with_messages [hello] two_connected)))
  = [hello_again;
     {| id := "uuid-0"; user := "SE Onboarding Assistant"; role := Assistant;
        content := apology "hello again" |}] /\
  client_view [hello]
    (received 2 (wire (fst (handleMessage busy 1 raw_hello_again
                              (with_messages [hello] two_connected)))))
  = [hello; hello_again;
     {| id := "uuid-0"; user := "SE Onboarding Assistant"; role := Assistant;
        content := apology "hello again" |}].
Proof. split; reflexivity. Qed.

(** ** When a send raises *)

Section Raising.

Variable p : Platform.

Lemma not_accepting_first_raise (entries : list (WebSocket * string)) :
  accepting p entries = false -> exists e, first_raise p entries = Some e.
Proof.
  intros A. destruct (first_raise p entries) as [e|] eqn:F; [now exists e|].
  apply accepting_first_raise in F. congruence.
Qed.

Lemma Map_set_absent (k : WebSocket) (v : string) (m : list (WebSocket * string)) :
  ~ In k (map fst m) -> Map_set k v m = m ++ [(k, v)].
Proof.
  induction m as [|[k0 v0] m IH]; simpl; intros N; [reflexivity|].
  destruct (Nat.eqb_spec k0 k) as [E|E]; [exfalso; apply N; now left|].
  rewrite IH; [reflexivity|]. intros I. apply N. now right.
Qed.

Lemma first_raise_stops (l l' : list (WebSocket * string)) (e : Error) :
  first_raise p l = Some e ->
  first_raise p (l ++ l') = Some e /\ reached p (l ++ l') = reached p l.
Proof.
  induction l as [|[ws tok] l IH]; simpl; [discriminate|].
  destruct (is_open (readyState p ws)); [|exact IH].
  destruct (send_raises p ws); [intros E; now split|].
  intros F. destruct (IH F) as [A B]. split; [exact A|now rewrite B].
Qed.

Lemma reached_registered (l : list (WebSocket * string)) (ws : WebSocket) :
  In ws (reached p l) -> In ws (map fst l).
Proof.
  induction l as [|[ws' tok] l IH]; simpl; [tauto|].
  destruct (is_open (readyState p ws')).
  - destruct (send_raises p ws'); [intros []|].
    intros [E|I]; [now left|right; now apply IH].
  - intros I. right. now apply IH.
Qed.

End Raising.

(** X22. One connection on which [send] raises keeps a room without a
    token from ever getting one: when a new connection joins such a room,
    it is registered and is sent the log, the set-up hands
    [session_loading] and [session_failed] to the broadcast, and then
    [handleSession] ends with the error of the raising connection.  The
    new connection receives neither of the two events nor any session
    status, and the room still has no token. *)
Theorem handleSession_blocked_by_raising_connection
    (p : Platform) (webSocket : WebSocket) (w : World) :
  JS.falsy (mcpSessionId w) = true ->
  ~ In webSocket (map fst (sessions w)) ->
  send_raises p webSocket = None ->
  accepting p (sessions w) = false ->
  let w' := fst (handleSession p webSocket w) in
  exists e,
    snd (handleSession p webSocket w) = inl e /\
    In webSocket (map fst (sessions w')) /\
    received webSocket (wire w') =
      received webSocket (wire w) ++ [JSON_stringify (all (messages w))] /\
    emitted (wire w') =
      emitted (wire w) ++ [session_loading; session_failed (message e)] /\
    mcpSessionId w' = mcpSessionId w.
Proof.
  intros F N R A w'.
  destruct (not_accepting_first_raise p _ A) as [e FR].
  exists e. subst w'. rewrite handleSession_spec, R, F.
  rewrite (Map_set_absent webSocket _ _ N). fields.
  destruct (first_raise_stops p (sessions w) [(webSocket, randomUUID p (drawn w))] e FR)
    as [FR' RC].
  rewrite FR'. cbn [fst snd].
  rewrite initializeMCPSession_spec. fields. rewrite FR', RC. cbn [fst]. fields.
  assert (X : forall data, received webSocket (deliveries data (reached p (sessions w))) = []).
  { intros data. apply received_deliveries_other.
    intros I. apply N. now apply (reached_registered p). }
  split; [reflexivity|]. split; [|split; [|split; [|reflexivity]]].
  - rewrite map_app. apply in_or_app. right. now left.
  - rewrite !received_app. rewrite <- app_assoc. f_equal.
    cbn [received]. rewrite Nat.eqb_refl. now rewrite !X.
  - rewrite !emitted_app. rewrite <- app_assoc. f_equal.
    cbn [emitted app]. now rewrite !emitted_deliveries.
Qed.

Lemma handleSession_blocked_by_raising_connection_witness :
  JS.falsy (mcpSessionId two_connected) = true /\
  ~ In 4 (map fst (sessions two_connected)) /\
  send_raises flaky 4 = None /\
  accepting flaky (sessions two_connected) = false /\
  snd (handleSession flaky 4 two_connected) = inl down /\
  received 4 (wire (fst (handleSession flaky 4 two_connected))) =
    [JSON_stringify (all [])].
Proof.
  assert (N : ~ In 4 (map fst (sessions two_connected))).
  { simpl. intros [E|[E|[]]]; discriminate E. }
  split; [reflexivity|]. split; [exact N|]. split; [reflexivity|].
  split; [reflexivity|].
  destruct (handleSession_blocked_by_raising_connection flaky 4 two_connected
              eq_refl N eq_refl eq_refl) as (e & S & _ & Rc & _).
  split; [reflexivity|exact Rc].
Defined.

(** X23. When [send] raises on an open registered connection, an [add]
    event is still upserted into the log, but the handler ends with the
    error during the first broadcast: no backend is asked, no identifier is
    drawn and no answer is logged or broadcast. *)
Theorem handleMessage_add_with_raising_send
    (p : Platform) (webSocket : WebSocket) (raw : string) (w : World)
    (m : ChatMessage) (x : Extras) :
  JSON_parse p raw = inr (Event (add m x)) ->
  accepting p (sessions w) = false ->
  let w' := fst (handleMessage p webSocket raw w) in
  exists e,
    snd (handleMessage p webSocket raw w) = inl e /\
    messages w' = saveMessage m (messages w) /\
    emitted (wire w') = emitted (wire w) ++ [add m x] /\
    drawn w' = drawn w /\
    mcpSessionId w' = mcpSessionId w.
Proof.
  intros E A w'.
  destruct (not_accepting_first_raise p _ A) as [e FR].
  exists e. subst w'.
  assert (X : handleMessage p webSocket raw w =
              (with_wire (wire w ++ Broadcast (add m x)
                            :: deliveries (JSON_stringify (add m x))
                                 (reached p (sessions w)))
                 (with_messages (saveMessage m (messages w)) w),
               inl e)).
  { unfold handleMessage, handleMessage_receive, bind, lift. rewrite E.
    unfold modify at 1. rewrite broadcastMessage_spec. fields. now rewrite FR. }
  rewrite X. cbn [fst snd]. fields.
  split; [reflexivity|]. split; [reflexivity|]. split; [|split; reflexivity].
  rewrite emitted_app. cbn [emitted]. now rewrite emitted_deliveries.
Qed.

Lemma handleMessage_add_with_raising_send_witness :
  JSON_parse flaky raw_hello = inr (Event (add hello no_extras)) /\
  accepting flaky (sessions two_connected) = false /\
  snd (handleMessage flaky 2 raw_hello two_connected) = inl down /\
  messages (fst (handleMessage flaky 2 raw_hello two_connected)) = [hello].
Proof.
  split; [reflexivity|]. split; [reflexivity|].
  destruct (handleMessage_add_with_raising_send flaky 2 raw_hello two_connected
              hello no_extras eq_refl eq_refl) as (e & S & M & _).
  split; [reflexivity|exact M].
Defined.
